(** * A shallow embedding of the OCI registry toolkit (jcarter3/oci)

    The development follows the Go packages of the repository:
    - [ociregistry]: the error model, descriptors and the [Funcs]
      capability table (func.go, error_test.go);
    - [ocimem]: the writer half of the in-memory engine (writer.go);
    - [ociclient]: the referrers fallback tag (referrers tag tests);
    - [ociauth]: registry key matching of the docker configuration;
    - [ocifilter]: the immutable filter (immutable.go), also over the
      in-memory engine;
    - [ocibuilder]: the image builder (imagebuilder.go, manifest.go).

    Go values are modelled as follows.  A [string] or [[]byte] is a Rocq
    [string]; an [int64] is a [Z]; a Go [map] is a stdpp [gmap] (a nil map
    is [None] where the difference matters); a pointer into the registry
    is the key under which the pointee is stored; a function returning
    [(T, error)] returns a [result T]; a function that can panic returns
    an [outcome]. *)

From Stdlib Require Import ZArith String Ascii List Bool Lia.
From stdpp Require Import base option gmap strings list fin_maps pretty.

Open Scope string_scope.

(** ** Results of Go calls *)

(** [(T, error)] with the usual convention that the value is meaningful
    only when the error is nil. *)
Inductive result (E A : Type) : Type :=
| Ok (a : A)
| Err (e : E).
Arguments Ok {E A} a.
Arguments Err {E A} e.

(** A call either returns or panics (nil map assignment, call of a nil
    function value, nil interface method call). *)
Inductive outcome (A : Type) : Type :=
| Returns (a : A)
| Panics (reason : string).
Arguments Returns {A} a.
Arguments Panics {A} reason.

(** The verb [%q] on a string without special characters: the string
    between double quotes. *)
Definition quote (s : string) : string :=
  String (ascii_of_nat 34) s +:+ String (ascii_of_nat 34) "".

Definition isErr {E A} (x : result E A) : bool :=
  match x with Err _ => true | Ok _ => false end.

Definition isPanic {A} (x : outcome A) : bool :=
  match x with Panics _ => true | Returns _ => false end.

(** ** Package ociregistry *)
Module ociregistry.

(** *** Errors

    Modelled from the spec: errors.go is not part of the sources; the
    coded error and the HTTP wrapper follow sections 4.1 and 9.  These are
    the Go error values as they are built in this repository:
    [errors.New] and [fmt.Errorf] without a [%w] verb give a plain
    [errorString] (a [%v] operand is formatted into the text and the
    operand itself is dropped); [fmt.Errorf] with one [%w] verb gives a
    [wrapError] that keeps the operand reachable through [Unwrap];
    [NewError] gives a coded registry error and [NewHTTPError] binds an
    error to an HTTP status. *)
Inductive error : Type :=
| errorString (msg : string)
| ociError (code : string) (msg : string) (detail : option string)
| wrapError (pre : string) (inner : error) (post : string)
| httpError (statusCode : Z) (inner : error).

(** Modelled from the spec: errors.go is not part of the sources.  The
    text of a coded error starts with its code in lower case, underscores
    turned into spaces (error_test.go: [ErrBlobUnknown] prints as
    ["blob unknown: blob unknown to registry"]). *)
Definition lowerChar (c : ascii) : ascii :=
  let n := nat_of_ascii c in
  if (65 <=? n)%nat && (n <=? 90)%nat then ascii_of_nat (n + 32) else c.

Fixpoint codePrefix (code : string) : string :=
  match code with
  | EmptyString => EmptyString
  | String c rest =>
      String (if Ascii.eqb c "_" then " "%char else lowerChar c) (codePrefix rest)
  end.

(** [http.StatusText], for the status codes the registry uses. *)
Definition StatusText (status : Z) : string :=
  if (status =? 400)%Z then "Bad Request"
  else if (status =? 401)%Z then "Unauthorized"
  else if (status =? 403)%Z then "Forbidden"
  else if (status =? 404)%Z then "Not Found"
  else if (status =? 405)%Z then "Method Not Allowed"
  else if (status =? 416)%Z then "Requested Range Not Satisfiable"
  else if (status =? 418)%Z then "I'm a teapot"
  else if (status =? 429)%Z then "Too Many Requests"
  else if (status =? 500)%Z then "Internal Server Error"
  else "".

Definition statusPrefix (status : Z) : string :=
  pretty status +:+ " " +:+ StatusText status.

(** [err.Error()] *)
Fixpoint Error (e : error) : string :=
  match e with
  | errorString msg => msg
  | ociError code msg _ =>
      if String.eqb msg "" then codePrefix code
      else codePrefix code +:+ ": " +:+ msg
  | wrapError pre inner post => pre +:+ Error inner +:+ post
  | httpError status inner => statusPrefix status +:+ ": " +:+ Error inner
  end.

(** [errors.As(err, &ociErr)]: the outermost coded error of the chain. *)
Fixpoint asCoded (e : error) : option (string * option string) :=
  match e with
  | errorString _ => None
  | ociError code _ detail => Some (code, detail)
  | wrapError _ inner _ => asCoded inner
  | httpError _ inner => asCoded inner
  end.

(** [errors.As(err, &httpErr)]: the outermost HTTP status of the chain. *)
Fixpoint asHTTP (e : error) : option Z :=
  match e with
  | errorString _ => None
  | ociError _ _ _ => None
  | wrapError _ inner _ => asHTTP inner
  | httpError status _ => Some status
  end.

(** Modelled from the spec: the has-code query,
    [errors.Is(err, NewError(_, code, nil))].  It walks the [Unwrap]
    chain and compares codes; a plain [errorString] ends the chain. *)
Fixpoint hasCode (e : error) (code : string) : bool :=
  match e with
  | errorString _ => false
  | ociError c _ _ => String.eqb c code
  | wrapError _ inner _ => hasCode inner code
  | httpError _ inner => hasCode inner code
  end.

Definition Code (e : error) : string :=
  match asCoded e with Some (c, _) => c | None => "" end.

Definition Detail (e : error) : option string :=
  match asCoded e with Some (_, d) => d | None => None end.

Definition NewError (msg code : string) (detail : option string) : error :=
  ociError code msg detail.

(** Modelled from the spec: the predeclared coded errors (section 4.1). *)
Definition ErrBlobUnknown : error :=
  NewError "blob unknown to registry" "BLOB_UNKNOWN" None.
Definition ErrManifestUnknown : error :=
  NewError "manifest unknown to registry" "MANIFEST_UNKNOWN" None.
Definition ErrDigestInvalid : error :=
  NewError "provided digest did not match uploaded content" "DIGEST_INVALID" None.
Definition ErrNameInvalid : error :=
  NewError "invalid repository name" "NAME_INVALID" None.
Definition ErrNameUnknown : error :=
  NewError "repository name not known to registry" "NAME_UNKNOWN" None.
Definition ErrDenied : error :=
  NewError "requested access to the resource is denied" "DENIED" None.
Definition ErrUnsupported : error :=
  NewError "the operation is unsupported" "UNSUPPORTED" None.
Definition ErrRangeInvalid : error :=
  NewError "invalid content range" "RANGE_INVALID" None.

(** [fmt.Errorf("... %v", err)]: the operand is rendered, not wrapped. *)
Definition Errorf_v (pre : string) (e : error) : error :=
  errorString (pre +:+ Error e).

(** [fmt.Errorf("... %w ...", err)] *)
Definition Errorf_w (pre : string) (e : error) (post : string) : error :=
  wrapError pre e post.

(** *** Descriptors *)

(** [ociregistry.Digest] is go-digest's [digest.Digest], a string. *)
Definition digest := string.

(** [ociregistry.Descriptor].  [Annotations] is a Go map: [None] is the
    nil map of the zero value. *)
Record Descriptor : Type := mkDescriptor {
  MediaType : string;
  Digest : digest;
  Size : Z;
  Annotations : option (gmap string string);
  ArtifactType : string
}.

Definition zeroDescriptor : Descriptor :=
  mkDescriptor "" "" 0 None "".

(** [*PushManifestParameters]; the nil pointer is [None] at the use. *)
Module PushManifestParameters.
Record t : Type := mk {
  Tags : list string;
  Digest : digest
}.
End PushManifestParameters.

(** *** The wire form of errors *)

(** [WireError]; [WireErrors] is the list under the key "errors". *)
Record WireError : Type := mkWireError {
  Code_ : string;
  Message : string;
  Detail_ : option string
}.

Definition WireErrors : Type := list WireError.

(** Modelled from the spec: the HTTP status implied by an error code
    (section 4.1 and section 7; errors.go is not part of the sources). *)
Definition errorStatuses (code : string) : option Z :=
  if String.eqb code "BLOB_UNKNOWN" then Some 404%Z
  else if String.eqb code "BLOB_UPLOAD_UNKNOWN" then Some 404%Z
  else if String.eqb code "MANIFEST_UNKNOWN" then Some 404%Z
  else if String.eqb code "NAME_UNKNOWN" then Some 404%Z
  else if String.eqb code "DIGEST_INVALID" then Some 400%Z
  else if String.eqb code "MANIFEST_INVALID" then Some 400%Z
  else if String.eqb code "NAME_INVALID" then Some 400%Z
  else if String.eqb code "SIZE_INVALID" then Some 400%Z
  else if String.eqb code "UNSUPPORTED" then Some 400%Z
  else if String.eqb code "UNAUTHORIZED" then Some 401%Z
  else if String.eqb code "DENIED" then Some 403%Z
  else if String.eqb code "RANGE_INVALID" then Some 416%Z
  else if String.eqb code "UNKNOWN" then Some 500%Z
  else None.

(** [strings.TrimPrefix] *)
Definition TrimPrefix (s pre : string) : string :=
  if String.prefix pre s
  then String.substring (String.length pre) (String.length s - String.length pre) s
  else s.

(** Modelled from the spec: MarshalError is not part of the sources.  One
    entry is emitted, with the code and detail of the coded error of the
    chain, or UNKNOWN when there is none.  The status implied by the code
    wins; for a code without one the status of an HTTP wrapper is used, and
    500 otherwise.  The message is the text of the error without a leading
    status or code prefix that the entry already conveys (the rows of
    [errorTests] fix these details). *)
Definition MarshalError (err : error) : WireErrors * Z :=
  let code := if String.eqb (Code err) "" then "UNKNOWN" else Code err in
  let httpStatus :=
    match errorStatuses code with
    | Some st => st
    | None => match asHTTP err with Some st => st | None => 500%Z end
    end in
  let msg :=
    TrimPrefix (TrimPrefix (Error err) (statusPrefix httpStatus +:+ ": "))
               (codePrefix code +:+ ": ") in
  ([mkWireError code msg (Detail err)], httpStatus).

(** Modelled from the spec: [errors.Is(wireErrs, NewError(_, code, nil))],
    the unmarshalled wire errors match any entry by code. *)
Definition wireHasCode (w : WireErrors) (code : string) : bool :=
  existsb (fun e => String.eqb (Code_ e) code) w.

(** Contextual prose around an error, one [fmt.Errorf] with [%w] per
    layer, innermost layer last. *)
Definition wrapAll (layers : list (string * string)) (e : error) : error :=
  fold_right (fun l acc => wrapError (fst l) acc (snd l)) e layers.

(** One row of [errorTests] (error_test.go). *)
Record errorTest : Type := mkErrorTest {
  testName : string;
  err : error;
  wantMsg : string;
  wantMarshalData : WireErrors;
  wantMarshalHTTPStatus : Z
}.

Definition StatusUnauthorized : Z := 401.
Definition StatusNotFound : Z := 404.
Definition StatusInternalServerError : Z := 500.

(** The rows of [errorTests].  The detail of the last row is JSON that the
    test compares up to layout; here it is the same raw text on both
    sides, written with single quotes. *)
Definition errorTests : list errorTest := [
  mkErrorTest "RegularGoError"
    (errorString "unknown error")
    "unknown error"
    [mkWireError "UNKNOWN" "unknown error" None]
    StatusInternalServerError;
  mkErrorTest "RegistryError"
    ErrBlobUnknown
    "blob unknown: blob unknown to registry"
    [mkWireError "BLOB_UNKNOWN" "blob unknown to registry" None]
    StatusNotFound;
  mkErrorTest "WrappedRegistryErrorWithContextAtStart"
    (Errorf_w "some context: " ErrBlobUnknown "")
    "some context: blob unknown: blob unknown to registry"
    [mkWireError "BLOB_UNKNOWN" "some context: blob unknown: blob unknown to registry" None]
    StatusNotFound;
  mkErrorTest "WrappedRegistryErrorWithContextAtEnd"
    (Errorf_w "" ErrBlobUnknown ": some context")
    "blob unknown: blob unknown to registry: some context"
    [mkWireError "BLOB_UNKNOWN" "blob unknown to registry: some context" None]
    StatusNotFound;
  mkErrorTest "HTTPStatusIgnoredWithKnownCode"
    (httpError StatusUnauthorized (Errorf_w "" ErrBlobUnknown ": some context"))
    "401 Unauthorized: blob unknown: blob unknown to registry: some context"
    [mkWireError "BLOB_UNKNOWN"
       "401 Unauthorized: blob unknown: blob unknown to registry: some context" None]
    StatusNotFound;
  mkErrorTest "HTTPStatusUsedWithUnknownCode"
    (httpError StatusUnauthorized (NewError "a message with a code" "SOME_CODE" None))
    "401 Unauthorized: some code: a message with a code"
    [mkWireError "SOME_CODE" "a message with a code" None]
    StatusUnauthorized;
  mkErrorTest "ErrorWithDetail"
    (NewError "a message with some detail" "SOME_CODE" (Some "{'foo': true}"))
    "some code: a message with some detail"
    [mkWireError "SOME_CODE" "a message with some detail" (Some "{'foo': true}")]
    StatusInternalServerError
].

(** What [TestError] asserts of a row. *)
Definition errorTestPasses (t : errorTest) : bool :=
  String.eqb (Error (err t)) (wantMsg t)
  && (snd (MarshalError (err t)) =? wantMarshalHTTPStatus t)%Z
  && match fst (MarshalError (err t)), wantMarshalData t with
     | [got], [want] =>
         String.eqb (Code_ got) (Code_ want)
         && String.eqb (Message got) (Message want)
         && match Detail_ got, Detail_ want with
            | Some a, Some b => String.eqb a b
            | None, None => true
            | _, _ => false
            end
     | _, _ => false
     end
  && match asCoded (err t) with
     | Some (code, _) => wireHasCode (fst (MarshalError (err t))) code
     | None => true
     end.

(** *** func.go: the capability table *)

(** [iter.Seq2[T, error]], as the list of the pairs it yields. *)
Definition Seq2 (T : Type) : Type := list (T * option error).

(** Modelled from the spec: ErrorSeq is not part of the sources; it yields
    the zero value with the error, once (TestErrorSeq). *)
Definition ErrorSeq {T : Type} (zero : T) (e : option error) : Seq2 T := [(zero, e)].

(** The interface types the table mentions, which func.go leaves opaque. *)
Class Opaque : Type := {
  context : Type;
  BlobReader : Type;
  BlobWriter : Type;
  Reader : Type;
  TagsParameters : Type;
  ReferrersParameters : Type
}.

(** [Funcs].  A nil function field is [None]; an interface result is an
    [option] with [None] for nil. *)
Module Funcs.
Section fields.
Context `{Opaque}.
Record t : Type := mk {
  NewError : option (context -> string -> string -> option error);
  GetBlob_ : option (context -> string -> digest -> option BlobReader * option error);
  GetBlobRange_ :
    option (context -> string -> digest -> Z -> Z -> option BlobReader * option error);
  GetManifest_ : option (context -> string -> digest -> option BlobReader * option error);
  GetTag_ : option (context -> string -> string -> option BlobReader * option error);
  ResolveBlob_ : option (context -> string -> digest -> Descriptor * option error);
  ResolveManifest_ : option (context -> string -> digest -> Descriptor * option error);
  ResolveTag_ : option (context -> string -> string -> Descriptor * option error);
  PushBlob_ : option (context -> string -> Descriptor -> Reader -> Descriptor * option error);
  PushBlobChunked_ : option (context -> string -> Z -> option BlobWriter * option error);
  PushBlobChunkedResume_ :
    option (context -> string -> string -> Z -> Z -> option BlobWriter * option error);
  MountBlob_ : option (context -> string -> string -> digest -> Descriptor * option error);
  PushManifest_ :
    option (context -> string -> string -> string -> string -> Descriptor * option error);
  DeleteBlob_ : option (context -> string -> digest -> option error);
  DeleteManifest_ : option (context -> string -> digest -> option error);
  DeleteTag_ : option (context -> string -> string -> option error);
  Repositories_ : option (context -> string -> Seq2 string);
  Tags_ : option (context -> string -> option TagsParameters -> Seq2 string);
  Referrers_ :
    option (context -> string -> digest -> option ReferrersParameters -> Seq2 Descriptor)
}.
End fields.
End Funcs.

Section funcs.
Context `{Opaque}.

(** A [*Funcs]; [None] is the nil pointer. *)
Definition FuncsPtr : Type := option Funcs.t.

(** The method [newError] of [*Funcs] *)
Definition newError (f : FuncsPtr) (ctx : context) (methodName repo : string)
    : option error :=
  match f with
  | Some fs =>
      match Funcs.NewError fs with
      | Some hook => hook ctx methodName repo
      | None => Some (Errorf_w (methodName +:+ ": ") ErrUnsupported "")
      end
  | None => Some (Errorf_w (methodName +:+ ": ") ErrUnsupported "")
  end.

(** The shape shared by the methods: [if f != nil && f.X_ != nil] call the
    field, otherwise return the fallback. *)
Definition dispatch {F R : Type} (f : FuncsPtr) (field : Funcs.t -> option F)
    (call : F -> R) (fallback : R) : outcome R :=
  match f with
  | Some fs =>
      match field fs with
      | Some g => Returns (call g)
      | None => Returns fallback
      end
  | None => Returns fallback
  end.

Definition GetBlob (f : FuncsPtr) ctx (repo : string) (dig : digest) :=
  dispatch f Funcs.GetBlob_ (fun g => g ctx repo dig) (None, newError f ctx "GetBlob" repo).

Definition GetBlobRange (f : FuncsPtr) ctx (repo : string) (dig : digest) (offset0 offset1 : Z) :=
  dispatch f Funcs.GetBlobRange_ (fun g => g ctx repo dig offset0 offset1)
    (None, newError f ctx "GetBlobRange" repo).

Definition GetManifest (f : FuncsPtr) ctx (repo : string) (dig : digest) :=
  dispatch f Funcs.GetManifest_ (fun g => g ctx repo dig)
    (None, newError f ctx "GetManifest" repo).

Definition GetTag (f : FuncsPtr) ctx (repo tagName : string) :=
  dispatch f Funcs.GetTag_ (fun g => g ctx repo tagName) (None, newError f ctx "GetTag" repo).

Definition ResolveBlob (f : FuncsPtr) ctx (repo : string) (dig : digest) :=
  dispatch f Funcs.ResolveBlob_ (fun g => g ctx repo dig)
    (zeroDescriptor, newError f ctx "ResolveBlob" repo).

Definition ResolveManifest (f : FuncsPtr) ctx (repo : string) (dig : digest) :=
  dispatch f Funcs.ResolveManifest_ (fun g => g ctx repo dig)
    (zeroDescriptor, newError f ctx "ResolveManifest" repo).

Definition ResolveTag (f : FuncsPtr) ctx (repo tagName : string) :=
  dispatch f Funcs.ResolveTag_ (fun g => g ctx repo tagName)
    (zeroDescriptor, newError f ctx "ResolveTag" repo).

Definition PushBlob (f : FuncsPtr) ctx (repo : string) (desc : Descriptor) (r : Reader) :=
  dispatch f Funcs.PushBlob_ (fun g => g ctx repo desc r)
    (zeroDescriptor, newError f ctx "PushBlob" repo).

Definition PushBlobChunked (f : FuncsPtr) ctx (repo : string) (chunkSize : Z) :=
  dispatch f Funcs.PushBlobChunked_ (fun g => g ctx repo chunkSize)
    (None, newError f ctx "PushBlobChunked" repo).

(** [PushBlobChunkedResume] (func.go, lines 146-151): the guard tests
    [f.PushBlobChunked_] and the call goes through
    [f.PushBlobChunkedResume_]; calling a nil function value panics. *)
Definition PushBlobChunkedResume (f : FuncsPtr) ctx (repo id : string) (offset chunkSize : Z)
    : outcome (option BlobWriter * option error) :=
  match f with
  | Some fs =>
      match Funcs.PushBlobChunked_ fs with
      | Some _ =>
          match Funcs.PushBlobChunkedResume_ fs with
          | Some g => Returns (g ctx repo id offset chunkSize)
          | None => Panics "invalid memory address or nil pointer dereference"
          end
      | None => Returns (None, newError f ctx "PushBlobChunked" repo)
      end
  | None => Returns (None, newError f ctx "PushBlobChunked" repo)
  end.

Definition MountBlob (f : FuncsPtr) ctx (fromRepo toRepo : string) (dig : digest) :=
  dispatch f Funcs.MountBlob_ (fun g => g ctx fromRepo toRepo dig)
    (zeroDescriptor, newError f ctx "MountBlob" toRepo).

Definition PushManifest (f : FuncsPtr) ctx (repo tag contents mediaType : string) :=
  dispatch f Funcs.PushManifest_ (fun g => g ctx repo tag contents mediaType)
    (zeroDescriptor, newError f ctx "PushManifest" repo).

Definition DeleteBlob (f : FuncsPtr) ctx (repo : string) (dig : digest) :=
  dispatch f Funcs.DeleteBlob_ (fun g => g ctx repo dig) (newError f ctx "DeleteBlob" repo).

Definition DeleteManifest (f : FuncsPtr) ctx (repo : string) (dig : digest) :=
  dispatch f Funcs.DeleteManifest_ (fun g => g ctx repo dig)
    (newError f ctx "DeleteManifest" repo).

Definition DeleteTag (f : FuncsPtr) ctx (repo name : string) :=
  dispatch f Funcs.DeleteTag_ (fun g => g ctx repo name) (newError f ctx "DeleteTag" repo).

Definition Repositories (f : FuncsPtr) ctx (startAfter : string) :=
  dispatch f Funcs.Repositories_ (fun g => g ctx startAfter)
    (ErrorSeq "" (newError f ctx "Repositories" "")).

Definition Tags (f : FuncsPtr) ctx (repo : string) (params : option TagsParameters) :=
  dispatch f Funcs.Tags_ (fun g => g ctx repo params)
    (ErrorSeq "" (newError f ctx "Tags" repo)).

Definition Referrers (f : FuncsPtr) ctx (repo : string) (dig : digest)
    (params : option ReferrersParameters) :=
  dispatch f Funcs.Referrers_ (fun g => g ctx repo dig params)
    (ErrorSeq zeroDescriptor (newError f ctx "Referrers" repo)).

(** An error value carries the UNSUPPORTED code. *)
Definition unsupported (e : option error) : bool :=
  match e with
  | Some x => hasCode x "UNSUPPORTED"
  | None => false
  end.

(** The table has no [NewError] hook (a nil table has none). *)
Definition hookless (f : FuncsPtr) : Prop :=
  match f with
  | Some fs => Funcs.NewError fs = None
  | None => True
  end.

(** The function field is nil (every field of a nil table is). *)
Definition nilField {F : Type} (f : FuncsPtr) (field : Funcs.t -> option F) : Prop :=
  match f with
  | Some fs => field fs = None
  | None => True
  end.

(** A method with a value and an error result returned the zero value and
    an error that carries UNSUPPORTED. *)
Definition returnsUnsupported {T : Type} (zero : T) (x : outcome (T * option error)) : Prop :=
  exists e, x = Returns (zero, Some e) /\ hasCode e "UNSUPPORTED" = true.

(** The same for a method whose only result is the error. *)
Definition failsUnsupported (x : outcome (option error)) : Prop :=
  exists e, x = Returns (Some e) /\ hasCode e "UNSUPPORTED" = true.

(** The same for a method that returns a sequence: it yields one pair, the
    zero value with an error that carries UNSUPPORTED. *)
Definition yieldsUnsupported {T : Type} (zero : T) (x : outcome (Seq2 T)) : Prop :=
  exists e, x = Returns [(zero, Some e)] /\ hasCode e "UNSUPPORTED" = true.

(** The table with every field nil: [&Funcs{}]. *)
Definition noFuncs : Funcs.t :=
  Funcs.mk None None None None None None None None None None None None None None None None
           None None None.

End funcs.

End ociregistry.

(** ** Package ociref *)
Module ociref.

Definition isLowerAlnum (c : ascii) : bool :=
  let n := nat_of_ascii c in
  ((97 <=? n)%nat && (n <=? 122)%nat) || ((48 <=? n)%nat && (n <=? 57)%nat).

Definition isWordChar (c : ascii) : bool :=
  let n := nat_of_ascii c in
  ((97 <=? n)%nat && (n <=? 122)%nat) || ((65 <=? n)%nat && (n <=? 90)%nat)
  || ((48 <=? n)%nat && (n <=? 57)%nat) || Ascii.eqb c "_".

Definition isSeparator (c : ascii) : bool :=
  Ascii.eqb c "." || Ascii.eqb c "_" || Ascii.eqb c "-".

(** The three positions of the repository-name automaton: at the start of
    a component or right after a separator an alphanumeric is required;
    after an alphanumeric the name may end. *)
Inductive repoState : Type := needAlnum | afterAlnum.

Fixpoint repoScan (st : repoState) (s : string) : bool :=
  match s with
  | EmptyString => match st with afterAlnum => true | needAlnum => false end
  | String c rest =>
      match st with
      | needAlnum => isLowerAlnum c && repoScan afterAlnum rest
      | afterAlnum =>
          if isLowerAlnum c then repoScan afterAlnum rest
          else if isSeparator c || Ascii.eqb c "/" then repoScan needAlnum rest
          else false
      end
  end.

(** Modelled from the spec: ociref is not part of the sources.  Repository
    names are slash-separated components; a component is one or more runs
    of [a-z0-9] joined by single separators out of [._-]. *)
Definition IsValidRepository (name : string) : bool := repoScan needAlnum name.

Fixpoint allChars (p : ascii -> bool) (s : string) : bool :=
  match s with
  | EmptyString => true
  | String c rest => p c && allChars p rest
  end.

Definition isTagChar (c : ascii) : bool :=
  isWordChar c || Ascii.eqb c "." || Ascii.eqb c "-".

(** Modelled from the spec: ociref is not part of the sources.  Valid tags
    start with a character of [A-Za-z0-9_], continue with characters of
    [A-Za-z0-9._-] and are at most 128 characters long. *)
Definition IsValidTag (tag : string) : bool :=
  match tag with
  | EmptyString => false
  | String c rest =>
      isWordChar c && allChars isTagChar rest && (String.length rest <=? 127)%nat
  end.

End ociref.

(** ** Package ocimem: the in-memory engine *)
Module ocimem.
Import ociregistry.

Abbreviation res := (result error).

(** *** Data model *)

Inductive descKind : Type := kindBlob | kindManifest | kindSubjectManifest.

(** One descriptor referenced from a manifest, with the JSON path it was
    found at ([name]) and its kind. *)
Record descInfo : Type := mkDescInfo {
  name : string;
  kind : descKind;
  desc : Descriptor
}.

(** What [getManifestInfo] extracts from a manifest; the iterator
    [descriptors] is the list of items it yields, in order. *)
Record manifestInfo : Type := mkManifestInfo {
  descriptors : list descInfo
}.

Definition zeroManifestInfo : manifestInfo := mkManifestInfo [].

Record blob : Type := mkBlob {
  mediaType : string;
  data : string;
  info : manifestInfo
}.

(** Modelled from the spec: the upload session ([Buffer], buffer.go is not
    part of the sources): its id, the bytes received so far and the offset
    the next write is expected at. *)
Record Buffer : Type := mkBuffer {
  uuid : string;
  buf : string;
  checkStartOffset : Z
}.

Record repository : Type := mkRepository {
  tags : gmap string Descriptor;
  manifests : gmap string blob;
  blobs : gmap string blob;
  uploads : gmap string Buffer
}.

Record Config : Type := mkConfig {
  ImmutableTags : bool;
  LaxChildReferences : bool
}.

(** The registry: its configuration and [repos].  The mutex is held for
    the whole of every method, so each method is one atomic transition. *)
Record Registry : Type := mkRegistry {
  cfg : Config;
  repos : gmap string repository
}.

Definition emptyRepository : repository := mkRepository ∅ ∅ ∅ ∅.

(** [ocimem.NewWithConfig(cfg)] *)
Definition NewWithConfig (c : Config) : Registry := mkRegistry c ∅.

Definition setRepo (r : Registry) (repoName : string) (rp : repository) : Registry :=
  mkRegistry (cfg r) (<[repoName := rp]> (repos r)).

Definition setBlobs (rp : repository) (b : gmap string blob) : repository :=
  mkRepository (tags rp) (manifests rp) b (uploads rp).
Definition setManifests (rp : repository) (m : gmap string blob) : repository :=
  mkRepository (tags rp) m (blobs rp) (uploads rp).
Definition setTags (rp : repository) (t : gmap string Descriptor) : repository :=
  mkRepository t (manifests rp) (blobs rp) (uploads rp).
Definition setUploads (rp : repository) (u : gmap string Buffer) : repository :=
  mkRepository (tags rp) (manifests rp) (blobs rp) u.

(** *** What the engine takes from outside the repository

    The digest library (github.com/opencontainers/go-digest) and the JSON
    reading of manifests are kept abstract. *)
Class Externals : Type := {
  (** [digest.FromBytes]: the canonical (sha256) digest of the bytes. *)
  FromBytes : string -> digest;
  (** [Digest.Validate]: [None] for nil, otherwise the text of the error. *)
  Validate : digest -> option string;
  (** [Digest.Verifier()] fed with the bytes, then [Verified()]. *)
  Verified : digest -> string -> bool;
  (** [getManifestInfo(mediaType, data)] (registry.go is not part of the
      sources): the descriptors a manifest refers to, by kind. *)
  getManifestInfo : string -> string -> res manifestInfo
}.

Section engine.
Context `{!Externals}.

(** Modelled from the spec: CheckDescriptor is not part of the sources.
    With data it verifies the canonical digest and the length against the
    descriptor; in both modes it requires a media type (the message is the
    one writer.go repeats for the non-canonical path). *)
Definition CheckDescriptor (d : Descriptor) (content : option string) : option error :=
  match content with
  | Some b =>
      if negb (String.eqb (FromBytes b) (Digest d)) then
        Some (errorString "digest mismatch")
      else if negb (Size d =? Z.of_nat (String.length b))%Z then
        Some (errorString "size mismatch")
      else if String.eqb (MediaType d) "" then
        Some (errorString "no media type in descriptor")
      else None
  | None =>
      if String.eqb (MediaType d) "" then
        Some (errorString "no media type in descriptor")
      else None
  end.

(** Modelled from the spec: makeRepo is not part of the sources.  It
    rejects a malformed name with NAME_INVALID and otherwise returns the
    repository of that name, creating an empty one on first use.  The
    registry returned is the one in which the repository exists. *)
Definition makeRepo (r : Registry) (repoName : string) : res (Registry * repository) :=
  if ociref.IsValidRepository repoName then
    match repos r !! repoName with
    | Some rp => Ok (r, rp)
    | None => Ok (setRepo r repoName emptyRepository, emptyRepository)
    end
  else Err ErrNameInvalid.

(** Modelled from the spec: repo is not part of the sources.  It looks the
    repository up and fails with NAME_UNKNOWN when there is none. *)
Definition repo (r : Registry) (repoName : string) : res repository :=
  match repos r !! repoName with
  | Some rp => Ok rp
  | None => Err ErrNameUnknown
  end.

(** Modelled from the spec: blobForDigest is not part of the sources. *)
Definition blobForDigest (r : Registry) (repoName : string) (dig : digest) : res blob :=
  match repo r repoName with
  | Err e => Err e
  | Ok rp =>
      match blobs rp !! dig with
      | Some b => Ok b
      | None => Err ErrBlobUnknown
      end
  end.

(** Modelled from the spec: blob.descriptor is not part of the sources. *)
Definition descriptor (b : blob) : Descriptor :=
  mkDescriptor (mediaType b) (FromBytes (data b)) (Z.of_nat (String.length (data b))) None "".

(** *** writer.go *)

(** [PushBlob].  [content] is what [io.ReadAll] gets out of the reader:
    the bytes, or the read error. *)
Definition PushBlob (r : Registry) (repoName : string) (d : Descriptor)
    (content : res string) : Registry * res Descriptor :=
  match content with
  | Err e => (r, Err (Errorf_v "cannot read content: " e))
  | Ok bytes =>
      match CheckDescriptor d (Some bytes) with
      | Some e => (r, Err (Errorf_v "invalid descriptor: " e))
      | None =>
          match makeRepo r repoName with
          | Err e => (r, Err e)
          | Ok (r1, rp) =>
              (setRepo r1 repoName
                 (setBlobs rp (<[Digest d := mkBlob (MediaType d) bytes zeroManifestInfo]> (blobs rp))),
               Ok d)
          end
      end
  end.

(** Modelled from the spec: NewBuffer is not part of the sources.  A
    session starts empty; with an empty id it gets a fresh upload id
    ([fresh] is the id the engine draws). *)
Definition NewBuffer (id fresh : string) : Buffer :=
  mkBuffer (if String.eqb id "" then fresh else id) "" 0.

(** A [BlobWriter] returned by the engine is a pointer to a [Buffer] that
    the repository also holds in [uploads]: it is modelled by the
    repository name and the key of the buffer. *)
Definition BlobWriter : Type := (string * string)%type.

(** [PushBlobChunkedResume].  The buffer is shared with [repo.uploads], so
    the assignment to [b.checkStartOffset] is an update of the stored
    session. *)
Definition PushBlobChunkedResume (r : Registry) (repoName id : string)
    (offset : Z) (chunkSize : Z) (fresh : string) : Registry * res BlobWriter :=
  match makeRepo r repoName with
  | Err e => (r, Err e)
  | Ok (r1, rp) =>
      match uploads rp !! id with
      | Some b =>
          let b' := mkBuffer (uuid b) (buf b) offset in
          (setRepo r1 repoName (setUploads rp (<[id := b']> (uploads rp))),
           Ok (repoName, id))
      | None =>
          let b := NewBuffer id fresh in
          let b' := mkBuffer (uuid b) (buf b) offset in
          (setRepo r1 repoName (setUploads rp (<[uuid b := b']> (uploads rp))),
           Ok (repoName, uuid b))
      end
  end.

(** [PushBlobChunked] *)
Definition PushBlobChunked (r : Registry) (repoName : string) (chunkSize : Z)
    (fresh : string) : Registry * res BlobWriter :=
  PushBlobChunkedResume r repoName "" 0 chunkSize fresh.

(** Modelled from the spec: Buffer.Write is not part of the sources.  A
    write at an offset other than the current size of the session fails
    with the range error; otherwise the bytes are appended and the next
    write is expected at the new size. *)
Definition Write (r : Registry) (w : BlobWriter) (bytes : string) : Registry * res Z :=
  let (repoName, id) := w in
  match repos r !! repoName with
  | None => (r, Err (errorString "upload session not found"))
  | Some rp =>
      match uploads rp !! id with
      | None => (r, Err (errorString "upload session not found"))
      | Some b =>
          if negb (Z.of_nat (String.length (buf b)) =? checkStartOffset b)%Z then
            (r, Err (Errorf_w "invalid offset in resumed upload: " ErrRangeInvalid ""))
          else
            let newBuf := buf b +:+ bytes in
            let b' := mkBuffer (uuid b) newBuf (Z.of_nat (String.length newBuf)) in
            (setRepo r repoName (setUploads rp (<[id := b']> (uploads rp))),
             Ok (Z.of_nat (String.length bytes)))
      end
  end.

(** Modelled from the spec: Buffer.Commit is not part of the sources; it
    verifies the canonical digest of the session and then runs the commit
    callback.  The callback is the closure of [PushBlobChunkedResume]
    (writer.go, lines 553-559): it stores the blob in the repository the
    session was opened in. *)
Definition Commit (r : Registry) (w : BlobWriter) (dig : digest) : Registry * res Descriptor :=
  let (repoName, id) := w in
  match repos r !! repoName with
  | None => (r, Err (errorString "upload session not found"))
  | Some rp =>
      match uploads rp !! id with
      | None => (r, Err (errorString "upload session not found"))
      | Some b =>
          if negb (String.eqb (FromBytes (buf b)) dig) then
            (r, Err (Errorf_w "digest mismatch: " ErrDigestInvalid ""))
          else
            let d := mkDescriptor "application/octet-stream" dig
                       (Z.of_nat (String.length (buf b))) None "" in
            (setRepo r repoName
               (setBlobs rp (<[Digest d := mkBlob (MediaType d) (buf b) zeroManifestInfo]> (blobs rp))),
             Ok d)
      end
  end.

(** [MountBlob] *)
Definition MountBlob (r : Registry) (fromRepo toRepo : string) (dig : digest)
    : Registry * res Descriptor :=
  match makeRepo r toRepo with
  | Err e => (r, Err e)
  | Ok (r1, rto) =>
      match blobForDigest r1 fromRepo dig with
      | Err e => (r1, Err e)
      | Ok b =>
          (setRepo r1 toRepo (setBlobs rto (<[dig := b]> (blobs rto))),
           Ok (descriptor b))
      end
  end.

Definition errCannotOverwriteTag : error :=
  Errorf_w "" ErrDenied ": cannot overwrite tag".

(** The digest [PushManifest] works with (writer.go, lines 592-608): the
    digest of the parameters after validation and verification against
    the bytes, or else the canonical digest of the bytes.  The verifier is
    a hash, its [Write] does not fail. *)
Definition manifestDigest (bytes : string) (params : option PushManifestParameters.t)
    : res digest :=
  match params with
  | Some p =>
      if negb (String.eqb (PushManifestParameters.Digest p) "") then
        match Validate (PushManifestParameters.Digest p) with
        | Some msg => Err (Errorf_w ("invalid digest: " +:+ msg +:+ ": ") ErrDigestInvalid "")
        | None =>
            if negb (Verified (PushManifestParameters.Digest p) bytes) then
              Err (Errorf_w "digest mismatch: " ErrDigestInvalid "")
            else Ok (PushManifestParameters.Digest p)
        end
      else Ok (FromBytes bytes)
  | None => Ok (FromBytes bytes)
  end.

Definition usesCanonicalDigest (params : option PushManifestParameters.t) : bool :=
  match params with
  | None => true
  | Some p => String.eqb (PushManifestParameters.Digest p) ""
  end.

Definition requestedTags (params : option PushManifestParameters.t) : list string :=
  match params with
  | None => []
  | Some p => PushManifestParameters.Tags p
  end.

(** The first loop over the requested tags (writer.go, lines 618-635).
    [Some x] is a [return x] from inside the loop, [None] means the loop
    ran to its end. *)
Fixpoint checkTags (immutable : bool) (rp : repository) (dig : digest)
    (mType : string) (tagList : list string) : option (res Descriptor) :=
  match tagList with
  | [] => None
  | tag :: rest =>
      if negb (ociref.IsValidTag tag) then Some (Err (errorString "invalid tag"))
      else if immutable then
        match tags rp !! tag with
        | Some currDesc =>
            if String.eqb dig (Digest currDesc) then
              if negb (String.eqb (MediaType currDesc) mType) then
                Some (Err (Errorf_w "" ErrDenied ": mismatched media type"))
              else Some (Ok currDesc)
            else Some (Err errCannotOverwriteTag)
        | None => checkTags immutable rp dig mType rest
        end
      else checkTags immutable rp dig mType rest
  end.

(** The loop of [checkManifestReferences] over the descriptors of the
    manifest (writer.go, lines 680-697). *)
Fixpoint checkDescriptors (rp : repository) (ds : list descInfo) : option error :=
  match ds with
  | [] => None
  | i :: rest =>
      match CheckDescriptor (desc i) None with
      | Some e => Some (errorString ("bad descriptor in " +:+ name i +:+ ": " +:+ Error e))
      | None =>
          match kind i with
          | kindBlob =>
              match blobs rp !! Digest (desc i) with
              | None => Some (errorString ("blob for " +:+ name i +:+ " not found"))
              | Some _ => checkDescriptors rp rest
              end
          | kindManifest =>
              match manifests rp !! Digest (desc i) with
              | None => Some (errorString ("manifest for " +:+ name i +:+ " not found"))
              | Some _ => checkDescriptors rp rest
              end
          | kindSubjectManifest => checkDescriptors rp rest
          end
      end
  end.

(** [checkManifestReferences] *)
Definition checkManifestReferences (r : Registry) (repoName mType bytes : string)
    : res manifestInfo :=
  match getManifestInfo mType bytes with
  | Err e => Err e
  | Ok minfo =>
      if LaxChildReferences (cfg r) then Ok minfo
      else
        match repo r repoName with
        | Err e => Err e
        | Ok rp =>
            match checkDescriptors rp (descriptors minfo) with
            | Some e => Err e
            | None => Ok minfo
            end
        end
  end.

(** The second loop over the requested tags (writer.go, lines 661-663). *)
Definition applyTags (t : gmap string Descriptor) (tagList : list string)
    (d : Descriptor) : gmap string Descriptor :=
  fold_left (fun acc tag => <[tag := d]> acc) tagList t.

(** [PushManifest] *)
Definition PushManifest (r : Registry) (repoName : string) (bytes : string)
    (mType : string) (params : option PushManifestParameters.t)
    : Registry * res Descriptor :=
  match makeRepo r repoName with
  | Err e => (r, Err e)
  | Ok (r1, rp) =>
      match manifestDigest bytes params with
      | Err e => (r1, Err e)
      | Ok dig =>
          let d := mkDescriptor mType dig (Z.of_nat (String.length bytes)) None "" in
          let tagList := requestedTags params in
          match checkTags (ImmutableTags (cfg r1)) rp dig mType tagList with
          | Some x => (r1, x)
          | None =>
              let descErr :=
                if usesCanonicalDigest params then
                  match CheckDescriptor d (Some bytes) with
                  | Some e => Some (Errorf_v "invalid descriptor: " e)
                  | None => None
                  end
                else if String.eqb (MediaType d) "" then
                  Some (errorString "invalid descriptor: no media type in descriptor")
                else None in
              match descErr with
              | Some e => (r1, Err e)
              | None =>
                  match checkManifestReferences r1 repoName (MediaType d) bytes with
                  | Err e => (r1, Err (Errorf_v "invalid manifest: " e))
                  | Ok minfo =>
                      (setRepo r1 repoName
                         (setTags
                            (setManifests rp (<[dig := mkBlob mType bytes minfo]> (manifests rp)))
                            (applyTags (tags rp) tagList d)),
                       Ok d)
                  end
              end
          end
      end
  end.

(** Modelled from the spec: ResolveTag is not part of the sources; it
    gives the descriptor a tag maps to (section 4.2). *)
Definition ResolveTag (r : Registry) (repoName tagName : string) : res Descriptor :=
  match repo r repoName with
  | Err e => Err e
  | Ok rp =>
      match tags rp !! tagName with
      | Some d => Ok d
      | None => Err ErrManifestUnknown
      end
  end.

(** *** The remaining state-changing operations of the interface *)

(** Modelled from the spec: the deleter methods are not part of the
    sources.  A delete removes the entry if present and leaves whatever
    refers to it in place (section 4.3, Delete). *)
Definition DeleteBlob (r : Registry) (repoName : string) (dig : digest)
    : Registry * option error :=
  match repo r repoName with
  | Err e => (r, Some e)
  | Ok rp => (setRepo r repoName (setBlobs rp (delete dig (blobs rp))), None)
  end.

(** Modelled from the spec: the deleter is not part of the sources.  The
    manifest is removed if present (section 4.3, Delete), and with it go
    the tags that name it, since a tag never points to an absent manifest
    (section 3, invariants).  What other manifests say about the removed
    one is left in place. *)
Definition DeleteManifest (r : Registry) (repoName : string) (dig : digest)
    : Registry * option error :=
  match repo r repoName with
  | Err e => (r, Some e)
  | Ok rp =>
      (setRepo r repoName
         (setTags (setManifests rp (delete dig (manifests rp)))
            (filter (fun kv => Digest (snd kv) <> dig) (tags rp))),
       None)
  end.

(** Modelled from the spec: see [DeleteBlob]. *)
Definition DeleteTag (r : Registry) (repoName : string) (tagName : string)
    : Registry * option error :=
  match repo r repoName with
  | Err e => (r, Some e)
  | Ok rp => (setRepo r repoName (setTags rp (delete tagName (tags rp))), None)
  end.

(** One call of a state-changing operation of the engine, with its
    arguments.  The reading operations (get, resolve, list) do not change
    the registry and are left out. *)
Inductive op : Type :=
| opPushBlob (repoName : string) (d : Descriptor) (content : res string)
| opPushBlobChunked (repoName : string) (chunkSize : Z) (fresh : string)
| opPushBlobChunkedResume (repoName id : string) (offset chunkSize : Z) (fresh : string)
| opWrite (w : BlobWriter) (bytes : string)
| opCommit (w : BlobWriter) (dig : digest)
| opMountBlob (fromRepo toRepo : string) (dig : digest)
| opPushManifest (repoName bytes mType : string) (params : option PushManifestParameters.t)
| opDeleteBlob (repoName : string) (dig : digest)
| opDeleteManifest (repoName : string) (dig : digest)
| opDeleteTag (repoName tagName : string).

(** The registry after the call. *)
Definition exec (r : Registry) (o : op) : Registry :=
  match o with
  | opPushBlob repoName d content => fst (PushBlob r repoName d content)
  | opPushBlobChunked repoName chunkSize fresh =>
      fst (PushBlobChunked r repoName chunkSize fresh)
  | opPushBlobChunkedResume repoName id offset chunkSize fresh =>
      fst (PushBlobChunkedResume r repoName id offset chunkSize fresh)
  | opWrite w bytes => fst (Write r w bytes)
  | opCommit w dig => fst (Commit r w dig)
  | opMountBlob fromRepo toRepo dig => fst (MountBlob r fromRepo toRepo dig)
  | opPushManifest repoName bytes mType params =>
      fst (PushManifest r repoName bytes mType params)
  | opDeleteBlob repoName dig => fst (DeleteBlob r repoName dig)
  | opDeleteManifest repoName dig => fst (DeleteManifest r repoName dig)
  | opDeleteTag repoName tagName => fst (DeleteTag r repoName tagName)
  end.

(** The registry after a sequence of calls. *)
Definition run (r : Registry) (ops : list op) : Registry := fold_left exec ops r.

(** Every tag of every repository names a stored manifest. *)
Definition tagsResolve (r : Registry) : Prop :=
  forall repoName rp tag d,
    repos r !! repoName = Some rp ->
    tags rp !! tag = Some d ->
    is_Some (manifests rp !! Digest d).

(** The same for one repository. *)
Definition repoResolves (rp : repository) : Prop :=
  forall tag d, tags rp !! tag = Some d -> is_Some (manifests rp !! Digest d).

(** The repository a call on [repoName] works on: the stored one, or the
    empty repository that [makeRepo] creates on first use. *)
Definition repoAt (r : Registry) (repoName : string) : repository :=
  default emptyRepository (repos r !! repoName).

(** A descriptor referenced from a manifest resolves in a repository: a
    blob is in [blobs], a manifest is in [manifests]; nothing is asked of
    a subject. *)
Definition resolves (rp : repository) (i : descInfo) : Prop :=
  match kind i with
  | kindBlob => is_Some (blobs rp !! Digest (desc i))
  | kindManifest => is_Some (manifests rp !! Digest (desc i))
  | kindSubjectManifest => True
  end.

(** *** refersTo *)

(** The loop of [refersTo] over the items of one iterator (writer.go,
    lines 706-726).  [rec] is the recursive call on the descriptors of a
    stored manifest; [None] stands for a call that has not returned.  The
    [break] of line 714 leaves the switch, so the loop goes on with the
    next item. *)
Fixpoint refersToItems (rec : list descInfo -> option (res bool)) (rp : repository)
    (items : list descInfo) (dig : digest) : option (res bool) :=
  match items with
  | [] => Some (Ok false)
  | i :: rest =>
      if String.eqb (Digest (desc i)) dig then Some (Ok true)
      else
        match kind i with
        | kindBlob => refersToItems rec rp rest dig
        | kindManifest | kindSubjectManifest =>
            match manifests rp !! Digest (desc i) with
            | None => refersToItems rec rp rest dig
            | Some b =>
                match getManifestInfo (MediaType (desc i)) (data b) with
                | Err e => Some (Err e)
                | Ok minfo =>
                    match rec (descriptors minfo) with
                    | None => None
                    | Some (Err e) => Some (Err e)
                    | Some (Ok true) => Some (Ok true)
                    | Some (Ok false) => refersToItems rec rp rest dig
                    end
                end
            end
        end
  end.

(** [refersTo].  The recursion goes through the manifests stored in the
    repository and is not structural: [depth] bounds the nesting of the
    calls, and the result is [None] when the bound is reached before the
    call returns. *)
Fixpoint refersTo (depth : nat) (rp : repository) (iter : list descInfo) (dig : digest)
    : option (res bool) :=
  match depth with
  | O => None
  | S n => refersToItems (fun ds => refersTo n rp ds dig) rp iter dig
  end.

(** The items of an iterator refer to a digest: one of them has it, or
    one of them names a stored manifest whose descriptors refer to it. *)
Inductive refers (rp : repository) (dig : digest) : list descInfo -> Prop :=
| refers_direct i items :
    In i items -> Digest (desc i) = dig -> refers rp dig items
| refers_through i items b minfo :
    In i items ->
    kind i <> kindBlob ->
    manifests rp !! Digest (desc i) = Some b ->
    getManifestInfo (MediaType (desc i)) (data b) = Ok minfo ->
    refers rp dig (descriptors minfo) ->
    refers rp dig items.

(** The manifests that the items lead to nest at most [n] deep: a
    manifest or subject item whose manifest is stored and readable has
    descriptors that nest at most [n - 1] deep, and with [n = 0] there is
    no such item. *)
Fixpoint nests (n : nat) (rp : repository) (items : list descInfo) : Prop :=
  match n with
  | O =>
      Forall (fun i =>
        forall b minfo,
          kind i <> kindBlob ->
          manifests rp !! Digest (desc i) = Some b ->
          getManifestInfo (MediaType (desc i)) (data b) = Ok minfo ->
          False) items
  | S m =>
      Forall (fun i =>
        forall b minfo,
          kind i <> kindBlob ->
          manifests rp !! Digest (desc i) = Some b ->
          getManifestInfo (MediaType (desc i)) (data b) = Ok minfo ->
          nests m rp (descriptors minfo)) items
  end.

(** The repository a state-changing call is made on (the destination, for
    a mount). *)
Definition opRepo (o : op) : string :=
  match o with
  | opPushBlob repoName _ _ => repoName
  | opPushBlobChunked repoName _ _ => repoName
  | opPushBlobChunkedResume repoName _ _ _ _ => repoName
  | opWrite w _ => fst w
  | opCommit w _ => fst w
  | opMountBlob _ toRepo _ => toRepo
  | opPushManifest repoName _ _ _ => repoName
  | opDeleteBlob repoName _ => repoName
  | opDeleteManifest repoName _ => repoName
  | opDeleteTag repoName _ => repoName
  end.

End engine.
End ocimem.

(** ** Package ocifilter: the immutable filter *)
Module ocifilter.
Import ociregistry.

Section immutable.
(** The wrapped registry [r.Interface]: its state and the two methods the
    filter calls. *)
Context {S : Type}.
Context (FromBytes : string -> digest).
Context (innerResolveTag : S -> string -> string -> result error Descriptor).
Context (innerPushManifest :
  S -> string -> string -> string -> option PushManifestParameters.t ->
  S * result error Descriptor).

Definition errImmutable : error := Errorf_w "this store is immutable: " ErrDenied "".

(** The loop before the push (immutable.go, lines 49-57): a tag that
    resolves to the pushed digest is passed over with [continue]. *)
Fixpoint tagsUnchanged (st : S) (repo : string) (dig : digest) (tagList : list string)
    : option error :=
  match tagList with
  | [] => None
  | tag :: rest =>
      match innerResolveTag st repo tag with
      | Ok d =>
          if String.eqb (Digest d) dig then tagsUnchanged st repo dig rest
          else Some errImmutable
      | Err _ => tagsUnchanged st repo dig rest
      end
  end.

(** The loop after the push (lines 65-73). *)
Fixpoint tagsPushed (st : S) (repo : string) (dig : digest) (tagList : list string)
    : option error :=
  match tagList with
  | [] => None
  | tag :: rest =>
      match innerResolveTag st repo tag with
      | Err e =>
          Some (errorString ("cannot resolve tag " +:+ quote tag +:+
                             " that's just been pushed: " +:+ Error e))
      | Ok d =>
          if negb (String.eqb (Digest d) dig) then Some errImmutable
          else tagsPushed st repo dig rest
      end
  end.

(** [immutable.PushManifest] *)
Definition PushManifest (st : S) (repo contents mediaType : string)
    (params : option PushManifestParameters.t) : S * result error Descriptor :=
  let tagList :=
    match params with Some p => PushManifestParameters.Tags p | None => [] end in
  match tagList with
  | [] => innerPushManifest st repo contents mediaType params
  | _ :: _ =>
      let dig :=
        match params with
        | Some p =>
            if negb (String.eqb (PushManifestParameters.Digest p) "")
            then PushManifestParameters.Digest p
            else FromBytes contents
        | None => FromBytes contents
        end in
      match tagsUnchanged st repo dig tagList with
      | Some e => (st, Err e)
      | None =>
          match innerPushManifest st repo contents mediaType params with
          | (st', Err e) => (st', Err e)
          | (st', Ok d) =>
              match tagsPushed st' repo dig tagList with
              | Some e => (st', Err e)
              | None => (st', Ok d)
              end
          end
      end
  end.

(** The digest the filter compares the tags with (immutable.go, lines
    46-51): the digest of the parameters when there is one, or else the
    canonical digest of the contents. *)
Definition requestDigest (contents : string) (params : option PushManifestParameters.t)
    : digest :=
  match params with
  | Some p =>
      if negb (String.eqb (PushManifestParameters.Digest p) "")
      then PushManifestParameters.Digest p
      else FromBytes contents
  | None => FromBytes contents
  end.

(** [immutable.DeleteBlob], [immutable.DeleteManifest] and
    [immutable.DeleteTag] (lines 82-92): the wrapped registry is not
    called. *)
Definition DeleteBlob (st : S) (repo : string) (dig : digest) : S * option error :=
  (st, Some ErrDenied).

Definition DeleteManifest (st : S) (repo : string) (dig : digest) : S * option error :=
  (st, Some ErrDenied).

Definition DeleteTag (st : S) (repo : string) (name : string) : S * option error :=
  (st, Some ErrDenied).

End immutable.
End ocifilter.

(** ** The immutable filter over the in-memory engine:
    [ocifilter.Immutable(ocimem.NewWithConfig(cfg))] *)
Module immutable_engine.
Import ociregistry ocimem.

Section wrapped.
Context `{!Externals}.

(** The four methods that [immutable] defines; every other method is the
    one of the embedded engine. *)
Definition PushManifest (r : Registry) (repoName contents mType : string)
    (params : option PushManifestParameters.t) : Registry * res Descriptor :=
  ocifilter.PushManifest FromBytes ResolveTag ocimem.PushManifest
    r repoName contents mType params.

Definition DeleteBlob (r : Registry) (repoName : string) (dig : digest)
    : Registry * option error :=
  ocifilter.DeleteBlob r repoName dig.

Definition DeleteManifest (r : Registry) (repoName : string) (dig : digest)
    : Registry * option error :=
  ocifilter.DeleteManifest r repoName dig.

Definition DeleteTag (r : Registry) (repoName tagName : string) : Registry * option error :=
  ocifilter.DeleteTag r repoName tagName.

(** The registry after one call made through the filter. *)
Definition exec (r : Registry) (o : op) : Registry :=
  match o with
  | opPushManifest repoName bytes mType params =>
      fst (PushManifest r repoName bytes mType params)
  | opDeleteBlob repoName dig => fst (DeleteBlob r repoName dig)
  | opDeleteManifest repoName dig => fst (DeleteManifest r repoName dig)
  | opDeleteTag repoName tagName => fst (DeleteTag r repoName tagName)
  | _ => ocimem.exec r o
  end.

Definition run (r : Registry) (ops : list op) : Registry := fold_left exec ops r.

(** What a repository holds is still there in another: every tag with the
    digest it had, every manifest and every blob under its digest. *)
Definition repoKept (rp rp' : repository) : Prop :=
  (forall tag d, tags rp !! tag = Some d ->
     exists d', tags rp' !! tag = Some d' /\ Digest d' = Digest d) /\
  (forall k, is_Some (manifests rp !! k) -> is_Some (manifests rp' !! k)) /\
  (forall k, is_Some (blobs rp !! k) -> is_Some (blobs rp' !! k)).

(** The same for every repository of a registry. *)
Definition kept (r r' : Registry) : Prop :=
  forall repoName rp,
    repos r !! repoName = Some rp ->
    exists rp', repos r' !! repoName = Some rp' /\ repoKept rp rp'.

End wrapped.
End immutable_engine.

(** ** Package ociclient: the referrers fallback tag *)
Module ociclient.
Import ociregistry.

(** [strings.Cut(s, ":")]: the text before the first colon and the text
    after it. *)
Fixpoint cutColon (s : string) : string * string :=
  match s with
  | EmptyString => (EmptyString, EmptyString)
  | String c rest =>
      if Ascii.eqb c ":" then (EmptyString, rest)
      else let (before, after) := cutColon rest in (String c before, after)
  end.

Definition truncate (n : nat) (s : string) : string := String.substring 0 n s.

Fixpoint mapChars (f : ascii -> ascii) (s : string) : string :=
  match s with
  | EmptyString => EmptyString
  | String c rest => String (f c) (mapChars f rest)
  end.

(** The rows of [referrersTagTests] (the referrers tag test of the
    sources); [longRow] is the third. *)
Definition longRow : digest * string :=
  ("test+algorithm+using+algorithm+separators+and+lots+of+characters+to+excercise+overall+truncation:alsoSome=InTheEncodedSectionToShowHyphenReplacementAndLotsAndLotsOfCharactersToExcerciseEncodedTruncation",
   "test-algorithm-using-algorithm-s-alsoSome-InTheEncodedSectionToShowHyphenReplacementAndLotsAndLot").

Definition referrersTagTests : list (digest * string) := [
  ("sha256:aaaaaaaaaaaaaaaaaaaaaaaaaaaaaaaaaaaaaaaaaaaaaaaaaaaaaaaaaaaaaaaa",
   "sha256-aaaaaaaaaaaaaaaaaaaaaaaaaaaaaaaaaaaaaaaaaaaaaaaaaaaaaaaaaaaaaaaa");
  ("sha512:aaaaaaaaaaaaaaaaaaaaaaaaaaaaaaaaaaaaaaaaaaaaaaaaaaaaaaaaaaaaaaaaaaaaaaaaaaaaaaaaaaaaaaaaaaaaaaaaaaaaaaaaaaaaaaaaaaaaaaaaaaaaaaaa",
   "sha512-aaaaaaaaaaaaaaaaaaaaaaaaaaaaaaaaaaaaaaaaaaaaaaaaaaaaaaaaaaaaaaaa");
  longRow
].

Definition plusToHyphen (c : ascii) : ascii :=
  if Ascii.eqb c "+" then "-"%char else c.

(** Modelled from the spec: referrersTag is not part of the sources.  This
    is the tag as the spec words it: the digest with the colon replaced by
    a hyphen, the algorithm cut to 64 characters with its plus signs
    turned into hyphens, the encoded part cut to 64 characters. *)
Definition referrersTagAsSpecified (d : digest) : string :=
  let (alg, enc) := cutColon d in
  mapChars plusToHyphen (truncate 64 alg) +:+ "-" +:+ truncate 64 enc.

(** A character that cannot occur in a tag becomes a hyphen. *)
Definition tagSafe (c : ascii) : ascii :=
  if ociref.isTagChar c then c else "-"%char.

(** Modelled from the spec: referrersTag is not part of the sources.  This
    is the tag as the rows of [referrersTagTests] have it: the algorithm is
    cut to 32 characters, the encoded part to 64, and in both parts every
    character that a tag cannot hold becomes a hyphen. *)
Definition referrersTag (d : digest) : string :=
  let (alg, enc) := cutColon d in
  mapChars tagSafe (truncate 32 alg) +:+ "-" +:+ mapChars tagSafe (truncate 64 enc).

Fixpoint hasColon (s : string) : bool :=
  match s with
  | EmptyString => false
  | String c rest => Ascii.eqb c ":" || hasColon rest
  end.

End ociclient.

(** ** Package ociauth: entries of the docker configuration *)
Module ociauth.
Import ociregistry.

Record ConfigEntry : Type := mkConfigEntry {
  RefreshToken : string;
  AccessToken : string;
  Username : string;
  Password : string
}.

Definition zeroConfigEntry : ConfigEntry := mkConfigEntry "" "" "" "".

(** The configuration file after loading: [auths] with the [auth] field of
    each entry already decoded, [credsStore] and [credHelpers]. *)
Record Config : Type := mkConfig {
  auths : gmap string ConfigEntry;
  credsStore : string;
  credHelpers : gmap string string
}.

(** [HelperRunner]: the helper name and the server give an entry or an
    error. *)
Definition HelperRunner : Type := string -> string -> result error ConfigEntry.

(** Modelled from the spec: the error of a helper whose executable is
    missing. *)
Definition ErrHelperNotFound : error := errorString "helper not found".

Fixpoint isHelperNotFound (e : error) : bool :=
  match e with
  | errorString msg => String.eqb msg "helper not found"
  | ociError _ _ _ => false
  | wrapError _ inner _ => isHelperNotFound inner
  | httpError _ inner => isHelperNotFound inner
  end.

(** The index of the first occurrence of "//" in a key, if any. *)
Fixpoint afterSlashes (s : string) : option string :=
  match s with
  | String "/" (String "/" rest) => Some rest
  | String _ rest => afterSlashes rest
  | EmptyString => None
  end.

Fixpoint untilSlash (s : string) : string :=
  match s with
  | EmptyString => EmptyString
  | String c rest => if Ascii.eqb c "/" then EmptyString else String c (untilSlash rest)
  end.

(** Modelled from the spec: a key in URL form, with scheme and path
    stripped; [None] for a key that is not in URL form. *)
Definition urlHost (key : string) : option string :=
  match afterSlashes key with
  | Some rest => Some (untilSlash rest)
  | None => None
  end.

Fixpoint insertSorted (k : string) (ks : list string) : list string :=
  match ks with
  | [] => [k]
  | x :: rest => if String.leb k x then k :: ks else x :: insertSorted k rest
  end.

(** [slices.Sort] on strings. *)
Definition sortStrings (ks : list string) : list string := fold_right insertSorted [] ks.

Fixpoint joinStrings (sep : string) (ks : list string) : string :=
  match ks with
  | [] => ""
  | [k] => k
  | k :: rest => k +:+ sep +:+ joinStrings sep rest
  end.

(** The keys of [auths] in URL form whose host is [host]. *)
Definition urlKeysFor (c : Config) (host : string) : list string :=
  sortStrings
    (filter (fun k => urlHost k = Some host) (map fst (map_to_list (auths c)))).

Definition errAmbiguous (host : string) (keys : list string) : error :=
  errorString ("more than one auths entry for " +:+ quote host +:+
               " (" +:+ joinStrings ", " keys +:+ ")").

(** Modelled from the spec: the lookup in [auths] (section 4.6, key
    matching).  An exact key wins; otherwise the URL-form keys that resolve
    to the host are considered: none gives the empty entry, one gives its
    entry, several give an error that lists them. *)
Definition authsEntry (c : Config) (host : string) : result error ConfigEntry :=
  match auths c !! host with
  | Some e => Ok e
  | None =>
      match urlKeysFor c host with
      | [] => Ok zeroConfigEntry
      | [k] => Ok (default zeroConfigEntry (auths c !! k))
      | keys => Err (errAmbiguous host keys)
      end
  end.

(** The helper that applies to a host: the one of [credHelpers], else the
    default store; the empty string when there is none. *)
Definition helperFor (c : Config) (host : string) : string :=
  match credHelpers c !! host with
  | Some h => h
  | None => credsStore c
  end.

(** Modelled from the spec: EntryForRegistry is not part of the sources
    (section 4.6).  A helper that applies to the host is asked first; its
    answer, entry or error, is the result, except that a missing executable
    of the default store is ignored.  Without a helper, or after that
    fallback, the entry comes from [auths]. *)
Definition EntryForRegistry (c : Config) (runner : HelperRunner) (host : string)
    : result error ConfigEntry :=
  if String.eqb (helperFor c host) "" then authsEntry c host
  else
    match runner (helperFor c host) host with
    | Ok e => Ok e
    | Err e =>
        if isHelperNotFound e && negb (bool_decide (is_Some (credHelpers c !! host)))
        then authsEntry c host
        else Err e
    end.

(** [noRunner] of the tests panics; no test that uses it reaches it. *)
Definition noRunner : HelperRunner := fun _ _ => Err (errorString "no helpers available").

End ociauth.

(** ** Package ocibuilder *)
Module ocibuilder.
Import ociregistry.

(** [ManifestOrIndex] (manifest.go).  [Config] and [Subject] are pointers,
    [Annotations] is a map: [None] is nil. *)
Record ManifestOrIndex : Type := mkManifestOrIndex {
  SchemaVersion : Z;
  mMediaType : string;
  mArtifactType : string;
  Manifests : list Descriptor;
  Config : option Descriptor;
  Layers : list Descriptor;
  Subject : option Descriptor;
  mAnnotations : option (gmap string string)
}.

(** The part of [ociregistry.Interface] that the builder calls.  The
    client is a state machine of its own: [W] is the state of the chunked
    writer it hands out. *)
Class Client : Type := {
  W : Type;
  (** [PushBlobChunked(ctx, repo, chunkSize)]; the writer is nil on error. *)
  clientPushBlobChunked : string -> Z -> option W * option error;
  (** [bw.Write(p)] *)
  writerWrite : W -> string -> W * option error;
  (** [bw.Commit(digest)] *)
  writerCommit : W -> digest -> Descriptor * option error;
  (** [digest.Canonical] over all the bytes hashed. *)
  canonicalDigest : string -> digest
}.

Section builder.
Context `{Client}.

Record ImageBuilder : Type := mkImageBuilder {
  repository : string;
  manifest : ManifestOrIndex
}.

Definition setManifest (ib : ImageBuilder) (m : ManifestOrIndex) : ImageBuilder :=
  mkImageBuilder (repository ib) m.

(** [New] *)
Definition New (repo : string) : ImageBuilder :=
  mkImageBuilder repo
    (mkManifestOrIndex 2 "application/vnd.oci.image.manifest.v1+json" "" [] None [] None None).

(** [SetArtifactType] *)
Definition SetArtifactType (ib : ImageBuilder) (artifactType : string) : ImageBuilder :=
  let m := manifest ib in
  setManifest ib
    (mkManifestOrIndex (SchemaVersion m) (mMediaType m) artifactType (Manifests m)
       (Config m) (Layers m) (Subject m) (mAnnotations m)).

(** [SetSubject] *)
Definition SetSubject (ib : ImageBuilder) (subject : option Descriptor) : ImageBuilder :=
  let m := manifest ib in
  setManifest ib
    (mkManifestOrIndex (SchemaVersion m) (mMediaType m) (mArtifactType m) (Manifests m)
       (Config m) (Layers m) subject (mAnnotations m)).

(** [SetConfig] *)
Definition SetConfig (ib : ImageBuilder) (config : Descriptor) : ImageBuilder * option error :=
  let m := manifest ib in
  if (0 <? length (Manifests m))%nat then
    (ib, Some (errorString "cannot set config on index manifest"))
  else
    (setManifest ib
       (mkManifestOrIndex (SchemaVersion m) (mMediaType m) (mArtifactType m) (Manifests m)
          (Some config) (Layers m) (Subject m) (mAnnotations m)),
     None).

(** [AddLayer] *)
Definition AddLayer (ib : ImageBuilder) (layer : Descriptor) : ImageBuilder * option error :=
  let m := manifest ib in
  if (0 <? length (Manifests m))%nat then
    (ib, Some (errorString "cannot add layers to an index manifest"))
  else
    (setManifest ib
       (mkManifestOrIndex (SchemaVersion m) (mMediaType m) (mArtifactType m) (Manifests m)
          (Config m) (Layers m ++ [layer]) (Subject m) (mAnnotations m)),
     None).

(** [AddManifest] *)
Definition AddManifest (ib : ImageBuilder) (d : Descriptor) : ImageBuilder * option error :=
  let m := manifest ib in
  if (0 <? length (Layers m))%nat then
    (ib, Some (errorString "cannot add manifest to an manifest"))
  else
    (setManifest ib
       (mkManifestOrIndex (SchemaVersion m) "application/vnd.oci.image.index.v1+json"
          (mArtifactType m) (Manifests m ++ [d]) (Config m) (Layers m) (Subject m)
          (mAnnotations m)),
     None).

(** [m[k] = v] on a Go map: a panic on the nil map. *)
Definition mapAssign (m : option (gmap string string)) (k v : string)
    : outcome (option (gmap string string)) :=
  match m with
  | None => Panics "assignment to entry in nil map"
  | Some entries => Returns (Some (<[k := v]> entries))
  end.

(** [AddAnnotation] *)
Definition AddAnnotation (ib : ImageBuilder) (key value : string) : outcome ImageBuilder :=
  let m := manifest ib in
  match mapAssign (mAnnotations m) key value with
  | Panics reason => Panics reason
  | Returns a =>
      Returns (setManifest ib
                 (mkManifestOrIndex (SchemaVersion m) (mMediaType m) (mArtifactType m)
                    (Manifests m) (Config m) (Layers m) (Subject m) a))
  end.

(** The three attempts at writing one chunk (imagebuilder.go, lines
    69-74): the writer after the attempts and the error of the last one. *)
Fixpoint writeChunk (attempts : nat) (bw : W) (chunk : string) : W * option error :=
  match attempts with
  | O => (bw, None)
  | S n =>
      match writerWrite bw chunk with
      | (bw', None) => (bw', None)
      | (bw', Some e) =>
          match n with
          | O => (bw', Some e)
          | S _ => writeChunk n bw' chunk
          end
      end
  end.

(** The read loop of [PushLayer].  [chunks] are the results of the calls
    of [io.ReadFull] before the one that reports [io.EOF]: each is what was
    read into the buffer.  The result is the writer and all the bytes
    hashed, or the error of a chunk that could not be written. *)
Fixpoint pushChunks (bw : W) (hashed : string) (chunks : list string)
    : result error (W * string) :=
  match chunks with
  | [] => Ok (bw, hashed)
  | chunk :: rest =>
      match writeChunk 3 bw chunk with
      | (bw', None) => pushChunks bw' (hashed +:+ chunk) rest
      | (_, Some e) => Err (Errorf_w "writing chunk: " e "")
      end
  end.

(** The loop over the annotations argument (lines 85-87): one assignment
    per entry into [desc.Annotations]. *)
Fixpoint assignAll (m : option (gmap string string)) (entries : list (string * string))
    : outcome (option (gmap string string)) :=
  match entries with
  | [] => Returns m
  | (k, v) :: rest =>
      match mapAssign m k v with
      | Panics reason => Panics reason
      | Returns m' => assignAll m' rest
      end
  end.

Definition CHUNK_SIZE : Z := 100 * 1024 * 1024.

(** [PushLayer], for a builder with a client and a reader that is not
    nil ([PushLayerCall] below has the nil cases).  The reader is given by
    the chunks it yields; the annotations map by its entries in iteration
    order.  The error of [PushBlobChunked] is discarded, so a nil writer
    is used as it is: the first method call on it panics. *)
Definition PushLayer (ib : ImageBuilder) (mediaType : string) (chunks : list string)
    (annotations : gmap string string) : outcome (ImageBuilder * option error) :=
  match fst (clientPushBlobChunked (repository ib) CHUNK_SIZE) with
  | None => Panics "invalid memory address or nil pointer dereference"
  | Some bw =>
      match pushChunks bw "" chunks with
      | Err e => Returns (ib, Some e)
      | Ok (bw', hashed) =>
          match writerCommit bw' (canonicalDigest hashed) with
          | (_, Some e) => Returns (ib, Some (Errorf_w "committing chunk: " e ""))
          | (d, None) =>
              let d1 := mkDescriptor mediaType (Digest d) (Size d) (Annotations d)
                          (ArtifactType d) in
              match assignAll (Annotations d1) (map_to_list annotations) with
              | Panics reason => Panics reason
              | Returns a =>
                  Returns (AddLayer ib
                             (mkDescriptor (MediaType d1) (Digest d1) (Size d1) a
                                (ArtifactType d1)))
              end
          end
      end
  end.

(** [PushLayer] with the values Go passes: the receiver is a pointer and
    may be nil, its [client] field and the [reader] argument are interface
    values and may be nil.  [receiver] is [None] for a nil builder and
    otherwise tells whether the builder has a client; [reader] is [None]
    for a nil reader.  The deferred [reader.Close()] is evaluated first
    (line 56) and panics on a nil reader; [ib.client.PushBlobChunked]
    (line 58) panics on a nil builder and on a nil client.  With neither
    nil the call is [PushLayer] above. *)
Definition PushLayerCall (receiver : option (bool * ImageBuilder)) (mediaType : string)
    (reader : option (list string)) (annotations : gmap string string)
    : outcome (ImageBuilder * option error) :=
  match reader with
  | None => Panics "invalid memory address or nil pointer dereference"
  | Some chunks =>
      match receiver with
      | None => Panics "invalid memory address or nil pointer dereference"
      | Some (false, _) => Panics "invalid memory address or nil pointer dereference"
      | Some (true, ib) => PushLayer ib mediaType chunks annotations
      end
  end.

(** The calls that change a builder. *)
Inductive call : Type :=
| callSetArtifactType (artifactType : string)
| callSetSubject (subject : option Descriptor)
| callSetConfig (config : Descriptor)
| callAddLayer (layer : Descriptor)
| callAddManifest (d : Descriptor)
| callAddAnnotation (key value : string)
| callPushLayer (mediaType : string) (chunks : list string) (annotations : gmap string string).

(** The builder after a call that returned; [None] when the call
    panicked. *)
Definition after (ib : ImageBuilder) (c : call) : option ImageBuilder :=
  match c with
  | callSetArtifactType a => Some (SetArtifactType ib a)
  | callSetSubject s => Some (SetSubject ib s)
  | callSetConfig d => Some (fst (SetConfig ib d))
  | callAddLayer d => Some (fst (AddLayer ib d))
  | callAddManifest d => Some (fst (AddManifest ib d))
  | callAddAnnotation key value =>
      match AddAnnotation ib key value with
      | Returns ib' => Some ib'
      | Panics _ => None
      end
  | callPushLayer mt chunks ann =>
      match PushLayer ib mt chunks ann with
      | Returns (ib', _) => Some ib'
      | Panics _ => None
      end
  end.

Fixpoint afterAll (ib : ImageBuilder) (cs : list call) : option ImageBuilder :=
  match cs with
  | [] => Some ib
  | c :: rest =>
      match after ib c with
      | Some ib' => afterAll ib' rest
      | None => None
      end
  end.

End builder.
End ocibuilder.

(** ** SHA-256 (FIPS 180-4)

    The canonical digest algorithm of go-digest.  The engine is verified
    for any digest function; this one instantiates it in the examples. *)
Module sha256.
Local Open Scope N_scope.

Definition w32 (x : N) : N := N.land x 4294967295.
Definition add32 (x y : N) : N := w32 (x + y).
Definition rotr (n x : N) : N := N.lor (N.shiftr x n) (w32 (N.shiftl x (32 - n))).
Definition Ch (x y z : N) : N := N.lxor (N.land x y) (N.land (N.lxor x 4294967295) z).
Definition Maj (x y z : N) : N := N.lxor (N.lxor (N.land x y) (N.land x z)) (N.land y z).
Definition Sigma0 (x : N) : N := N.lxor (N.lxor (rotr 2 x) (rotr 13 x)) (rotr 22 x).
Definition Sigma1 (x : N) : N := N.lxor (N.lxor (rotr 6 x) (rotr 11 x)) (rotr 25 x).
Definition sigma0 (x : N) : N := N.lxor (N.lxor (rotr 7 x) (rotr 18 x)) (N.shiftr x 3).
Definition sigma1 (x : N) : N := N.lxor (N.lxor (rotr 17 x) (rotr 19 x)) (N.shiftr x 10).

(** The round constants: the first 32 bits of the fractional parts of the
    cube roots of the first 64 primes. *)
Definition K : list N :=
  [
   1116352408; 1899447441; 3049323471; 3921009573;
   961987163; 1508970993; 2453635748; 2870763221;
   3624381080; 310598401; 607225278; 1426881987;
   1925078388; 2162078206; 2614888103; 3248222580;
   3835390401; 4022224774; 264347078; 604807628;
   770255983; 1249150122; 1555081692; 1996064986;
   2554220882; 2821834349; 2952996808; 3210313671;
   3336571891; 3584528711; 113926993; 338241895;
   666307205; 773529912; 1294757372; 1396182291;
   1695183700; 1986661051; 2177026350; 2456956037;
   2730485921; 2820302411; 3259730800; 3345764771;
   3516065817; 3600352804; 4094571909; 275423344;
   430227734; 506948616; 659060556; 883997877;
   958139571; 1322822218; 1537002063; 1747873779;
   1955562222; 2024104815; 2227730452; 2361852424;
   2428436474; 2756734187; 3204031479; 3329325298
  ].

(** The initial hash value: the same for the square roots of the first 8
    primes. *)
Definition H0 : list N :=
  [
   1779033703; 3144134277; 1013904242; 2773480762;
   1359893119; 2600822924; 528734635; 1541459225
  ].

(** The message schedule, newest word first. *)
Fixpoint extend (n : nat) (w : list N) : list N :=
  match n with
  | O => w
  | S n' =>
      match w with
      | w1 :: w2 :: w3 :: w4 :: w5 :: w6 :: w7 :: w8 :: w9 :: w10 :: w11 :: w12 :: w13 :: w14 :: w15 :: w16 :: _ =>
          extend n' (add32 (add32 (sigma1 w2) w7) (add32 (sigma0 w15) w16) :: w)
      | _ => w
      end
  end.

Definition round (st : list N) (kw : N * N) : list N :=
  match st with
  | [a; b; c; d; e; f; g; h] =>
      let t1 := add32 (add32 (add32 h (Sigma1 e)) (add32 (Ch e f g) (fst kw))) (snd kw) in
      let t2 := add32 (Sigma0 a) (Maj a b c) in
      [add32 t1 t2; a; b; c; add32 d t1; e; f; g]
  | _ => st
  end.

Definition compress (h : list N) (block : list N) : list N :=
  let w := rev (extend 48 (rev block)) in
  let st := fold_left round (combine K w) h in
  map (fun p => add32 (fst p) (snd p)) (combine h st).

Fixpoint words (bs : list N) : list N :=
  match bs with
  | a :: b :: c :: d :: rest => (a * 16777216 + b * 65536 + c * 256 + d) :: words rest
  | _ => []
  end.

Fixpoint blocks (n : nat) (ws : list N) : list (list N) :=
  match n with
  | O => []
  | S n' => match ws with [] => [] | _ => firstn 16 ws :: blocks n' (skipn 16 ws) end
  end.

Definition pad (bs : list N) : list N :=
  let len := N.of_nat (length bs) in
  let zeros := N.to_nat ((119 - (len mod 64)) mod 64) in
  let bits := len * 8 in
  bs ++ [128] ++ repeat 0 zeros ++
  map (fun i => N.land (N.shiftr bits (8 * i)) 255) [7; 6; 5; 4; 3; 2; 1; 0].

Definition hexDigit (n : N) : ascii :=
  ascii_of_N (if n <? 10 then 48 + n else 87 + n).

Fixpoint hexWord (k : nat) (w : N) (acc : string) : string :=
  match k with
  | O => acc
  | S k' => hexWord k' (N.shiftr w 4) (String (hexDigit (N.land w 15)) acc)
  end.

Definition sum (s : string) : string :=
  let bs := map N_of_ascii (list_ascii_of_string s) in
  let ws := words (pad bs) in
  let h := fold_left compress (blocks (length ws) ws) H0 in
  fold_right (fun w acc => hexWord 8 w acc) EmptyString h.

End sha256.

(** ** A concrete world for the examples *)
Module demo.
Import ociregistry ocimem.

(** JSON texts are written with single quotes and converted. *)
Fixpoint json (s : string) : string :=
  match s with
  | EmptyString => EmptyString
  | String c rest =>
      String (if Ascii.eqb c "'" then ascii_of_nat 34 else c) (json rest)
  end.

Definition isHexChar (c : ascii) : bool :=
  let n := nat_of_ascii c in
  ((48 <=? n)%nat && (n <=? 57)%nat) || ((97 <=? n)%nat && (n <=? 102)%nat).

(** [digest.FromBytes] *)
Definition fromBytes (b : string) : digest := "sha256:" +:+ sha256.sum b.

(** [Digest.Validate], for the one algorithm of the examples. *)
Definition validate (d : digest) : option string :=
  if String.prefix "sha256:" d
     && (String.length d =? 71)%nat
     && ociref.allChars isHexChar (String.substring 7 64 d)
  then None else Some "invalid checksum digest format".

Definition verified (d : digest) (b : string) : bool := String.eqb (fromBytes b) d.

Definition imageManifest : string := "application/vnd.oci.image.manifest.v1+json".
Definition imageConfig : string := "application/vnd.oci.image.config.v1+json".

(** The scratch configuration blob of referrers_test.go. *)
Definition configBytes : string := "{}".
Definition configDigest : digest :=
  "sha256:44136fa355b3678a1146ad16f7e8649e94fb4fc21fe77e8310c060f61caaff8a".
Definition configDesc : Descriptor := mkDescriptor imageConfig configDigest 2 None "".

Definition manifestA : string := json
  ("{'schemaVersion':2,'mediaType':'application/vnd.oci.image.manifest.v1+json'," +:+
   "'config':{'mediaType':'application/vnd.oci.image.config.v1+json'," +:+
   "'digest':'sha256:44136fa355b3678a1146ad16f7e8649e94fb4fc21fe77e8310c060f61caaff8a'," +:+
   "'size':2},'layers':[]}").

Definition manifestB : string := json
  ("{'schemaVersion':2,'mediaType':'application/vnd.oci.image.manifest.v1+json'," +:+
   "'config':{'mediaType':'application/vnd.oci.image.config.v1+json'," +:+
   "'digest':'sha256:44136fa355b3678a1146ad16f7e8649e94fb4fc21fe77e8310c060f61caaff8a'," +:+
   "'size':2},'layers':[],'annotations':{'release':'2'}}").

Definition absentDigest : digest :=
  "sha256:ffffffffffffffffffffffffffffffffffffffffffffffffffffffffffffffff".

(** A manifest whose subject is not in the registry. *)
Definition manifestS : string := json
  ("{'schemaVersion':2,'mediaType':'application/vnd.oci.image.manifest.v1+json'," +:+
   "'config':{'mediaType':'application/vnd.oci.image.config.v1+json'," +:+
   "'digest':'sha256:44136fa355b3678a1146ad16f7e8649e94fb4fc21fe77e8310c060f61caaff8a'," +:+
   "'size':2},'layers':[]," +:+
   "'subject':{'mediaType':'application/vnd.oci.image.manifest.v1+json'," +:+
   "'digest':'sha256:ffffffffffffffffffffffffffffffffffffffffffffffffffffffffffffffff'," +:+
   "'size':3}}").

Definition configRef : descInfo := mkDescInfo "config" kindBlob configDesc.
Definition subjectRef : descInfo :=
  mkDescInfo "subject" kindSubjectManifest (mkDescriptor imageManifest absentDigest 3 None "").

(** [getManifestInfo] on the manifests of the examples: what the JSON
    reader finds in each of them.  Other inputs are rejected. *)
Definition manifestInfoOf (mType bytes : string) : res manifestInfo :=
  if negb (String.eqb mType imageManifest) then
    Err (errorString "unknown manifest media type")
  else if String.eqb bytes manifestA then Ok (mkManifestInfo [configRef])
  else if String.eqb bytes manifestB then Ok (mkManifestInfo [configRef])
  else if String.eqb bytes manifestS then Ok (mkManifestInfo [configRef; subjectRef])
  else Err (errorString "cannot unmarshal manifest").

#[export] Instance world : Externals := {
  FromBytes := fromBytes;
  Validate := validate;
  Verified := verified;
  getManifestInfo := manifestInfoOf
}.

Definition immutableCfg : Config := mkConfig true false.
Definition defaultCfg : Config := mkConfig false false.

Definition tagged (tagList : list string) : option PushManifestParameters.t :=
  Some (PushManifestParameters.mk tagList "").

Definition descA : Descriptor := mkDescriptor imageManifest (fromBytes manifestA) 246 None "".

(** The mismatching push of TestAuthScopes (badname_test.go). *)
Definition mismatchedDesc : Descriptor := mkDescriptor "application/json" absentDigest 3 None "".

(** The scratch configuration blob pushed to foo/bar. *)
Definition configPushed : Registry :=
  run (NewWithConfig defaultCfg) [opPushBlob "foo/bar" configDesc (Ok configBytes)].

(** Manifest A pushed with tag v1 and then deleted by digest. *)
Definition taggedThenDeleted : Registry :=
  run configPushed
    [opPushManifest "foo/bar" manifestA imageManifest (tagged ["v1"]);
     opDeleteManifest "foo/bar" (Digest descA)].

(** The scratch configuration and manifest A tagged v1, under immutable
    tags. *)
Definition pushedV1 : Registry :=
  run (NewWithConfig immutableCfg)
    [opPushBlob "foo/bar" configDesc (Ok configBytes);
     opPushManifest "foo/bar" manifestA imageManifest (tagged ["v1"])].

(** The same pushes on an engine without immutable tags, to be wrapped by
    the immutable filter. *)
Definition mutableV1 : Registry :=
  run configPushed [opPushManifest "foo/bar" manifestA imageManifest (tagged ["v1"])].

(** The same with manifest B tagged old. *)
Definition pushedV1Old : Registry :=
  run pushedV1 [opPushManifest "foo/bar" manifestB imageManifest (tagged ["old"])].

(** The engine without immutable tags, with manifest A tagged v1 and
    manifest B tagged old. *)
Definition mutableV1Old : Registry :=
  run mutableV1 [opPushManifest "foo/bar" manifestB imageManifest (tagged ["old"])].

Definition descB : Descriptor := mkDescriptor imageManifest (fromBytes manifestB) 276 None "".

(** A repository in which tag v1 names manifest A while the configuration
    blob that A refers to is gone. *)
Definition danglingState : Registry :=
  mkRegistry immutableCfg
    {[ "foo/bar" :=
         mkRepository
           {[ "v1" := descA ]}
           {[ Digest descA := mkBlob imageManifest manifestA (mkManifestInfo [configRef]) ]}
           ∅ ∅ ]}.

(** The opaque interface types, for tables whose functions are not
    called. *)
#[export] Instance opaque : Opaque := {
  context := unit;
  BlobReader := unit;
  BlobWriter := unit;
  Reader := unit;
  TagsParameters := unit;
  ReferrersParameters := unit
}.

(** A table with a [NewError] hook and nothing else. *)
Definition hooked : Funcs.t :=
  Funcs.mk (Some (fun _ methodName _ => Some (errorString (methodName +:+ ": not available"))))
           None None None None None None None None None None None None None None None
           None None None.

(** A table that implements [PushBlobChunked] only. *)
Definition chunkedOnly : Funcs.t :=
  Funcs.mk None None None None None None None None None
           (Some (fun _ _ _ => (Some tt, None)))
           None None None None None None None None None.

(** A table that implements [PushBlobChunkedResume] only. *)
Definition resumeOnly : Funcs.t :=
  Funcs.mk None None None None None None None None None None
           (Some (fun _ _ _ _ _ => (Some tt, None)))
           None None None None None None None None.

(** A table that implements [GetTag] only, with a [NewError] hook. *)
Definition hookedGetTag : Funcs.t :=
  Funcs.mk (Some (fun _ methodName repo =>
                    Some (errorString (methodName +:+ " on " +:+ repo +:+ ": not available"))))
           None None None
           (Some (fun _ _ _ => (Some tt, None)))
           None None None None None None None None None None None None None None.

(** An index entry that names manifest A. *)
Definition manifestRef : descInfo := mkDescInfo "manifests[0]" kindManifest descA.

(** A client whose chunked writer collects the bytes and commits to the
    descriptor the engine returns: no annotations. *)
#[export] Instance collecting : ocibuilder.Client := {
  ocibuilder.W := string;
  ocibuilder.clientPushBlobChunked := fun _ _ => (Some "", None);
  ocibuilder.writerWrite := fun w chunk => (w +:+ chunk, None);
  ocibuilder.writerCommit := fun w dig =>
    (mkDescriptor "application/octet-stream" dig (Z.of_nat (String.length w)) None "", None);
  ocibuilder.canonicalDigest := fromBytes
}.

(** The configurations of the tests of ociauth. *)
Definition urlAndHost : ociauth.Config :=
  ociauth.mkConfig
    {[ "https://someregistry.example.com/v1" := ociauth.mkConfigEntry "" "" "foo" "bar";
       "someregistry.example.com" := ociauth.mkConfigEntry "" "" "baz" "arble" ]}
    "" ∅.

Definition threeURLs : ociauth.Config :=
  ociauth.mkConfig
    {[ "https://someregistry.example.com/v1" := ociauth.mkConfigEntry "" "" "u1" "p";
       "http://someregistry.example.com/v1" := ociauth.mkConfigEntry "" "" "u2" "p";
       "http://someregistry.example.com/v2" := ociauth.mkConfigEntry "" "" "u3" "p" ]}
    "" ∅.

Definition storeAndAuths : ociauth.Config :=
  ociauth.mkConfig
    {[ "registry-with-basic-auth.com" := ociauth.mkConfigEntry "" "" "u1" "p" ]}
    "test" ∅.


(** An open upload session holding three bytes. *)
Definition uploading : Registry :=
  run (NewWithConfig defaultCfg)
    [opPushBlobChunked "foo/bar" 0 "upload-1"; opWrite ("foo/bar", "upload-1") "foo"].

End demo.

(** * Properties *)

(** ** The in-memory engine *)
Module ocimem_props.
Import ociregistry ocimem.

Section writer.
Context `{!Externals}.

Lemma hasCode_Errorf_v pre e code : hasCode (Errorf_v pre e) code = false.
Proof. reflexivity. Qed.

Lemma hasCode_Errorf_w pre e post code :
  hasCode (Errorf_w pre e post) code = hasCode e code.
Proof. reflexivity. Qed.

Lemma repos_setRepo_eq r n rp : repos (setRepo r n rp) !! n = Some rp.
Proof. unfold setRepo; simpl. apply lookup_insert_eq. Qed.

Lemma repos_setRepo_ne r n m rp : n <> m -> repos (setRepo r n rp) !! m = repos r !! m.
Proof. intros Hne. unfold setRepo; simpl. by apply lookup_insert_ne. Qed.

Lemma repoAt_setRepo r n rp : repoAt (setRepo r n rp) n = rp.
Proof. unfold repoAt. by rewrite repos_setRepo_eq. Qed.

(** What [makeRepo] returns when it succeeds. *)
Lemma makeRepo_Ok r n r1 rp :
  makeRepo r n = Ok (r1, rp) ->
  ociref.IsValidRepository n = true /\
  rp = repoAt r n /\
  repos r1 !! n = Some rp /\
  cfg r1 = cfg r /\
  (r1 = r \/ (repos r !! n = None /\ r1 = setRepo r n emptyRepository)).
Proof.
  unfold makeRepo, repoAt.
  destruct (ociref.IsValidRepository n); [|discriminate].
  destruct (repos r !! n) as [rp0|] eqn:Hl; intros [= <- <-]; simpl.
  - repeat split; auto.
  - repeat split; auto. apply lookup_insert_eq.
Qed.

Lemma makeRepo_existing r n rp :
  ociref.IsValidRepository n = true ->
  repos r !! n = Some rp ->
  makeRepo r n = Ok (r, rp).
Proof. intros Hv Hl. unfold makeRepo. by rewrite Hv, Hl. Qed.

Lemma makeRepo_valid r n :
  ociref.IsValidRepository n = true ->
  exists r1, makeRepo r n = Ok (r1, repoAt r n) /\ repos r1 !! n = Some (repoAt r n).
Proof.
  intros Hv. unfold makeRepo, repoAt. rewrite Hv.
  destruct (repos r !! n) as [rp|] eqn:Hl; simpl.
  - by exists r.
  - eexists; split; [reflexivity|]. apply repos_setRepo_eq.
Qed.

(** A mismatch of the canonical digest or of the length is an error of
    [CheckDescriptor]. *)
Lemma CheckDescriptor_mismatch d b :
  FromBytes b <> Digest d \/ Size d <> Z.of_nat (String.length b) ->
  exists e, CheckDescriptor d (Some b) = Some e.
Proof.
  intros Hm. unfold CheckDescriptor.
  destruct (String.eqb_spec (FromBytes b) (Digest d)) as [Heq|Hne]; simpl; [|eauto].
  destruct (Z.eqb_spec (Size d) (Z.of_nat (String.length b))) as [Hs|Hs]; simpl; [|eauto].
  destruct Hm; contradiction.
Qed.

Lemma CheckDescriptor_match d b :
  FromBytes b = Digest d ->
  Size d = Z.of_nat (String.length b) ->
  MediaType d <> "" ->
  CheckDescriptor d (Some b) = None.
Proof.
  intros Hd Hs Hm. unfold CheckDescriptor.
  rewrite Hd, String.eqb_refl, Hs, Z.eqb_refl; simpl.
  by destruct (String.eqb_spec (MediaType d) "").
Qed.

(** Whatever [CheckDescriptor] reports, [PushBlob] renders it with [%v]:
    the registry is left as it was and the error returned is a plain
    string that answers no has-code query. *)
Lemma PushBlob_rejected r repoName d b e :
  CheckDescriptor d (Some b) = Some e ->
  PushBlob r repoName d (Ok b) = (r, Err (Errorf_v "invalid descriptor: " e)).
Proof. intros Hc. unfold PushBlob. by rewrite Hc. Qed.

(** Matching content under a name [makeRepo] accepts is stored under the
    digest of the descriptor, and the descriptor is returned. *)
Lemma PushBlob_stores r repoName d b :
  CheckDescriptor d (Some b) = None ->
  ociref.IsValidRepository repoName = true ->
  exists r',
    PushBlob r repoName d (Ok b) = (r', Ok d) /\
    blobs (repoAt r' repoName) !! Digest d = Some (mkBlob (MediaType d) b zeroManifestInfo).
Proof.
  intros Hc Hv. unfold PushBlob. rewrite Hc.
  destruct (makeRepo_valid r repoName Hv) as (r1 & -> & _).
  eexists; split; [reflexivity|].
  rewrite repoAt_setRepo; simpl. apply lookup_insert_eq.
Qed.

(** C1, as the code has it: for every repository name, descriptor and
    content whose canonical digest or length does not match the
    descriptor, [PushBlob] returns an error and leaves the registry
    unchanged, but the error does not carry the DIGEST_INVALID code: the
    cause is formatted with [%v], so no code of the cause survives. *)
Theorem PushBlob_mismatch_error_carries_no_code r repoName d b :
  FromBytes b <> Digest d \/ Size d <> Z.of_nat (String.length b) ->
  exists e,
    PushBlob r repoName d (Ok b) = (r, Err e) /\
    hasCode e "DIGEST_INVALID" = false.
Proof.
  intros Hm. destruct (CheckDescriptor_mismatch d b Hm) as [e He].
  eexists; split; [by apply PushBlob_rejected|]. apply hasCode_Errorf_v.
Qed.

(** *** The tag loops of [PushManifest] *)

(** The first loop returns a descriptor only under immutable tags, and
    then it is the current descriptor of a requested tag with the digest
    and the media type of the push. *)
Lemma checkTags_Ok imm rp dig mt tagList d :
  checkTags imm rp dig mt tagList = Some (Ok d) ->
  imm = true /\
  exists tag, In tag tagList /\ tags rp !! tag = Some d /\
              Digest d = dig /\ MediaType d = mt.
Proof.
  induction tagList as [|tag rest IH]; simpl; [discriminate|].
  destruct (ociref.IsValidTag tag); simpl; [|discriminate].
  destruct imm.
  - destruct (tags rp !! tag) as [cur|] eqn:Hl.
    + destruct (String.eqb_spec dig (Digest cur)) as [Hd|Hd]; [|discriminate].
      destruct (String.eqb_spec (MediaType cur) mt) as [Hm|Hm]; simpl; [|discriminate].
      intros [= <-]. split; [done|]. exists tag. auto.
    + intros Hr. destruct (IH Hr) as (_ & t & Hin & Ht). split; [done|]. exists t. auto.
  - intros Hr. destruct (IH Hr) as (Hf & _). discriminate.
Qed.

(** When the first requested tag already names the pushed content, the
    loop returns at once, whatever tags follow. *)
Lemma checkTags_first_match rp dig mt tag rest cur :
  ociref.IsValidTag tag = true ->
  tags rp !! tag = Some cur ->
  Digest cur = dig ->
  MediaType cur = mt ->
  checkTags true rp dig mt (tag :: rest) = Some (Ok cur).
Proof.
  intros Hv Hl <- <-. simpl. rewrite Hv, Hl; simpl.
  by rewrite !String.eqb_refl.
Qed.

(** Requested tags that are valid and not yet in the repository let the
    loop go on. *)
Lemma checkTags_skip_new imm rp dig mt new rest :
  Forall (fun tag => ociref.IsValidTag tag = true /\ tags rp !! tag = None) new ->
  checkTags imm rp dig mt (new ++ rest) = checkTags imm rp dig mt rest.
Proof.
  induction 1 as [|tag new' [Hv Hl] _ IH]; simpl; [reflexivity|].
  rewrite Hv, Hl; simpl. by destruct imm.
Qed.

(** Under immutable tags the first requested tag that exists decides: with
    another digest the push is denied. *)
Lemma checkTags_denied rp dig mt new tag rest cur :
  Forall (fun t => ociref.IsValidTag t = true /\ tags rp !! t = None) new ->
  ociref.IsValidTag tag = true ->
  tags rp !! tag = Some cur ->
  Digest cur <> dig ->
  checkTags true rp dig mt (new ++ tag :: rest) = Some (Err errCannotOverwriteTag).
Proof.
  intros Hnew Hv Hl Hd. rewrite checkTags_skip_new by done. simpl.
  rewrite Hv, Hl; simpl.
  destruct (String.eqb_spec dig (Digest cur)) as [Heq|Hne]; [|reflexivity].
  exfalso. apply Hd. by rewrite Heq.
Qed.

(** With the same digest and another media type it is denied as well. *)
Lemma checkTags_mismatched_media_type rp dig mt new tag rest cur :
  Forall (fun t => ociref.IsValidTag t = true /\ tags rp !! t = None) new ->
  ociref.IsValidTag tag = true ->
  tags rp !! tag = Some cur ->
  Digest cur = dig ->
  MediaType cur <> mt ->
  checkTags true rp dig mt (new ++ tag :: rest)
  = Some (Err (Errorf_w "" ErrDenied ": mismatched media type")).
Proof.
  intros Hnew Hv Hl Hd Hm. rewrite checkTags_skip_new by done. simpl.
  rewrite Hv, Hl, <- Hd, String.eqb_refl; simpl.
  destruct (String.eqb_spec (MediaType cur) mt) as [Heq|Hne]; [|reflexivity].
  contradiction.
Qed.

(** A push that the loop answers leaves the registry as [makeRepo] left
    it. *)
Lemma PushManifest_answered_by_checkTags r repoName bytes mt params rp dig x :
  ociref.IsValidRepository repoName = true ->
  repos r !! repoName = Some rp ->
  manifestDigest bytes params = Ok dig ->
  checkTags (ImmutableTags (cfg r)) rp dig mt (requestedTags params) = Some x ->
  PushManifest r repoName bytes mt params = (r, x).
Proof.
  intros Hv Hl Hdig Hct. unfold PushManifest.
  by rewrite (makeRepo_existing _ _ _ Hv Hl), Hdig, Hct.
Qed.

(** The two denials of the immutable-tags check carry the DENIED code. *)
Lemma immutable_denials_carry_DENIED :
  hasCode errCannotOverwriteTag "DENIED" = true /\
  hasCode (Errorf_w "" ErrDenied ": mismatched media type") "DENIED" = true.
Proof. split; reflexivity. Qed.

(** C2, as the code has it: under immutable tags, when the first requested
    tag already maps to the digest and media type of the push, the call
    returns that descriptor from inside the loop and the registry is left
    as it was, whatever tags follow in the request: a later tag that is new
    is not applied, and a later tag that maps to another digest is not
    denied. *)
Theorem PushManifest_immutable_match_ignores_later_tags
    r repoName bytes mt params rp dig tag rest cur :
  ociref.IsValidRepository repoName = true ->
  repos r !! repoName = Some rp ->
  ImmutableTags (cfg r) = true ->
  manifestDigest bytes params = Ok dig ->
  requestedTags params = tag :: rest ->
  ociref.IsValidTag tag = true ->
  tags rp !! tag = Some cur ->
  Digest cur = dig ->
  MediaType cur = mt ->
  PushManifest r repoName bytes mt params = (r, Ok cur).
Proof.
  intros Hv Hl Himm Hdig Htags Hvt Ht Hd Hm. unfold PushManifest.
  rewrite (makeRepo_existing _ _ _ Hv Hl), Hdig, Htags, Himm.
  by rewrite (checkTags_first_match _ _ _ _ _ _ Hvt Ht Hd Hm).
Qed.

(** *** Reference checking *)








(** *** Chunked uploads *)

Lemma uploads_setRepo r n rp u :
  uploads (repoAt (setRepo r n (setUploads rp u)) n) = u.
Proof. by rewrite repoAt_setRepo. Qed.

(** C4: when the repository name is valid and [id] names no upload session
    of the repository, [PushBlobChunkedResume] does not fail: it creates an
    empty session, registers it under its id (the given one, or a fresh
    one for the empty id) and returns it.  When it resumes an existing
    session at an offset other than the size of the session, the writer it
    returns refuses every write with an error that carries the
    RANGE_INVALID code (range not satisfiable), and the session keeps its
    bytes. *)
Theorem PushBlobChunkedResume_lenient_and_offset_checked :
  (forall r repoName id offset chunkSize fresh,
     ociref.IsValidRepository repoName = true ->
     uploads (repoAt r repoName) !! id = None ->
     exists r',
       let newid := if String.eqb id "" then fresh else id in
       PushBlobChunkedResume r repoName id offset chunkSize fresh
         = (r', Ok (repoName, newid)) /\
       uploads (repoAt r' repoName) !! newid = Some (mkBuffer newid "" offset)) /\
  (forall r repoName id offset chunkSize fresh rp b,
     ociref.IsValidRepository repoName = true ->
     repos r !! repoName = Some rp ->
     uploads rp !! id = Some b ->
     offset <> Z.of_nat (String.length (buf b)) ->
     exists r',
       PushBlobChunkedResume r repoName id offset chunkSize fresh
         = (r', Ok (repoName, id)) /\
       forall bytes, exists e,
         Write r' (repoName, id) bytes = (r', Err e) /\
         hasCode e "RANGE_INVALID" = true /\
         buf <$> (uploads (repoAt r' repoName) !! id) = Some (buf b)).
Proof.
  split.
  - intros r repoName id offset chunkSize fresh Hv Hnone.
    unfold PushBlobChunkedResume.
    destruct (makeRepo_valid r repoName Hv) as (r1 & -> & _).
    rewrite Hnone. eexists; split; [reflexivity|].
    rewrite uploads_setRepo. apply lookup_insert_eq.
  - intros r repoName id offset chunkSize fresh rp b Hv Hl Hb Hoff.
    unfold PushBlobChunkedResume.
    rewrite (makeRepo_existing _ _ _ Hv Hl), Hb.
    eexists; split; [reflexivity|].
    intros bytes. unfold Write. rewrite repos_setRepo_eq; simpl.
    rewrite lookup_insert_eq; simpl.
    destruct (Z.eqb_spec (Z.of_nat (String.length (buf b))) offset) as [Heq|Hne];
      [congruence|]; simpl.
    eexists; split; [reflexivity|]. split; [reflexivity|].
    rewrite uploads_setRepo, lookup_insert_eq. reflexivity.
Qed.

(** A write at the size of the session is accepted and appended. *)
Lemma Write_at_size r repoName id rp b bytes :
  repos r !! repoName = Some rp ->
  uploads rp !! id = Some b ->
  checkStartOffset b = Z.of_nat (String.length (buf b)) ->
  exists r',
    Write r (repoName, id) bytes = (r', Ok (Z.of_nat (String.length bytes))) /\
    buf <$> (uploads (repoAt r' repoName) !! id) = Some (buf b +:+ bytes).
Proof.
  intros Hl Hb Hoff. unfold Write. rewrite Hl, Hb, Hoff, Z.eqb_refl; simpl.
  eexists; split; [reflexivity|].
  by rewrite uploads_setRepo, lookup_insert_eq.
Qed.

(** *** Tags and the manifests they name *)

Lemma tagsResolve_repos r :
  tagsResolve r <-> (forall n rp, repos r !! n = Some rp -> repoResolves rp).
Proof. unfold tagsResolve, repoResolves. split; eauto. Qed.

Lemma tagsResolve_lookup r n rp :
  tagsResolve r -> repos r !! n = Some rp -> repoResolves rp.
Proof. intros Hr Hl. exact (proj1 (tagsResolve_repos r) Hr n rp Hl). Qed.


Lemma repoResolves_empty : repoResolves emptyRepository.
Proof. intros tag d Hl. simpl in Hl. by rewrite lookup_empty in Hl. Qed.

Lemma tagsResolve_setRepo r n rp :
  tagsResolve r -> repoResolves rp -> tagsResolve (setRepo r n rp).
Proof.
  rewrite !tagsResolve_repos. intros Hr Hrp m rp' Hl.
  destruct (decide (n = m)) as [->|Hne].
  - rewrite repos_setRepo_eq in Hl. by injection Hl as <-.
  - rewrite repos_setRepo_ne in Hl by done. eauto.
Qed.

Lemma tagsResolve_makeRepo r n r1 rp :
  tagsResolve r -> makeRepo r n = Ok (r1, rp) -> tagsResolve r1 /\ repoResolves rp.
Proof.
  intros Hr Hmk. apply makeRepo_Ok in Hmk as (_ & _ & Hl & _ & [->|[_ ->]]).
  - split; [done|]. eauto using tagsResolve_lookup.
  - rewrite repos_setRepo_eq in Hl. injection Hl as <-.
    split; [|apply repoResolves_empty].
    apply tagsResolve_setRepo; [done|apply repoResolves_empty].
Qed.

Lemma repoResolves_setBlobs rp b : repoResolves rp -> repoResolves (setBlobs rp b).
Proof. exact id. Qed.

Lemma repoResolves_setUploads rp u : repoResolves rp -> repoResolves (setUploads rp u).
Proof. exact id. Qed.

(** After the second loop a tag maps to the pushed descriptor or to what
    it mapped to before. *)
Lemma applyTags_lookup tagList : forall t d tag x,
  applyTags t tagList d !! tag = Some x -> x = d \/ t !! tag = Some x.
Proof.
  unfold applyTags.
  induction tagList as [|tg rest IH]; intros t d tag x; simpl; [auto|].
  intros Hl. apply IH in Hl as [->|Hl]; [auto|].
  destruct (decide (tg = tag)) as [->|Hne].
  - rewrite lookup_insert_eq in Hl. injection Hl as <-. auto.
  - rewrite lookup_insert_ne in Hl by done. auto.
Qed.

(** Every requested tag maps to the pushed descriptor after the loop. *)
Lemma applyTags_requested tagList : forall t d tag,
  In tag tagList -> applyTags t tagList d !! tag = Some d.
Proof.
  unfold applyTags.
  induction tagList as [|tg rest IH] using rev_ind; intros t d tag Hin; [destruct Hin|].
  rewrite fold_left_app; simpl.
  destruct (decide (tg = tag)) as [->|Hne].
  - apply lookup_insert_eq.
  - rewrite lookup_insert_ne by done. apply IH.
    apply in_app_or in Hin as [Hin|[Heq|[]]]; [done|contradiction].
Qed.

(** Storing the manifest and then pointing tags at it keeps every tag of
    the repository resolvable. *)
Lemma repoResolves_store rp dig b tagList d :
  repoResolves rp ->
  Digest d = dig ->
  repoResolves (setTags (setManifests rp (<[dig := b]> (manifests rp)))
                        (applyTags (tags rp) tagList d)).
Proof.
  intros Hrp Hd tag x Hl; simpl in *.
  apply applyTags_lookup in Hl as [->|Hl].
  - rewrite Hd, lookup_insert_eq. eauto.
  - destruct (decide (dig = Digest x)) as [->|Hne].
    + rewrite lookup_insert_eq. eauto.
    + rewrite lookup_insert_ne by done. eauto.
Qed.


Lemma PushBlob_tagsResolve r repoName d content :
  tagsResolve r -> tagsResolve (fst (PushBlob r repoName d content)).
Proof.
  intros Hr. unfold PushBlob. destruct content as [bytes|e]; [|done].
  destruct (CheckDescriptor d (Some bytes)); [done|].
  destruct (makeRepo r repoName) as [[r1 rp]|] eqn:Hmk; [|done].
  destruct (tagsResolve_makeRepo _ _ _ _ Hr Hmk). simpl.
  apply tagsResolve_setRepo; [done|]. by apply repoResolves_setBlobs.
Qed.

Lemma PushBlobChunkedResume_tagsResolve r repoName id offset chunkSize fresh :
  tagsResolve r ->
  tagsResolve (fst (PushBlobChunkedResume r repoName id offset chunkSize fresh)).
Proof.
  intros Hr. unfold PushBlobChunkedResume.
  destruct (makeRepo r repoName) as [[r1 rp]|] eqn:Hmk; [|done].
  destruct (tagsResolve_makeRepo _ _ _ _ Hr Hmk).
  destruct (uploads rp !! id); simpl;
    (apply tagsResolve_setRepo; [done|]); by apply repoResolves_setUploads.
Qed.



Lemma MountBlob_tagsResolve r fromRepo toRepo dig :
  tagsResolve r -> tagsResolve (fst (MountBlob r fromRepo toRepo dig)).
Proof.
  intros Hr. unfold MountBlob.
  destruct (makeRepo r toRepo) as [[r1 rto]|] eqn:Hmk; [|done].
  destruct (tagsResolve_makeRepo _ _ _ _ Hr Hmk).
  destruct (blobForDigest r1 fromRepo dig); [|done]. simpl.
  apply tagsResolve_setRepo; [done|]. by apply repoResolves_setBlobs.
Qed.

(** [PushManifest] stores the manifest in the same transition in which it
    applies the tags, so the tags it writes resolve. *)
Lemma PushManifest_tagsResolve r repoName bytes mt params :
  tagsResolve r -> tagsResolve (fst (PushManifest r repoName bytes mt params)).
Proof.
  intros Hr. unfold PushManifest.
  destruct (makeRepo r repoName) as [[r1 rp]|] eqn:Hmk; [|done].
  destruct (tagsResolve_makeRepo _ _ _ _ Hr Hmk) as [Hr1 Hrp].
  destruct (manifestDigest bytes params) as [dig|]; [|done].
  destruct (checkTags _ rp dig mt (requestedTags params)); [done|].
  match goal with |- context [match ?x with Some _ => _ | None => _ end] =>
    destruct x; [done|] end.
  destruct (checkManifestReferences _ _ _ _); [|done]. simpl.
  apply tagsResolve_setRepo; [done|]. by apply repoResolves_store.
Qed.





(** The calls that writer.go defines keep the tags resolvable from any
    state in which they are, whatever the other operations do. *)
Lemma writer_tagsResolve r :
  tagsResolve r ->
  (forall repoName d content, tagsResolve (fst (PushBlob r repoName d content))) /\
  (forall repoName chunkSize fresh,
     tagsResolve (fst (PushBlobChunked r repoName chunkSize fresh))) /\
  (forall repoName id offset chunkSize fresh,
     tagsResolve (fst (PushBlobChunkedResume r repoName id offset chunkSize fresh))) /\
  (forall fromRepo toRepo dig, tagsResolve (fst (MountBlob r fromRepo toRepo dig))) /\
  (forall repoName bytes mt params,
     tagsResolve (fst (PushManifest r repoName bytes mt params))).
Proof.
  intros Hr. repeat split; intros.
  - by apply PushBlob_tagsResolve.
  - by apply PushBlobChunkedResume_tagsResolve.
  - by apply PushBlobChunkedResume_tagsResolve.
  - by apply MountBlob_tagsResolve.
  - by apply PushManifest_tagsResolve.
Qed.




End writer.
End ocimem_props.

(** ** The engine on concrete pushes *)
Module ocimem_examples.
Import ociregistry ocimem demo.

Example scratch_config_digest : fromBytes configBytes = configDigest.
Proof. vm_compute. reflexivity. Qed.

(** The push of TestAuthScopes whose digest does not match: the error is a
    plain string. *)
Example PushBlob_mismatch_text :
  PushBlob (NewWithConfig defaultCfg) "foo/bar" mismatchedDesc (Ok "foo")
  = (NewWithConfig defaultCfg, Err (errorString "invalid descriptor: digest mismatch")).
Proof. vm_compute. reflexivity. Qed.

Lemma PushBlob_mismatch_witness :
  exists e,
    PushBlob (NewWithConfig defaultCfg) "foo/bar" mismatchedDesc (Ok "foo")
      = (NewWithConfig defaultCfg, Err e) /\
    hasCode e "DIGEST_INVALID" = false.
Proof.
  apply ocimem_props.PushBlob_mismatch_error_carries_no_code.
  left. vm_compute. discriminate.
Defined.

(** The sibling path of [PushManifest] does attach the code. *)
Example PushManifest_digest_mismatch_has_code :
  exists e,
    snd (PushManifest (NewWithConfig defaultCfg) "foo/bar" manifestA imageManifest
           (Some (PushManifestParameters.mk [] absentDigest))) = Err e /\
    hasCode e "DIGEST_INVALID" = true.
Proof. eexists. split; vm_compute; reflexivity. Qed.

Example PushBlob_match_stored :
  snd (PushBlob (NewWithConfig defaultCfg) "foo/bar" configDesc (Ok configBytes))
  = Ok configDesc.
Proof. vm_compute. reflexivity. Qed.

Lemma PushManifest_immutable_match_witness :
  PushManifest pushedV1 "foo/bar" manifestA imageManifest (tagged ["v1"; "v2"])
  = (pushedV1, Ok descA).
Proof.
  apply (ocimem_props.PushManifest_immutable_match_ignores_later_tags
           pushedV1 "foo/bar" manifestA imageManifest (tagged ["v1"; "v2"])
           (repoAt pushedV1 "foo/bar") (Digest descA) "v1" ["v2"] descA);
    vm_compute; reflexivity.
Defined.

(** The requested tag v2 is not there after the successful call. *)
Example PushManifest_second_tag_not_applied :
  let x := PushManifest pushedV1 "foo/bar" manifestA imageManifest (tagged ["v1"; "v2"]) in
  snd x = Ok descA /\ tags (repoAt (fst x) "foo/bar") !! "v2" = None.
Proof. split; vm_compute; reflexivity. Qed.

(** The same in the other order: the loop passes the new tag and returns
    at the existing one. *)
Example PushManifest_first_tag_not_applied :
  let x := PushManifest pushedV1 "foo/bar" manifestA imageManifest (tagged ["v2"; "v1"]) in
  snd x = Ok descA /\ tags (repoAt (fst x) "foo/bar") !! "v2" = None.
Proof. split; vm_compute; reflexivity. Qed.

(** Without immutable tags both tags are applied. *)
Example PushManifest_mutable_applies_all_tags :
  let r := run (NewWithConfig defaultCfg)
             [opPushBlob "foo/bar" configDesc (Ok configBytes);
              opPushManifest "foo/bar" manifestA imageManifest (tagged ["v1"])] in
  let x := PushManifest r "foo/bar" manifestA imageManifest (tagged ["v1"; "v2"]) in
  snd x = Ok descA /\
  tags (repoAt (fst x) "foo/bar") !! "v1" = Some descA /\
  tags (repoAt (fst x) "foo/bar") !! "v2" = Some descA.
Proof. repeat split; vm_compute; reflexivity. Qed.

(** Tag old maps to manifest B; requesting it for manifest A after v1 is
    not denied. *)
Example PushManifest_later_overwrite_not_denied :
  tags (repoAt pushedV1Old "foo/bar") !! "old"
    = Some (mkDescriptor imageManifest (fromBytes manifestB) 276 None "") /\
  PushManifest pushedV1Old "foo/bar" manifestA imageManifest (tagged ["v1"; "old"])
    = (pushedV1Old, Ok descA) /\
  snd (PushManifest pushedV1Old "foo/bar" manifestA imageManifest (tagged ["old"; "v1"]))
    = Err errCannotOverwriteTag.
Proof. repeat split; vm_compute; reflexivity. Qed.

(** The immutable filter over an engine with the same content makes the
    same check with [continue]: both tags are applied. *)
Example immutable_filter_applies_later_tags :
  let x := ocifilter.PushManifest fromBytes ResolveTag PushManifest
             mutableV1 "foo/bar" manifestA imageManifest (tagged ["v1"; "v2"]) in
  snd x = Ok descA /\
  tags (repoAt (fst x) "foo/bar") !! "v1" = Some descA /\
  tags (repoAt (fst x) "foo/bar") !! "v2" = Some descA.
Proof. repeat split; vm_compute; reflexivity. Qed.

(** And it denies a later tag that maps to another digest. *)
Example immutable_filter_denies_later_overwrite :
  let st := run mutableV1 [opPushManifest "foo/bar" manifestB imageManifest (tagged ["old"])] in
  exists e,
    ocifilter.PushManifest fromBytes ResolveTag PushManifest
      st "foo/bar" manifestA imageManifest (tagged ["v1"; "old"]) = (st, Err e) /\
    hasCode e "DENIED" = true.
Proof. eexists. split; vm_compute; reflexivity. Qed.

(** The names and tags of TestBadRepoName. *)
Example repository_and_tag_syntax :
  ociref.IsValidRepository "foo/bar" = true /\
  ociref.IsValidRepository "okrepo" = true /\
  ociref.IsValidRepository "Invalid--Repo" = false /\
  ociref.IsValidTag "sometag" = true /\
  ociref.IsValidTag "bad-Tag!" = false.
Proof. repeat split; reflexivity. Qed.

(** A name that [makeRepo] refuses fails every writer method before
    anything else is looked at. *)
Example invalid_repository_name_refused :
  PushBlobChunkedResume (NewWithConfig defaultCfg) "Invalid--Repo" "upload-1" 0 0 "fresh"
    = (NewWithConfig defaultCfg, Err ErrNameInvalid) /\
  PushBlob (NewWithConfig defaultCfg) "Invalid--Repo" configDesc (Ok configBytes)
    = (NewWithConfig defaultCfg, Err ErrNameInvalid).
Proof. split; vm_compute; reflexivity. Qed.

(** [danglingState] is what deleting the configuration blob leaves. *)
Example danglingState_reached :
  run pushedV1 [opDeleteBlob "foo/bar" configDigest] = danglingState.
Proof. vm_compute. reflexivity. Qed.



(** TestAuthScopes (badname_test.go): write foo, resume at offset 3, write
    bar, commit with the digest of foobar. *)
Example chunked_upload_resumed :
  let r1 := fst (PushBlobChunkedResume uploading "foo/bar" "upload-1" 3 0 "unused") in
  let r2 := fst (Write r1 ("foo/bar", "upload-1") "bar") in
  snd (Commit r2 ("foo/bar", "upload-1") (fromBytes "foobar"))
    = Ok (mkDescriptor "application/octet-stream" (fromBytes "foobar") 6 None "") /\
  data <$> (blobs (repoAt (fst (Commit r2 ("foo/bar", "upload-1") (fromBytes "foobar"))) "foo/bar")
              !! fromBytes "foobar") = Some "foobar".
Proof. split; vm_compute; reflexivity. Qed.

Lemma PushBlobChunkedResume_witness :
  (exists r',
     PushBlobChunkedResume (NewWithConfig defaultCfg) "foo/bar" "no-such-upload" 0 0 "upload-1"
       = (r', Ok ("foo/bar", "no-such-upload")) /\
     uploads (repoAt r' "foo/bar") !! "no-such-upload"
       = Some (mkBuffer "no-such-upload" "" 0)) /\
  (exists r',
     PushBlobChunkedResume uploading "foo/bar" "upload-1" 2 0 "unused"
       = (r', Ok ("foo/bar", "upload-1")) /\
     forall bytes, exists e,
       Write r' ("foo/bar", "upload-1") bytes = (r', Err e) /\
       hasCode e "RANGE_INVALID" = true /\
       buf <$> (uploads (repoAt r' "foo/bar") !! "upload-1") = Some "foo").
Proof.
  destruct ocimem_props.PushBlobChunkedResume_lenient_and_offset_checked
    as (Hfresh & Hoffset).
  split.
  - apply (Hfresh (NewWithConfig defaultCfg) "foo/bar" "no-such-upload" 0%Z 0%Z "upload-1");
      vm_compute; reflexivity.
  - apply (Hoffset uploading "foo/bar" "upload-1" 2%Z 0%Z "unused"
             (repoAt uploading "foo/bar") (mkBuffer "upload-1" "foo" 3)).
    + vm_compute. reflexivity.
    + vm_compute. reflexivity.
    + vm_compute. reflexivity.
    + vm_compute. discriminate.
Defined.

(** Deleting manifest A by digest takes tag v1 with it. *)
Example DeleteManifest_drops_the_tag :
  tags (repoAt mutableV1 "foo/bar") !! "v1" = Some descA /\
  manifests (repoAt taggedThenDeleted "foo/bar") !! Digest descA = None /\
  tags (repoAt taggedThenDeleted "foo/bar") !! "v1" = None.
Proof. repeat split; vm_compute; reflexivity. Qed.


End ocimem_examples.

(** ** Errors and the capability table *)
Module ociregistry_props.
Import ociregistry.

Lemma asCoded_wrapAll layers e : asCoded (wrapAll layers e) = asCoded e.
Proof. induction layers as [|l rest IH]; simpl; auto. Qed.

Lemma asHTTP_wrapAll layers e : asHTTP (wrapAll layers e) = asHTTP e.
Proof. induction layers as [|l rest IH]; simpl; auto. Qed.

Lemma hasCode_wrapAll layers e code : hasCode (wrapAll layers e) code = hasCode e code.
Proof. induction layers as [|l rest IH]; simpl; auto. Qed.

(** The code that [errors.As] finds is a code that [errors.Is] matches. *)
Lemma asCoded_hasCode e code detail :
  asCoded e = Some (code, detail) -> hasCode e code = true.
Proof.
  induction e as [msg|c msg d|pre inner IH post|st inner IH]; simpl; auto.
  - discriminate.
  - intros [= -> _]. apply String.eqb_refl.
Qed.

(** The prose of the layers is in the text, in wrap direction. *)
Lemma Error_wrapError pre e post : Error (wrapError pre e post) = pre +:+ Error e +:+ post.
Proof. reflexivity. Qed.

(** The single entry [MarshalError] emits and the status it chooses depend
    on the chain only through its coded error, its HTTP wrapper and its
    text. *)
Lemma MarshalError_entry e :
  exists msg,
    fst (MarshalError e)
    = [mkWireError (if String.eqb (Code e) "" then "UNKNOWN" else Code e) msg (Detail e)].
Proof. unfold MarshalError; simpl. eauto. Qed.

Lemma MarshalError_status_wrapAll layers e :
  snd (MarshalError (wrapAll layers e)) = snd (MarshalError e).
Proof.
  unfold MarshalError, Code; simpl.
  by rewrite asCoded_wrapAll, asHTTP_wrapAll.
Qed.

(** C7: for every error [e] that carries a code (the code and detail that
    [errors.As] finds, the code not empty) and every stack of prose
    prefixes and suffixes around it, the wrapped error answers the has-code
    query for the code of [e], has the detail of [e], marshals with the
    HTTP status of [e] to a wire form of one entry that has the code and
    the detail of [e], and the wire form read back matches the code. *)
Theorem wrapping_and_wire_form_preserve_code e code detail layers :
  asCoded e = Some (code, detail) ->
  code <> "" ->
  let w := wrapAll layers e in
  hasCode w code = true /\
  Code w = code /\
  Detail w = detail /\
  snd (MarshalError w) = snd (MarshalError e) /\
  (exists msg, fst (MarshalError w) = [mkWireError code msg detail]) /\
  wireHasCode (fst (MarshalError w)) code = true.
Proof.
  intros Hc Hne w.
  assert (Hw : asCoded w = Some (code, detail)) by (unfold w; by rewrite asCoded_wrapAll).
  assert (HC : Code w = code) by (unfold Code; by rewrite Hw).
  assert (HD : Detail w = detail) by (unfold Detail; by rewrite Hw).
  assert (Hentry : exists msg, fst (MarshalError w) = [mkWireError code msg detail]).
  { destruct (MarshalError_entry w) as [msg Hm]. exists msg.
    rewrite Hm, HC, HD. by destruct (String.eqb_spec code ""). }
  split; [|split; [|split; [|split; [|split]]]]; auto.
  - unfold w. rewrite hasCode_wrapAll. eapply asCoded_hasCode; eauto.
  - apply MarshalError_status_wrapAll.
  - destruct Hentry as [msg ->]. simpl. by rewrite String.eqb_refl.
Qed.

(** Every row of [errorTests] passes on the model. *)
Example errorTests_pass : forallb errorTestPasses errorTests = true.
Proof. vm_compute. reflexivity. Qed.

Lemma wrapping_witness :
  let w := wrapAll [("pull: ", ""); ("", ": some context")] ErrBlobUnknown in
  hasCode w "BLOB_UNKNOWN" = true /\
  Code w = "BLOB_UNKNOWN" /\
  Detail w = None /\
  snd (MarshalError w) = snd (MarshalError ErrBlobUnknown) /\
  (exists msg, fst (MarshalError w) = [mkWireError "BLOB_UNKNOWN" msg None]) /\
  wireHasCode (fst (MarshalError w)) "BLOB_UNKNOWN" = true.
Proof.
  apply (wrapping_and_wire_form_preserve_code ErrBlobUnknown "BLOB_UNKNOWN" None).
  - reflexivity.
  - discriminate.
Defined.

Section table.
Context `{Opaque}.

Lemma newError_default f ctx methodName repo :
  hookless f ->
  newError f ctx methodName repo = Some (Errorf_w (methodName +:+ ": ") ErrUnsupported "").
Proof. destruct f as [fs|]; simpl; [intros ->|]; reflexivity. Qed.

Lemma newError_hook fs hook ctx methodName repo :
  Funcs.NewError fs = Some hook ->
  newError (Some fs) ctx methodName repo = hook ctx methodName repo.
Proof. simpl. by intros ->. Qed.

Lemma dispatch_nil {F R : Type} f (field : Funcs.t -> option F) (call : F -> R) fallback :
  nilField f field -> dispatch f field call fallback = Returns fallback.
Proof. destruct f as [fs|]; simpl; [intros ->|]; reflexivity. Qed.

Lemma dispatch_set {F R : Type} fs (field : Funcs.t -> option F) (call : F -> R) fallback g :
  field fs = Some g -> dispatch (Some fs) field call fallback = Returns (call g).
Proof. simpl. by intros ->. Qed.

Lemma returnsUnsupported_default {F T : Type} f (field : Funcs.t -> option F)
    (call : F -> T * option error) (zero : T) ctx methodName repo :
  hookless f -> nilField f field ->
  returnsUnsupported zero (dispatch f field call (zero, newError f ctx methodName repo)).
Proof.
  intros Hh Hn. rewrite dispatch_nil, newError_default by done.
  eexists; split; reflexivity.
Qed.

Lemma failsUnsupported_default {F : Type} f (field : Funcs.t -> option F)
    (call : F -> option error) ctx methodName repo :
  hookless f -> nilField f field ->
  failsUnsupported (dispatch f field call (newError f ctx methodName repo)).
Proof.
  intros Hh Hn. rewrite dispatch_nil, newError_default by done.
  eexists; split; reflexivity.
Qed.

Lemma yieldsUnsupported_default {F T : Type} f (field : Funcs.t -> option F)
    (call : F -> Seq2 T) (zero : T) ctx methodName repo :
  hookless f -> nilField f field ->
  yieldsUnsupported zero
    (dispatch f field call (ErrorSeq zero (newError f ctx methodName repo))).
Proof.
  intros Hh Hn. rewrite dispatch_nil, newError_default by done.
  eexists; split; reflexivity.
Qed.

(** The guard of [PushBlobChunkedResume] is on the other field: with
    [PushBlobChunked_] set and [PushBlobChunkedResume_] nil the method
    calls a nil function. *)
Lemma PushBlobChunkedResume_calls_nil_function fs g ctx repo id offset chunkSize :
  Funcs.PushBlobChunked_ fs = Some g ->
  Funcs.PushBlobChunkedResume_ fs = None ->
  isPanic (PushBlobChunkedResume (Some fs) ctx repo id offset chunkSize) = true.
Proof. intros Hc Hr. unfold PushBlobChunkedResume. by rewrite Hc, Hr. Qed.

(** C5, amended: for every table without a [NewError] hook (the nil table
    included) and every operation other than PushBlobChunkedResume whose
    function field is nil, the method returns, with the zero value and an
    error that carries the UNSUPPORTED code; the operations that return a
    sequence return one that yields exactly one pair, the zero value with
    such an error.  PushBlobChunkedResume does so when both chunked fields
    are nil.  With a [NewError] hook the error is whatever the hook
    returns. *)
Theorem Funcs_nil_fields_are_unsupported :
  (forall f ctx, hookless f ->
     (forall repo dig, nilField f Funcs.GetBlob_ ->
        returnsUnsupported None (GetBlob f ctx repo dig)) /\
     (forall repo dig o0 o1, nilField f Funcs.GetBlobRange_ ->
        returnsUnsupported None (GetBlobRange f ctx repo dig o0 o1)) /\
     (forall repo dig, nilField f Funcs.GetManifest_ ->
        returnsUnsupported None (GetManifest f ctx repo dig)) /\
     (forall repo tagName, nilField f Funcs.GetTag_ ->
        returnsUnsupported None (GetTag f ctx repo tagName)) /\
     (forall repo dig, nilField f Funcs.ResolveBlob_ ->
        returnsUnsupported zeroDescriptor (ResolveBlob f ctx repo dig)) /\
     (forall repo dig, nilField f Funcs.ResolveManifest_ ->
        returnsUnsupported zeroDescriptor (ResolveManifest f ctx repo dig)) /\
     (forall repo tagName, nilField f Funcs.ResolveTag_ ->
        returnsUnsupported zeroDescriptor (ResolveTag f ctx repo tagName)) /\
     (forall repo desc r, nilField f Funcs.PushBlob_ ->
        returnsUnsupported zeroDescriptor (PushBlob f ctx repo desc r)) /\
     (forall repo chunkSize, nilField f Funcs.PushBlobChunked_ ->
        returnsUnsupported None (PushBlobChunked f ctx repo chunkSize)) /\
     (forall repo id offset chunkSize,
        nilField f Funcs.PushBlobChunked_ -> nilField f Funcs.PushBlobChunkedResume_ ->
        returnsUnsupported None (PushBlobChunkedResume f ctx repo id offset chunkSize)) /\
     (forall fromRepo toRepo dig, nilField f Funcs.MountBlob_ ->
        returnsUnsupported zeroDescriptor (MountBlob f ctx fromRepo toRepo dig)) /\
     (forall repo tag contents mediaType, nilField f Funcs.PushManifest_ ->
        returnsUnsupported zeroDescriptor (PushManifest f ctx repo tag contents mediaType)) /\
     (forall repo dig, nilField f Funcs.DeleteBlob_ ->
        failsUnsupported (DeleteBlob f ctx repo dig)) /\
     (forall repo dig, nilField f Funcs.DeleteManifest_ ->
        failsUnsupported (DeleteManifest f ctx repo dig)) /\
     (forall repo name, nilField f Funcs.DeleteTag_ ->
        failsUnsupported (DeleteTag f ctx repo name)) /\
     (forall startAfter, nilField f Funcs.Repositories_ ->
        yieldsUnsupported "" (Repositories f ctx startAfter)) /\
     (forall repo params, nilField f Funcs.Tags_ ->
        yieldsUnsupported "" (Tags f ctx repo params)) /\
     (forall repo dig params, nilField f Funcs.Referrers_ ->
        yieldsUnsupported zeroDescriptor (Referrers f ctx repo dig params))) /\
  (forall fs hook ctx repo dig,
     Funcs.NewError fs = Some hook ->
     Funcs.GetBlob_ fs = None ->
     GetBlob (Some fs) ctx repo dig = Returns (None, hook ctx "GetBlob" repo)).
Proof.
  split.
  - intros f ctx Hh.
    repeat split; intros;
      try (apply returnsUnsupported_default; done);
      try (apply failsUnsupported_default; done);
      try (apply yieldsUnsupported_default; done).
    unfold PushBlobChunkedResume, returnsUnsupported.
    destruct f as [fs|]; simpl in *.
    + match goal with Hc : Funcs.PushBlobChunked_ fs = None |- _ => rewrite Hc end.
      match goal with Hn : Funcs.NewError fs = None |- _ => rewrite Hn end.
      eexists; split; reflexivity.
    + eexists; split; reflexivity.
  - intros fs hook ctx repo dig Hhook Hnil. unfold GetBlob.
    rewrite dispatch_nil by exact Hnil. by rewrite (newError_hook _ hook).
Qed.

End table.
End ociregistry_props.

(** ** The capability table on concrete tables *)
Module ociregistry_examples.
Import ociregistry demo.

(** TestErrorSeq: the sequence yields the zero value and the error, once. *)
Example ErrorSeq_yields_once :
  ErrorSeq "" (Some (errorString "foo")) = [("", Some (errorString "foo"))].
Proof. reflexivity. Qed.

(** C5, counterexample: a table with a [NewError] hook and a nil
    [GetBlob_] returns the error of the hook, which does not carry
    UNSUPPORTED; and a table with [PushBlobChunked_] set and a nil
    [PushBlobChunkedResume_] panics in PushBlobChunkedResume. *)
Lemma Funcs_nil_field_not_always_unsupported :
  Funcs.GetBlob_ hooked = None /\
  GetBlob (Some hooked) tt "foo/bar" absentDigest
    = Returns (None, Some (errorString "GetBlob: not available")) /\
  hasCode (errorString "GetBlob: not available") "UNSUPPORTED" = false /\
  Funcs.PushBlobChunkedResume_ chunkedOnly = None /\
  PushBlobChunkedResume (Some chunkedOnly) tt "foo/bar" "upload-1" 3 0
    = Panics "invalid memory address or nil pointer dereference".
Proof. repeat split; reflexivity. Qed.

(** The other way round the method refuses although the field is set. *)
Example PushBlobChunkedResume_set_but_refused :
  let resumeOnly :=
    Funcs.mk None None None None None None None None None None
             (Some (fun _ _ _ _ _ => (Some tt, None)))
             None None None None None None None None in
  returnsUnsupported None (PushBlobChunkedResume (Some resumeOnly) tt "foo/bar" "upload-1" 3 0).
Proof. eexists; split; reflexivity. Qed.

Lemma Funcs_nil_fields_witness :
  returnsUnsupported None (GetBlob None tt "foo/bar" absentDigest) /\
  returnsUnsupported None (PushBlobChunkedResume (Some noFuncs) tt "foo/bar" "upload-1" 3 0) /\
  failsUnsupported (DeleteTag (Some noFuncs) tt "foo/bar" "v1") /\
  yieldsUnsupported "" (Repositories None tt "") /\
  yieldsUnsupported "" (Tags (Some noFuncs) tt "foo/bar" None) /\
  yieldsUnsupported zeroDescriptor (Referrers (Some noFuncs) tt "foo/bar" absentDigest None) /\
  GetBlob (Some hooked) tt "foo/bar" absentDigest
    = Returns (None, Some (errorString "GetBlob: not available")).
Proof.
  destruct ociregistry_props.Funcs_nil_fields_are_unsupported as (Hnil & Hhook).
  destruct (Hnil None tt I)
    as (HGetBlob & _ & _ & _ & _ & _ & _ & _ & _ & _ & _ & _ & _ & _ & _ & HRepos & _ & _).
  destruct (Hnil (Some noFuncs) tt eq_refl)
    as (_ & _ & _ & _ & _ & _ & _ & _ & _ & HResume & _ & _ & _ & _ & HDeleteTag & _ & HTags & HRef).
  split; [|split; [|split; [|split; [|split; [|split]]]]].
  - apply HGetBlob. exact I.
  - apply HResume; reflexivity.
  - apply HDeleteTag. reflexivity.
  - apply HRepos. exact I.
  - apply HTags. reflexivity.
  - apply HRef. reflexivity.
  - apply (Hhook hooked (fun _ methodName _ => Some (errorString (methodName +:+ ": not available"))));
      reflexivity.
Defined.

End ociregistry_examples.

(** ** The referrers fallback tag *)
Module ociclient_props.
Import ociregistry ociclient.

Lemma cutColon_app alg enc :
  hasColon alg = false -> cutColon (alg +:+ ":" +:+ enc) = (alg, enc).
Proof.
  induction alg as [|c rest IH]; simpl; [reflexivity|].
  destruct (Ascii.eqb c ":"); simpl; [discriminate|].
  intros Hc. by rewrite IH.
Qed.

Lemma allChars_app p s t :
  ociref.allChars p (s +:+ t) = ociref.allChars p s && ociref.allChars p t.
Proof. induction s as [|c rest IH]; simpl; [reflexivity|]. by rewrite IH, andb_assoc. Qed.

Lemma tagSafe_isTagChar c : ociref.isTagChar (tagSafe c) = true.
Proof. unfold tagSafe. destruct (ociref.isTagChar c) eqn:Hc; [exact Hc|reflexivity]. Qed.

Lemma allChars_mapChars_tagSafe s : ociref.allChars ociref.isTagChar (mapChars tagSafe s) = true.
Proof. induction s as [|c rest IH]; simpl; [reflexivity|]. by rewrite tagSafe_isTagChar, IH. Qed.

Lemma length_mapChars f s : String.length (mapChars f s) = String.length s.
Proof. induction s as [|c rest IH]; simpl; auto. Qed.

Lemma length_substring_le : forall s n m, (String.length (String.substring n m s) <= m)%nat.
Proof.
  induction s as [|c rest IH]; intros n m; simpl.
  - destruct n, m; simpl; lia.
  - destruct n as [|n]; [destruct m as [|m]|]; simpl; [lia| |apply IH].
    specialize (IH 0%nat m). lia.
Qed.

Lemma length_append s t : String.length (s +:+ t) = (String.length s + String.length t)%nat.
Proof. induction s as [|c rest IH]; simpl; auto. Qed.

(** C6, amended: for every digest of the form algorithm, colon, encoded
    part, the fallback referrers tag is the algorithm cut to 32 characters,
    a hyphen, and the encoded part cut to 64 characters, where in both
    parts every character that a tag cannot hold (a plus sign, an equals
    sign) is replaced by a hyphen.  The tag of any digest is made of tag
    characters only and is at most 97 characters long, and the tag agrees
    with every row of the test table of the sources. *)
Theorem referrersTag_form :
  (forall alg enc,
     hasColon alg = false ->
     referrersTag (alg +:+ ":" +:+ enc)
     = mapChars tagSafe (truncate 32 alg) +:+ "-" +:+ mapChars tagSafe (truncate 64 enc)) /\
  (forall d,
     ociref.allChars ociref.isTagChar (referrersTag d) = true /\
     (String.length (referrersTag d) <= 97)%nat) /\
  Forall (fun row => referrersTag (fst row) = snd row) referrersTagTests.
Proof.
  split; [|split].
  - intros alg enc Hc. unfold referrersTag. by rewrite cutColon_app.
  - intros d. unfold referrersTag. destruct (cutColon d) as [alg enc]. split.
    + rewrite !allChars_app, !allChars_mapChars_tagSafe. reflexivity.
    + rewrite !length_append, !length_mapChars. unfold truncate. simpl.
      pose proof (length_substring_le alg 0 32).
      pose proof (length_substring_le enc 0 64). lia.
  - repeat constructor.
Qed.

(** C6, counterexample: on the third row of the test table of the sources
    the tag as the spec words it, with the algorithm cut to 64 characters
    and only the plus signs of the algorithm replaced, is not the tag the
    test expects. *)
Lemma referrersTag_not_as_specified :
  In longRow referrersTagTests /\
  referrersTag (fst longRow) = snd longRow /\
  referrersTagAsSpecified (fst longRow) <> snd longRow /\
  String.length (snd longRow) = (32 + 1 + 64)%nat /\
  String.length (referrersTagAsSpecified (fst longRow)) = (64 + 1 + 64)%nat.
Proof.
  split; [simpl; auto|]. split; [reflexivity|].
  split; [|split; vm_compute; reflexivity].
  vm_compute. discriminate.
Qed.

Lemma referrersTag_witness :
  referrersTag ("sha256" +:+ ":" +:+ "44136fa355b3678a1146ad16f7e8649e94fb4fc21fe77e8310c060f61caaff8a")
  = mapChars tagSafe (truncate 32 "sha256") +:+ "-" +:+
    mapChars tagSafe (truncate 64 "44136fa355b3678a1146ad16f7e8649e94fb4fc21fe77e8310c060f61caaff8a").
Proof.
  destruct referrersTag_form as (Hform & _ & _).
  apply Hform. reflexivity.
Defined.

(** The tag TestReferrersFallback pushes the index to. *)
Example referrersTag_of_sha256 :
  referrersTag "sha256:44136fa355b3678a1146ad16f7e8649e94fb4fc21fe77e8310c060f61caaff8a"
  = "sha256-44136fa355b3678a1146ad16f7e8649e94fb4fc21fe77e8310c060f61caaff8a".
Proof. vm_compute. reflexivity. Qed.

End ociclient_props.

(** ** Registry key matching *)
Module ociauth_props.
Import ociregistry ociauth.







End ociauth_props.

(** ** Key matching on the configurations of the tests *)
Module ociauth_examples.
Import ociregistry ociauth demo.

(** TestWithURLEntryAndExplicitHost *)
Example explicit_host_wins :
  EntryForRegistry urlAndHost noRunner "someregistry.example.com"
    = Ok (mkConfigEntry "" "" "baz" "arble") /\
  EntryForRegistry urlAndHost noRunner "https://someregistry.example.com/v1"
    = Ok (mkConfigEntry "" "" "foo" "bar").
Proof. split; vm_compute; reflexivity. Qed.

(** TestWithMultipleURLsAndSameHost: the text of the error. *)
Example ambiguous_keys_listed :
  EntryForRegistry threeURLs noRunner "someregistry.example.com"
  = Err (errorString
           ("more than one auths entry for " +:+ quote "someregistry.example.com" +:+
            " (http://someregistry.example.com/v1, http://someregistry.example.com/v2, " +:+
            "https://someregistry.example.com/v1)")).
Proof. vm_compute. reflexivity. Qed.

(** TestWithURLEntry: one key in URL form. *)
Example single_url_key :
  EntryForRegistry
    (mkConfig {[ "https://someregistry.example.com/v1" := mkConfigEntry "" "" "foo" "bar" ]} "" ∅)
    noRunner "someregistry.example.com"
  = Ok (mkConfigEntry "" "" "foo" "bar").
Proof. vm_compute. reflexivity. Qed.

(** TestLoadWithNoConfig: the empty configuration gives the empty entry. *)
Example empty_configuration :
  EntryForRegistry (mkConfig ∅ "" ∅) noRunner "some.org" = Ok zeroConfigEntry.
Proof. vm_compute. reflexivity. Qed.

(** TestWithDefaultHelperNotFound and TestWithSpecificHelperNotFound. *)
Example helper_not_found :
  EntryForRegistry storeAndAuths (fun _ _ => Err (Errorf_w "" ErrHelperNotFound ": exec"))
    "registry-with-basic-auth.com"
    = Ok (mkConfigEntry "" "" "u1" "p") /\
  isErr (EntryForRegistry
           (mkConfig ∅ "" {[ "registry-with-basic-auth.com" := "definitely-not-found-executable" ]})
           (fun _ _ => Err (Errorf_w "" ErrHelperNotFound ": exec"))
           "registry-with-basic-auth.com") = true.
Proof. split; vm_compute; reflexivity. Qed.



End ociauth_examples.

(** ** The image builder *)
Module ocibuilder_props.
Import ociregistry ocibuilder.

Section builder.
Context `{Client}.

Lemma New_annotations_nil repo : mAnnotations (manifest (New repo)) = None.
Proof. reflexivity. Qed.

Lemma AddAnnotation_nil ib key value :
  mAnnotations (manifest ib) = None ->
  AddAnnotation ib key value = Panics "assignment to entry in nil map".
Proof. intros Hnil. unfold AddAnnotation. by rewrite Hnil. Qed.

Lemma AddLayer_annotations ib layer :
  mAnnotations (manifest (fst (AddLayer ib layer))) = mAnnotations (manifest ib).
Proof. unfold AddLayer. by destruct (0 <? _)%nat. Qed.

Lemma PushLayer_annotations ib mt chunks ann ib' e :
  PushLayer ib mt chunks ann = Returns (ib', e) ->
  mAnnotations (manifest ib') = mAnnotations (manifest ib).
Proof.
  unfold PushLayer.
  destruct (fst (clientPushBlobChunked _ _)) as [bw|]; [|discriminate].
  destruct (pushChunks bw "" chunks) as [[bw' hashed]|e']; [|by intros [= <- _]].
  destruct (writerCommit bw' _) as [d [e'|]]; [by intros [= <- _]|].
  destruct (assignAll _ _) as [a|]; [|discriminate].
  intros Hr. injection Hr as Hr.
  rewrite <- (AddLayer_annotations ib (mkDescriptor mt (Digest d) (Size d) a (ArtifactType d))).
  by rewrite Hr.
Qed.

(** No method gives the manifest of a builder an annotations map. *)
Lemma after_annotations ib c ib' :
  after ib c = Some ib' ->
  mAnnotations (manifest ib) = None ->
  mAnnotations (manifest ib') = None.
Proof.
  destruct c as [a|s|d|d|d|key value|mt chunks ann]; simpl.
  - by intros [= <-].
  - by intros [= <-].
  - intros [= <-]. unfold SetConfig. by destruct (0 <? _)%nat.
  - intros [= <-]. by rewrite AddLayer_annotations.
  - intros [= <-]. unfold AddManifest. by destruct (0 <? _)%nat.
  - intros Ha Hnil. by rewrite (AddAnnotation_nil _ _ _ Hnil) in Ha.
  - destruct (PushLayer ib mt chunks ann) as [[ib'' e]|] eqn:Hp; [|discriminate].
    intros [= <-] Hnil. by rewrite (PushLayer_annotations _ _ _ _ _ _ Hp).
Qed.

Lemma afterAll_annotations cs : forall ib ib',
  afterAll ib cs = Some ib' ->
  mAnnotations (manifest ib) = None ->
  mAnnotations (manifest ib') = None.
Proof.
  induction cs as [|c rest IH]; intros ib ib'; simpl.
  - by intros [= <-].
  - destruct (after ib c) as [ib1|] eqn:Ha; [|discriminate].
    intros Hrest Hnil. eapply IH; [exact Hrest|]. by eapply after_annotations.
Qed.

Lemma assignAll_nil entries :
  entries <> [] -> assignAll None entries = Panics "assignment to entry in nil map".
Proof. destruct entries as [|[k v] rest]; [done|reflexivity]. Qed.

(** C10: for every builder that [New] returned, also after any calls of
    its methods that returned, a call of AddAnnotation panics with the
    assignment to the nil annotations map of the manifest.  PushLayer
    called with a non-empty annotations map panics in the same way when the
    chunks are written and Commit returns a descriptor whose annotations
    map is nil. *)
Theorem AddAnnotation_and_PushLayer_panic :
  (forall repo cs ib key value,
     afterAll (New repo) cs = Some ib ->
     AddAnnotation ib key value = Panics "assignment to entry in nil map") /\
  (forall ib mt chunks (ann : gmap string string) bw bw' hashed d,
     fst (clientPushBlobChunked (repository ib) CHUNK_SIZE) = Some bw ->
     pushChunks bw "" chunks = Ok (bw', hashed) ->
     writerCommit bw' (canonicalDigest hashed) = (d, None) ->
     Annotations d = None ->
     ann <> ∅ ->
     PushLayer ib mt chunks ann = Panics "assignment to entry in nil map").
Proof.
  split.
  - intros repo cs ib key value Hcs. apply AddAnnotation_nil.
    eapply afterAll_annotations; [exact Hcs|apply New_annotations_nil].
  - intros ib mt chunks ann bw bw' hashed d Hbw Hchunks Hcommit Hnil Hann.
    unfold PushLayer. rewrite Hbw, Hchunks, Hcommit; simpl. rewrite Hnil.
    rewrite assignAll_nil; [reflexivity|].
    intros Hl. by apply map_to_list_empty_iff in Hl.
Qed.

(** With no annotations the layer is added (Test_Boop passes nil). *)
Lemma PushLayer_without_annotations ib mt chunks bw bw' hashed d :
  fst (clientPushBlobChunked (repository ib) CHUNK_SIZE) = Some bw ->
  pushChunks bw "" chunks = Ok (bw', hashed) ->
  writerCommit bw' (canonicalDigest hashed) = (d, None) ->
  PushLayer ib mt chunks ∅
  = Returns (AddLayer ib (mkDescriptor mt (Digest d) (Size d) (Annotations d) (ArtifactType d))).
Proof.
  intros Hbw Hchunks Hcommit. unfold PushLayer.
  rewrite Hbw, Hchunks, Hcommit; simpl. by rewrite map_to_list_empty.
Qed.

End builder.
End ocibuilder_props.

(** ** The image builder on a concrete client *)
Module ocibuilder_examples.
Import ociregistry ocibuilder demo.

Example AddAnnotation_after_New :
  AddAnnotation (New "jcarter3/index_test") "org.opencontainers.image.title" "bigfile"
  = Panics "assignment to entry in nil map".
Proof. reflexivity. Qed.

Lemma AddAnnotation_and_PushLayer_witness :
  AddAnnotation
    (fst (AddLayer (SetArtifactType (New "jcarter3/index_test") "application/super-big-llm")
            configDesc))
    "org.opencontainers.image.title" "bigfile"
    = Panics "assignment to entry in nil map" /\
  PushLayer (New "jcarter3/index_test") "llm_thing" ["foo"; "bar"]
    {[ "org.opencontainers.image.title" := "bigfile" ]}
    = Panics "assignment to entry in nil map".
Proof.
  destruct ocibuilder_props.AddAnnotation_and_PushLayer_panic as (Hadd & Hpush).
  split.
  - apply (Hadd "jcarter3/index_test"
             [callSetArtifactType "application/super-big-llm"; callAddLayer configDesc]).
    reflexivity.
  - apply (Hpush (New "jcarter3/index_test") "llm_thing" ["foo"; "bar"]
             {[ "org.opencontainers.image.title" := "bigfile" ]}
             "" "foobar" "foobar"
             (mkDescriptor "application/octet-stream" (fromBytes "foobar") 6 None "")).
    + reflexivity.
    + reflexivity.
    + vm_compute. reflexivity.
    + reflexivity.
    + intros Hempty.
      assert (Hl : ({[ "org.opencontainers.image.title" := "bigfile" ]} : gmap string string)
                     !! "org.opencontainers.image.title" = None)
        by (rewrite Hempty; apply lookup_empty).
      vm_compute in Hl. discriminate.
Defined.

(** With the nil annotations of Test_Boop the layer is added. *)
Example PushLayer_nil_annotations :
  PushLayer (New "jcarter3/index_test") "llm_thing" ["foo"; "bar"] ∅
  = Returns (AddLayer (New "jcarter3/index_test")
               (mkDescriptor "llm_thing" (fromBytes "foobar") 6 None "")).
Proof. vm_compute. reflexivity. Qed.

End ocibuilder_examples.

(** ** The capability table: set fields, the hook and the resume guard *)
Module funcs_props.
Import ociregistry.

Section table.
Context `{Opaque}.

(** X1: [PushBlobChunkedResume] of [Funcs] is guarded by the field of the
    other method.  It panics exactly when the table has [PushBlobChunked_]
    set and [PushBlobChunkedResume_] nil: the guard is passed on the first
    field and the nil second field is called.  And with [PushBlobChunked_]
    nil it does not look at [PushBlobChunkedResume_]: set or not, that
    function is not called, the writer returned is nil and the error is the
    one [newError] makes for the method name PushBlobChunked. *)
Theorem PushBlobChunkedResume_guard :
  (forall f ctx repo id offset chunkSize,
     isPanic (PushBlobChunkedResume f ctx repo id offset chunkSize) = true <->
     exists fs,
       f = Some fs /\
       is_Some (Funcs.PushBlobChunked_ fs) /\
       Funcs.PushBlobChunkedResume_ fs = None) /\
  (forall fs ctx repo id offset chunkSize,
     Funcs.PushBlobChunked_ fs = None ->
     PushBlobChunkedResume (Some fs) ctx repo id offset chunkSize
     = Returns (None, newError (Some fs) ctx "PushBlobChunked" repo)).
Proof.
  split.
  - intros f ctx repo id offset chunkSize. unfold PushBlobChunkedResume. split.
    + destruct f as [fs|]; [|discriminate].
      destruct (Funcs.PushBlobChunked_ fs) as [g|] eqn:Hc; [|discriminate].
      destruct (Funcs.PushBlobChunkedResume_ fs) as [g'|] eqn:Hr; [discriminate|].
      intros _. exists fs. rewrite Hc. eauto.
    + intros (fs & -> & [g Hc] & Hr). by rewrite Hc, Hr.
  - intros fs ctx repo id offset chunkSize Hc. unfold PushBlobChunkedResume. by rewrite Hc.
Qed.

Ltac forwarded :=
  match goal with
  | Hset : _ = Some _ |- dispatch _ _ _ _ = _ => simpl; rewrite Hset; reflexivity
  end.

(** X2: a method whose function field is set returns what the function
    returns for the arguments of the call, value and error alike; the
    [NewError] hook plays no part.  [PushBlobChunkedResume] does so when
    both chunked fields are set. *)
Theorem Funcs_set_fields_are_called fs ctx :
  (forall g repo dig, Funcs.GetBlob_ fs = Some g ->
     GetBlob (Some fs) ctx repo dig = Returns (g ctx repo dig)) /\
  (forall g repo dig o0 o1, Funcs.GetBlobRange_ fs = Some g ->
     GetBlobRange (Some fs) ctx repo dig o0 o1 = Returns (g ctx repo dig o0 o1)) /\
  (forall g repo dig, Funcs.GetManifest_ fs = Some g ->
     GetManifest (Some fs) ctx repo dig = Returns (g ctx repo dig)) /\
  (forall g repo tagName, Funcs.GetTag_ fs = Some g ->
     GetTag (Some fs) ctx repo tagName = Returns (g ctx repo tagName)) /\
  (forall g repo dig, Funcs.ResolveBlob_ fs = Some g ->
     ResolveBlob (Some fs) ctx repo dig = Returns (g ctx repo dig)) /\
  (forall g repo dig, Funcs.ResolveManifest_ fs = Some g ->
     ResolveManifest (Some fs) ctx repo dig = Returns (g ctx repo dig)) /\
  (forall g repo tagName, Funcs.ResolveTag_ fs = Some g ->
     ResolveTag (Some fs) ctx repo tagName = Returns (g ctx repo tagName)) /\
  (forall g repo desc r, Funcs.PushBlob_ fs = Some g ->
     PushBlob (Some fs) ctx repo desc r = Returns (g ctx repo desc r)) /\
  (forall g repo chunkSize, Funcs.PushBlobChunked_ fs = Some g ->
     PushBlobChunked (Some fs) ctx repo chunkSize = Returns (g ctx repo chunkSize)) /\
  (forall g0 g repo id offset chunkSize,
     Funcs.PushBlobChunked_ fs = Some g0 -> Funcs.PushBlobChunkedResume_ fs = Some g ->
     PushBlobChunkedResume (Some fs) ctx repo id offset chunkSize
     = Returns (g ctx repo id offset chunkSize)) /\
  (forall g fromRepo toRepo dig, Funcs.MountBlob_ fs = Some g ->
     MountBlob (Some fs) ctx fromRepo toRepo dig = Returns (g ctx fromRepo toRepo dig)) /\
  (forall g repo tag contents mediaType, Funcs.PushManifest_ fs = Some g ->
     PushManifest (Some fs) ctx repo tag contents mediaType
     = Returns (g ctx repo tag contents mediaType)) /\
  (forall g repo dig, Funcs.DeleteBlob_ fs = Some g ->
     DeleteBlob (Some fs) ctx repo dig = Returns (g ctx repo dig)) /\
  (forall g repo dig, Funcs.DeleteManifest_ fs = Some g ->
     DeleteManifest (Some fs) ctx repo dig = Returns (g ctx repo dig)) /\
  (forall g repo name, Funcs.DeleteTag_ fs = Some g ->
     DeleteTag (Some fs) ctx repo name = Returns (g ctx repo name)) /\
  (forall g startAfter, Funcs.Repositories_ fs = Some g ->
     Repositories (Some fs) ctx startAfter = Returns (g ctx startAfter)) /\
  (forall g repo params, Funcs.Tags_ fs = Some g ->
     Tags (Some fs) ctx repo params = Returns (g ctx repo params)) /\
  (forall g repo dig params, Funcs.Referrers_ fs = Some g ->
     Referrers (Some fs) ctx repo dig params = Returns (g ctx repo dig params)).
Proof.
  repeat split; intros;
    try (unfold GetBlob, GetBlobRange, GetManifest, GetTag, ResolveBlob, ResolveManifest,
           ResolveTag, PushBlob, PushBlobChunked, MountBlob, PushManifest, DeleteBlob,
           DeleteManifest, DeleteTag, Repositories, Tags, Referrers; forwarded).
  unfold PushBlobChunkedResume.
  repeat match goal with Hset : _ = Some _ |- _ => rewrite Hset; clear Hset end.
  reflexivity.
Qed.

Ltac fallen_back hook :=
  match goal with
  | Hnil : _ = None, Hhook : Funcs.NewError _ = Some hook |- dispatch _ _ _ _ = _ =>
      simpl; rewrite Hnil, Hhook; reflexivity
  end.

(** X3: with a [NewError] hook, a method whose function field is nil returns
    the zero value with whatever the hook returns, nil included.  The hook
    is given the name of the method and the repository of the call:
    [MountBlob] gives the destination repository, [Repositories] the
    empty string, and [PushBlobChunkedResume] the name PushBlobChunked.
    The methods that return a sequence yield the zero value with the
    result of the hook, once. *)
Theorem Funcs_hook_makes_the_error fs hook ctx :
  Funcs.NewError fs = Some hook ->
  (forall repo dig, Funcs.GetBlob_ fs = None ->
     GetBlob (Some fs) ctx repo dig = Returns (None, hook ctx "GetBlob" repo)) /\
  (forall repo dig o0 o1, Funcs.GetBlobRange_ fs = None ->
     GetBlobRange (Some fs) ctx repo dig o0 o1
     = Returns (None, hook ctx "GetBlobRange" repo)) /\
  (forall repo dig, Funcs.GetManifest_ fs = None ->
     GetManifest (Some fs) ctx repo dig = Returns (None, hook ctx "GetManifest" repo)) /\
  (forall repo tagName, Funcs.GetTag_ fs = None ->
     GetTag (Some fs) ctx repo tagName = Returns (None, hook ctx "GetTag" repo)) /\
  (forall repo dig, Funcs.ResolveBlob_ fs = None ->
     ResolveBlob (Some fs) ctx repo dig
     = Returns (zeroDescriptor, hook ctx "ResolveBlob" repo)) /\
  (forall repo dig, Funcs.ResolveManifest_ fs = None ->
     ResolveManifest (Some fs) ctx repo dig
     = Returns (zeroDescriptor, hook ctx "ResolveManifest" repo)) /\
  (forall repo tagName, Funcs.ResolveTag_ fs = None ->
     ResolveTag (Some fs) ctx repo tagName
     = Returns (zeroDescriptor, hook ctx "ResolveTag" repo)) /\
  (forall repo desc r, Funcs.PushBlob_ fs = None ->
     PushBlob (Some fs) ctx repo desc r = Returns (zeroDescriptor, hook ctx "PushBlob" repo)) /\
  (forall repo chunkSize, Funcs.PushBlobChunked_ fs = None ->
     PushBlobChunked (Some fs) ctx repo chunkSize
     = Returns (None, hook ctx "PushBlobChunked" repo)) /\
  (forall repo id offset chunkSize, Funcs.PushBlobChunked_ fs = None ->
     PushBlobChunkedResume (Some fs) ctx repo id offset chunkSize
     = Returns (None, hook ctx "PushBlobChunked" repo)) /\
  (forall fromRepo toRepo dig, Funcs.MountBlob_ fs = None ->
     MountBlob (Some fs) ctx fromRepo toRepo dig
     = Returns (zeroDescriptor, hook ctx "MountBlob" toRepo)) /\
  (forall repo tag contents mediaType, Funcs.PushManifest_ fs = None ->
     PushManifest (Some fs) ctx repo tag contents mediaType
     = Returns (zeroDescriptor, hook ctx "PushManifest" repo)) /\
  (forall repo dig, Funcs.DeleteBlob_ fs = None ->
     DeleteBlob (Some fs) ctx repo dig = Returns (hook ctx "DeleteBlob" repo)) /\
  (forall repo dig, Funcs.DeleteManifest_ fs = None ->
     DeleteManifest (Some fs) ctx repo dig = Returns (hook ctx "DeleteManifest" repo)) /\
  (forall repo name, Funcs.DeleteTag_ fs = None ->
     DeleteTag (Some fs) ctx repo name = Returns (hook ctx "DeleteTag" repo)) /\
  (forall startAfter, Funcs.Repositories_ fs = None ->
     Repositories (Some fs) ctx startAfter = Returns [("", hook ctx "Repositories" "")]) /\
  (forall repo params, Funcs.Tags_ fs = None ->
     Tags (Some fs) ctx repo params = Returns [("", hook ctx "Tags" repo)]) /\
  (forall repo dig params, Funcs.Referrers_ fs = None ->
     Referrers (Some fs) ctx repo dig params
     = Returns [(zeroDescriptor, hook ctx "Referrers" repo)]).
Proof.
  intros Hhook.
  repeat split; intros;
    try (unfold GetBlob, GetBlobRange, GetManifest, GetTag, ResolveBlob, ResolveManifest,
           ResolveTag, PushBlob, PushBlobChunked, MountBlob, PushManifest, DeleteBlob,
           DeleteManifest, DeleteTag, Repositories, Tags, Referrers, ErrorSeq;
         fallen_back hook).
  unfold PushBlobChunkedResume.
  match goal with Hnil : _ = None |- _ => rewrite Hnil end.
  simpl. by rewrite Hhook.
Qed.

End table.
End funcs_props.

(** ** The capability table on concrete tables, continued *)
Module funcs_examples.
Import ociregistry demo.

Lemma PushBlobChunkedResume_guard_witness :
  (isPanic (PushBlobChunkedResume (Some chunkedOnly) tt "foo/bar" "upload-1" 3 0) = true <->
   exists fs,
     Some chunkedOnly = Some fs /\
     is_Some (Funcs.PushBlobChunked_ fs) /\
     Funcs.PushBlobChunkedResume_ fs = None) /\
  PushBlobChunkedResume (Some resumeOnly) tt "foo/bar" "upload-1" 3 0
  = Returns (None, Some (Errorf_w "PushBlobChunked: " ErrUnsupported "")).
Proof.
  destruct funcs_props.PushBlobChunkedResume_guard as (Hpanic & Hrefused).
  split.
  - apply Hpanic.
  - apply (Hrefused resumeOnly). reflexivity.
Defined.

Lemma Funcs_set_fields_witness :
  PushBlobChunked (Some chunkedOnly) tt "foo/bar" 0 = Returns (Some tt, None) /\
  GetTag (Some hookedGetTag) tt "foo/bar" "v1" = Returns (Some tt, None).
Proof.
  split.
  - destruct (funcs_props.Funcs_set_fields_are_called chunkedOnly tt)
      as (_ & _ & _ & _ & _ & _ & _ & _ & Hchunked & _).
    apply (Hchunked (fun _ _ _ => (Some tt, None))). reflexivity.
  - destruct (funcs_props.Funcs_set_fields_are_called hookedGetTag tt)
      as (_ & _ & _ & HGetTag & _).
    apply (HGetTag (fun _ _ _ => (Some tt, None))). reflexivity.
Defined.

Lemma Funcs_hook_witness :
  MountBlob (Some hookedGetTag) tt "foo/src" "foo/dst" absentDigest
    = Returns (zeroDescriptor, Some (errorString "MountBlob on foo/dst: not available")) /\
  PushBlobChunkedResume (Some hookedGetTag) tt "foo/bar" "upload-1" 3 0
    = Returns (None, Some (errorString "PushBlobChunked on foo/bar: not available")) /\
  Repositories (Some hookedGetTag) tt ""
    = Returns [("", Some (errorString "Repositories on : not available"))].
Proof.
  destruct (funcs_props.Funcs_hook_makes_the_error hookedGetTag
              (fun _ methodName repo =>
                 Some (errorString (methodName +:+ " on " +:+ repo +:+ ": not available")))
              tt eq_refl)
    as (_ & _ & _ & _ & _ & _ & _ & _ & _ & HResume & HMount & _ & _ & _ & _ & HRepos & _).
  split; [|split].
  - apply HMount. reflexivity.
  - apply HResume. reflexivity.
  - apply HRepos. reflexivity.
Defined.

End funcs_examples.

(** ** The immutable filter *)
Module ocifilter_props.
Import ociregistry.

Section immutable.
Context {S : Type}.
Context (FromBytes : string -> digest).
Context (innerResolveTag : S -> string -> string -> result error Descriptor).
Context (innerPushManifest :
  S -> string -> string -> string -> option PushManifestParameters.t ->
  S * result error Descriptor).

Local Abbreviation tagsUnchanged := (ocifilter.tagsUnchanged innerResolveTag).
Local Abbreviation tagsPushed := (ocifilter.tagsPushed innerResolveTag).
Local Abbreviation PushManifest :=
  (ocifilter.PushManifest FromBytes innerResolveTag innerPushManifest).
Local Abbreviation requestDigest := (ocifilter.requestDigest FromBytes).

(** [PushManifest] of the filter on a request with tags, with the digest
    of the request named. *)
Lemma PushManifest_with_tags st repo contents mediaType params t rest :
  match params with Some p => PushManifestParameters.Tags p | None => [] end = t :: rest ->
  PushManifest st repo contents mediaType params
  = match tagsUnchanged st repo (requestDigest contents params) (t :: rest) with
    | Some e => (st, Err e)
    | None =>
        match innerPushManifest st repo contents mediaType params with
        | (st', Err e) => (st', Err e)
        | (st', Ok d) =>
            match tagsPushed st' repo (requestDigest contents params) (t :: rest) with
            | Some e => (st', Err e)
            | None => (st', Ok d)
            end
        end
    end.
Proof. intros Htags. unfold ocifilter.PushManifest. rewrite Htags. reflexivity. Qed.

(** The loop before the push stops at the first requested tag that
    resolves to another digest. *)
Lemma tagsUnchanged_denies st repo dig tagList tag d :
  In tag tagList ->
  innerResolveTag st repo tag = Ok d ->
  Digest d <> dig ->
  tagsUnchanged st repo dig tagList = Some ocifilter.errImmutable.
Proof.
  intros Hin Hres Hne.
  induction tagList as [|t rest IH]; [destruct Hin|]. simpl.
  destruct (innerResolveTag st repo t) as [d0|e0] eqn:Ht.
  - destruct (String.eqb_spec (Digest d0) dig) as [Heq|Hneq]; [|reflexivity].
    destruct Hin as [->|Hin]; [|auto].
    rewrite Hres in Ht. injection Ht as <-. contradiction.
  - destruct Hin as [->|Hin]; [|auto]. rewrite Hres in Ht. discriminate.
Qed.

(** When the loop runs to its end, every requested tag that resolves has
    the digest of the request. *)
Lemma tagsUnchanged_None st repo dig tagList :
  tagsUnchanged st repo dig tagList = None ->
  forall tag d, In tag tagList -> innerResolveTag st repo tag = Ok d -> Digest d = dig.
Proof.
  induction tagList as [|t rest IH]; simpl; [intros _ tag d []|].
  destruct (innerResolveTag st repo t) as [d0|e0] eqn:Ht.
  - destruct (String.eqb_spec (Digest d0) dig) as [Heq|Hneq]; [|discriminate].
    intros Hrest tag d [->|Hin] Hres; [|eauto].
    rewrite Hres in Ht. by injection Ht as ->.
  - intros Hrest tag d [->|Hin] Hres; [|eauto]. rewrite Hres in Ht. discriminate.
Qed.

(** When the loop after the push runs to its end, every requested tag
    resolves to the digest of the request. *)
Lemma tagsPushed_None st repo dig tagList :
  tagsPushed st repo dig tagList = None ->
  forall tag, In tag tagList ->
    exists d, innerResolveTag st repo tag = Ok d /\ Digest d = dig.
Proof.
  induction tagList as [|t rest IH]; simpl; [intros _ tag []|].
  destruct (innerResolveTag st repo t) as [d0|e0] eqn:Ht; [|discriminate].
  destruct (String.eqb_spec (Digest d0) dig) as [Heq|Hneq]; [|discriminate]. simpl.
  intros Hrest tag [->|Hin]; [eauto|eauto].
Qed.

(** X4: when one of the requested tags resolves in the wrapped registry to a
    digest other than the one of the request, [PushManifest] of the filter
    fails with an error that carries the DENIED code, and the wrapped
    registry is not asked to push: its state is the one before the call. *)
Theorem immutable_PushManifest_denies_changed_tag
    st repo contents mediaType p tag d :
  In tag (PushManifestParameters.Tags p) ->
  innerResolveTag st repo tag = Ok d ->
  Digest d <> requestDigest contents (Some p) ->
  PushManifest st repo contents mediaType (Some p) = (st, Err ocifilter.errImmutable) /\
  hasCode ocifilter.errImmutable "DENIED" = true.
Proof.
  intros Hin Hres Hne. split; [|reflexivity].
  destruct (PushManifestParameters.Tags p) as [|t rest] eqn:Htags; [destruct Hin|].
  rewrite (PushManifest_with_tags _ _ _ _ (Some p) t rest Htags).
  by rewrite (tagsUnchanged_denies st repo _ (t :: rest) tag d Hin Hres Hne).
Qed.

(** X5: when [PushManifest] of the filter succeeds for a request with tags,
    the result is the one of the wrapped registry, every requested tag
    resolves afterwards to the digest of the request, and every requested
    tag that resolved before the call had that digest already. *)
Theorem immutable_PushManifest_keeps_tag_digests
    st repo contents mediaType p st' d tag :
  PushManifest st repo contents mediaType (Some p) = (st', Ok d) ->
  In tag (PushManifestParameters.Tags p) ->
  innerPushManifest st repo contents mediaType (Some p) = (st', Ok d) /\
  (exists new, innerResolveTag st' repo tag = Ok new /\
               Digest new = requestDigest contents (Some p)) /\
  (forall old, innerResolveTag st repo tag = Ok old ->
               Digest old = requestDigest contents (Some p)).
Proof.
  destruct (PushManifestParameters.Tags p) as [|t rest] eqn:Htags.
  { intros _ []. }
  rewrite (PushManifest_with_tags _ _ _ _ (Some p) t rest Htags).
  destruct (tagsUnchanged st repo _ (t :: rest)) as [e|] eqn:Hbefore; [discriminate|].
  destruct (innerPushManifest st repo contents mediaType (Some p)) as [st1 [d1|e1]];
    [|discriminate].
  destruct (tagsPushed st1 repo _ (t :: rest)) as [e|] eqn:Hafter; [discriminate|].
  intros [= <- <-] Hin. split; [reflexivity|]. split.
  - by apply (tagsPushed_None _ _ _ _ Hafter).
  - intros old Hold. by apply (tagsUnchanged_None _ _ _ _ Hbefore tag).
Qed.

(** A request without tags goes to the wrapped registry as it is. *)
Lemma PushManifest_without_tags st repo contents mediaType params :
  match params with Some p => PushManifestParameters.Tags p | None => [] end = [] ->
  PushManifest st repo contents mediaType params
  = innerPushManifest st repo contents mediaType params.
Proof. intros Htags. unfold ocifilter.PushManifest. by rewrite Htags. Qed.

(** The state after [PushManifest] of the filter is the state before the
    call or the state the wrapped registry left. *)
Lemma PushManifest_state st repo contents mediaType params :
  fst (PushManifest st repo contents mediaType params) = st \/
  fst (PushManifest st repo contents mediaType params)
  = fst (innerPushManifest st repo contents mediaType params).
Proof.
  destruct (match params with Some p => PushManifestParameters.Tags p | None => [] end)
    as [|t rest] eqn:Htags.
  { right. by rewrite PushManifest_without_tags. }
  rewrite (PushManifest_with_tags _ _ _ _ params t rest Htags).
  destruct (tagsUnchanged _ _ _ _); [by left|].
  destruct (innerPushManifest st repo contents mediaType params) as [st1 [d1|e1]];
    [|by right].
  destruct (tagsPushed _ _ _ _); by right.
Qed.

(** The three delete methods of the filter never reach the wrapped
    registry: whatever its state and whatever is named, the state is left
    as it was and the error returned is [ErrDenied] itself, which carries
    the DENIED code. *)
Lemma immutable_deletes_are_denied (st : S) repo dig name :
  ocifilter.DeleteBlob st repo dig = (st, Some ErrDenied) /\
  ocifilter.DeleteManifest st repo dig = (st, Some ErrDenied) /\
  ocifilter.DeleteTag st repo name = (st, Some ErrDenied) /\
  hasCode ErrDenied "DENIED" = true.
Proof. repeat split. Qed.

End immutable.
End ocifilter_props.

(** ** The immutable filter over the in-memory engine *)
Module immutable_engine_props.
Import ociregistry ocimem ocimem_props.

Section wrapped.
Context `{!Externals}.

Lemma repoKept_refl rp : immutable_engine.repoKept rp rp.
Proof. repeat split; eauto. Qed.

Lemma repoKept_trans rp1 rp2 rp3 :
  immutable_engine.repoKept rp1 rp2 -> immutable_engine.repoKept rp2 rp3 ->
  immutable_engine.repoKept rp1 rp3.
Proof.
  intros (Ht1 & Hm1 & Hb1) (Ht2 & Hm2 & Hb2). repeat split; eauto.
  intros tag d Hl. destruct (Ht1 _ _ Hl) as (d1 & Hl1 & Hd1).
  destruct (Ht2 _ _ Hl1) as (d2 & Hl2 & Hd2). exists d2. split; [done|congruence].
Qed.

Lemma kept_refl r : immutable_engine.kept r r.
Proof. intros n rp Hl. exists rp. split; [done|apply repoKept_refl]. Qed.

Lemma kept_trans r1 r2 r3 :
  immutable_engine.kept r1 r2 -> immutable_engine.kept r2 r3 -> immutable_engine.kept r1 r3.
Proof.
  intros H12 H23 n rp Hl. destruct (H12 _ _ Hl) as (rp2 & Hl2 & Hk2).
  destruct (H23 _ _ Hl2) as (rp3 & Hl3 & Hk3). exists rp3.
  split; [done|]. by apply (repoKept_trans _ rp2).
Qed.

Lemma kept_setRepo r n rp rp' :
  repos r !! n = Some rp -> immutable_engine.repoKept rp rp' ->
  immutable_engine.kept r (setRepo r n rp').
Proof.
  intros Hl Hk m rpm Hm. destruct (decide (n = m)) as [<-|Hne].
  - rewrite repos_setRepo_eq. exists rp'. split; [done|]. congruence.
  - rewrite repos_setRepo_ne by done. exists rpm. split; [done|apply repoKept_refl].
Qed.

Lemma kept_makeRepo r n r1 rp : makeRepo r n = Ok (r1, rp) -> immutable_engine.kept r r1.
Proof.
  intros Hmk. apply makeRepo_Ok in Hmk as (_ & _ & _ & _ & [->|[Hnone ->]]).
  - apply kept_refl.
  - intros m rpm Hm. destruct (decide (n = m)) as [<-|Hne]; [congruence|].
    rewrite repos_setRepo_ne by done. exists rpm. split; [done|apply repoKept_refl].
Qed.

(** The shape of every store of the engine: the repository that
    [makeRepo] returned is replaced by one that keeps what it held. *)
Lemma kept_store r n r1 rp rp' :
  makeRepo r n = Ok (r1, rp) -> immutable_engine.repoKept rp rp' ->
  immutable_engine.kept r (setRepo r1 n rp').
Proof.
  intros Hmk Hk. apply (kept_trans _ r1); [by eapply kept_makeRepo|].
  apply makeRepo_Ok in Hmk as (_ & _ & Hl & _). by apply (kept_setRepo _ _ rp).
Qed.

Lemma repoKept_setUploads rp u : immutable_engine.repoKept rp (setUploads rp u).
Proof. repeat split; eauto. Qed.

Lemma repoKept_insert_blob rp k b :
  immutable_engine.repoKept rp (setBlobs rp (<[k := b]> (blobs rp))).
Proof.
  repeat split; simpl; eauto.
  intros k' Hk'. destruct (decide (k = k')) as [<-|Hne].
  - rewrite lookup_insert_eq. eauto.
  - by rewrite lookup_insert_ne.
Qed.

(** After the second tag loop a tag that was there is still there, with
    its descriptor or with the pushed one. *)
Lemma applyTags_keeps tagList : forall t d tag old,
  t !! tag = Some old ->
  applyTags t tagList d !! tag = Some old \/
  (In tag tagList /\ applyTags t tagList d !! tag = Some d).
Proof.
  intros t d tag old Hl.
  destruct (in_dec string_dec tag tagList) as [Hin|Hnin].
  - right. split; [done|]. by apply applyTags_requested.
  - left. revert t Hl. unfold applyTags.
    induction tagList as [|tg rest IH]; intros t Hl; simpl; [done|].
    apply IH.
    + intros Hin. apply Hnin. by right.
    + rewrite lookup_insert_ne; [done|]. intros ->. apply Hnin. by left.
Qed.

Lemma repoKept_insert_manifest rp dig b tagList d :
  (forall tag old, In tag tagList -> tags rp !! tag = Some old -> Digest old = Digest d) ->
  immutable_engine.repoKept rp
    (setTags (setManifests rp (<[dig := b]> (manifests rp))) (applyTags (tags rp) tagList d)).
Proof.
  intros Hsame. repeat split; simpl; eauto.
  - intros tag old Hl.
    destruct (applyTags_keeps tagList (tags rp) d tag old Hl) as [Hk|[Hin Hk]]; [eauto|].
    exists d. split; [done|]. symmetry. eauto.
  - intros k Hk. destruct (decide (dig = k)) as [<-|Hne].
    + rewrite lookup_insert_eq. eauto.
    + by rewrite lookup_insert_ne.
Qed.

(** The digest [PushManifest] of the engine works with is the one the
    filter compares the tags with. *)
Lemma manifestDigest_requestDigest bytes params dig :
  manifestDigest bytes params = Ok dig ->
  dig = ocifilter.requestDigest FromBytes bytes params.
Proof.
  unfold manifestDigest, ocifilter.requestDigest.
  destruct params as [p|]; [|by intros [= <-]].
  destruct (negb (String.eqb (PushManifestParameters.Digest p) "")); [|by intros [= <-]].
  destruct (Validate _); [discriminate|].
  destruct (negb (Verified _ _)); [discriminate|]. by intros [= <-].
Qed.

(** [PushManifest] of the engine keeps what the registry holds when no
    requested tag names another digest. *)
Lemma PushManifest_kept r n bytes mt params :
  (forall tag old,
     In tag (requestedTags params) ->
     tags (repoAt r n) !! tag = Some old ->
     Digest old = ocifilter.requestDigest FromBytes bytes params) ->
  immutable_engine.kept r (fst (PushManifest r n bytes mt params)).
Proof.
  intros Hsame. unfold PushManifest.
  destruct (makeRepo r n) as [[r1 rp]|] eqn:Hmk; [|apply kept_refl].
  pose proof (kept_makeRepo _ _ _ _ Hmk) as Hk1.
  destruct (manifestDigest bytes params) as [dig|] eqn:Hdig; [|done].
  destruct (checkTags _ rp dig mt (requestedTags params)); [done|].
  match goal with |- context [match ?x with Some _ => _ | None => _ end] =>
    destruct x; [done|] end.
  destruct (checkManifestReferences _ _ _ _); [|done]. simpl.
  apply (kept_store _ _ _ _ _ Hmk). apply repoKept_insert_manifest. simpl.
  apply makeRepo_Ok in Hmk as (_ & -> & _).
  intros tag old Hin Hl. rewrite (Hsame tag old Hin Hl).
  symmetry. by apply manifestDigest_requestDigest.
Qed.

Lemma ResolveTag_lookup r n tag old :
  tags (repoAt r n) !! tag = Some old -> ResolveTag r n tag = Ok old.
Proof.
  unfold ResolveTag, repo, repoAt.
  destruct (repos r !! n) as [rp|]; simpl; [by intros ->|].
  by rewrite lookup_empty.
Qed.

(** [PushManifest] through the filter keeps what the registry holds. *)
Lemma immutable_PushManifest_kept r n bytes mt params :
  immutable_engine.kept r (fst (immutable_engine.PushManifest r n bytes mt params)).
Proof.
  unfold immutable_engine.PushManifest.
  destruct (requestedTags params) as [|t rest] eqn:Htags.
  - rewrite ocifilter_props.PushManifest_without_tags by exact Htags.
    apply PushManifest_kept. rewrite Htags. by intros tag old [].
  - rewrite (ocifilter_props.PushManifest_with_tags _ _ _ _ _ _ _ _ t rest Htags).
    destruct (ocifilter.tagsUnchanged _ _ _ _ _) eqn:Hbefore; [apply kept_refl|].
    assert (immutable_engine.kept r (fst (PushManifest r n bytes mt params))) as Hk.
    { apply PushManifest_kept. rewrite Htags. intros tag old Hin Hl.
      apply (ocifilter_props.tagsUnchanged_None _ _ _ _ _ Hbefore tag old Hin).
      by apply ResolveTag_lookup. }
    destruct (PushManifest r n bytes mt params) as [r1 [d1|e1]]; [|done].
    by destruct (ocifilter.tagsPushed _ _ _ _ _).
Qed.

Lemma exec_kept r o : immutable_engine.kept r (immutable_engine.exec r o).
Proof.
  destruct o as [n d content|n cs fresh|n id offset cs fresh|[n id] bytes|[n id] dig
                 |fromRepo toRepo dig|n bytes mt params|n dig|n dig|n tag]; simpl;
    try apply kept_refl.
  - unfold PushBlob. destruct content as [bytes|e]; [|apply kept_refl].
    destruct (CheckDescriptor d (Some bytes)); [apply kept_refl|].
    destruct (makeRepo r n) as [[r1 rp]|] eqn:Hmk; [|apply kept_refl]. simpl.
    eapply kept_store; [exact Hmk|apply repoKept_insert_blob].
  - unfold PushBlobChunked, PushBlobChunkedResume.
    destruct (makeRepo r n) as [[r1 rp]|] eqn:Hmk; [|apply kept_refl].
    destruct (uploads rp !! ""); simpl;
      (eapply kept_store; [exact Hmk|apply repoKept_setUploads]).
  - unfold PushBlobChunkedResume.
    destruct (makeRepo r n) as [[r1 rp]|] eqn:Hmk; [|apply kept_refl].
    destruct (uploads rp !! id); simpl;
      (eapply kept_store; [exact Hmk|apply repoKept_setUploads]).
  - destruct (repos r !! n) as [rp|] eqn:Hl; [|apply kept_refl].
    destruct (uploads rp !! id) as [b|]; [|apply kept_refl].
    destruct (negb _); [apply kept_refl|]. simpl.
    apply (kept_setRepo _ _ rp); [done|apply repoKept_setUploads].
  - destruct (repos r !! n) as [rp|] eqn:Hl; [|apply kept_refl].
    destruct (uploads rp !! id) as [b|]; [|apply kept_refl].
    destruct (negb _); [apply kept_refl|]. simpl.
    apply (kept_setRepo _ _ rp); [done|apply repoKept_insert_blob].
  - unfold MountBlob.
    destruct (makeRepo r toRepo) as [[r1 rto]|] eqn:Hmk; [|apply kept_refl].
    destruct (blobForDigest r1 fromRepo dig); simpl.
    + eapply kept_store; [exact Hmk|apply repoKept_insert_blob].
    + by eapply kept_makeRepo.
  - apply immutable_PushManifest_kept.
Qed.

(** X6: through the immutable filter over the in-memory engine nothing that
    the registry holds goes away or moves: after any sequence of calls,
    whether they succeed or fail, every repository is still there, every
    tag is still there with the digest it had, and every manifest and
    every blob is still stored under its digest. *)
Theorem immutable_engine_keeps_what_it_holds r ops :
  immutable_engine.kept r (immutable_engine.run r ops).
Proof.
  unfold immutable_engine.run. revert r.
  induction ops as [|o rest IH]; intros r; simpl; [apply kept_refl|].
  apply (kept_trans _ (immutable_engine.exec r o)); [apply exec_kept|apply IH].
Qed.

End wrapped.
End immutable_engine_props.

(** ** The in-memory engine: what a call stores and what it leaves *)
Module ocimem_store_props.
Import ociregistry ocimem ocimem_props.

Section writer.
Context `{!Externals}.

(** [makeRepo] changes no repository: where there was none it adds an
    empty one. *)
Lemma repoAt_makeRepo r n r1 rp m :
  makeRepo r n = Ok (r1, rp) -> repoAt r1 m = repoAt r m.
Proof.
  intros Hmk. apply makeRepo_Ok in Hmk as (_ & _ & _ & _ & [->|[Hnone ->]]); [done|].
  unfold repoAt. destruct (decide (n = m)) as [<-|Hne].
  - by rewrite repos_setRepo_eq, Hnone.
  - by rewrite repos_setRepo_ne.
Qed.

Lemma repos_makeRepo_ne r n r1 rp m :
  makeRepo r n = Ok (r1, rp) -> m <> n -> repos r1 !! m = repos r !! m.
Proof.
  intros Hmk Hne. apply makeRepo_Ok in Hmk as (_ & _ & _ & _ & [->|[Hnone ->]]); [done|].
  by rewrite repos_setRepo_ne.
Qed.

(** X7: [PushBlob] stores all or nothing.  When it succeeds, the content was
    read and checked against the descriptor, the descriptor returned is
    the one given, and the repository holds the content with the media
    type of the descriptor under its digest.  When it fails, for any
    reason, the registry is as it was. *)
Theorem PushBlob_all_or_nothing r repoName d content r' x :
  PushBlob r repoName d content = (r', x) ->
  match x with
  | Ok d' =>
      d' = d /\
      exists bytes,
        content = Ok bytes /\
        CheckDescriptor d (Some bytes) = None /\
        blobs (repoAt r' repoName) !! Digest d
        = Some (mkBlob (MediaType d) bytes zeroManifestInfo)
  | Err _ => r' = r
  end.
Proof.
  unfold PushBlob. destruct content as [bytes|e]; [|by intros [= <- <-]].
  destruct (CheckDescriptor d (Some bytes)) eqn:Hc; [by intros [= <- <-]|].
  destruct (makeRepo r repoName) as [[r1 rp]|]; [|by intros [= <- <-]].
  intros [= <- <-]. split; [done|]. exists bytes. repeat split; [done|].
  rewrite repoAt_setRepo. simpl. apply lookup_insert_eq.
Qed.

(** X8: [PushBlob] touches one blob of one repository: the other
    repositories, the tags, manifests and upload sessions of the
    repository, and its blobs under other digests are what they were. *)
Theorem PushBlob_touches_one_blob r repoName d content :
  let r' := fst (PushBlob r repoName d content) in
  (forall m, m <> repoName -> repos r' !! m = repos r !! m) /\
  tags (repoAt r' repoName) = tags (repoAt r repoName) /\
  manifests (repoAt r' repoName) = manifests (repoAt r repoName) /\
  uploads (repoAt r' repoName) = uploads (repoAt r repoName) /\
  (forall k, k <> Digest d ->
     blobs (repoAt r' repoName) !! k = blobs (repoAt r repoName) !! k).
Proof.
  unfold PushBlob. destruct content as [bytes|e]; [|by repeat split].
  destruct (CheckDescriptor d (Some bytes)); [by repeat split|].
  destruct (makeRepo r repoName) as [[r1 rp]|] eqn:Hmk; [|by repeat split]. cbn [fst].
  pose proof (makeRepo_Ok _ _ _ _ Hmk) as (_ & -> & _).
  rewrite repoAt_setRepo. cbn [setBlobs tags manifests uploads blobs]. repeat split.
  - intros m Hne. rewrite repos_setRepo_ne by done. by eapply repos_makeRepo_ne.
  - intros k Hk. by rewrite lookup_insert_ne.
Qed.

(** X9: pushing the same blob again changes nothing: the registry after two
    identical calls of [PushBlob] is the registry after one. *)
Theorem PushBlob_idempotent r repoName d content :
  fst (PushBlob (fst (PushBlob r repoName d content)) repoName d content)
  = fst (PushBlob r repoName d content).
Proof.
  destruct content as [bytes|e]; [|reflexivity]. unfold PushBlob.
  destruct (CheckDescriptor d (Some bytes)) eqn:Hc; [reflexivity|].
  destruct (makeRepo r repoName) as [[r1 rp]|] eqn:Hmk; cbn [fst].
  2: { by rewrite Hmk. }
  pose proof (makeRepo_Ok _ _ _ _ Hmk) as (Hv & _).
  rewrite (makeRepo_existing _ _ _ Hv (repos_setRepo_eq _ _ _)). cbn [fst].
  unfold setRepo, setBlobs. cbn [cfg repos tags manifests blobs uploads].
  by rewrite !insert_insert_eq.
Qed.

(** X10: a successful [MountBlob] makes the blob of the source repository
    available in the destination under the same digest: the very blob the
    source holds, with its descriptor returned.  The source repository is
    left as it was. *)
Theorem MountBlob_shares_the_blob r fromRepo toRepo dig r' d :
  MountBlob r fromRepo toRepo dig = (r', Ok d) ->
  exists b,
    blobs (repoAt r fromRepo) !! dig = Some b /\
    blobs (repoAt r' toRepo) !! dig = Some b /\
    blobs (repoAt r' fromRepo) !! dig = Some b /\
    d = descriptor b.
Proof.
  unfold MountBlob.
  destruct (makeRepo r toRepo) as [[r1 rto]|] eqn:Hmk; [|discriminate].
  destruct (blobForDigest r1 fromRepo dig) as [b|] eqn:Hb; [|discriminate].
  intros [= <- <-]. exists b.
  assert (blobs (repoAt r fromRepo) !! dig = Some b) as Hsrc.
  { rewrite <- (repoAt_makeRepo _ _ _ _ fromRepo Hmk).
    revert Hb. unfold blobForDigest, repo, repoAt.
    destruct (repos r1 !! fromRepo) as [rp|]; [|discriminate]. simpl.
    destruct (blobs rp !! dig); [|discriminate]. by intros [= <-]. }
  repeat split; [done| | ].
  - rewrite repoAt_setRepo. simpl. apply lookup_insert_eq.
  - destruct (decide (toRepo = fromRepo)) as [<-|Hne].
    + rewrite repoAt_setRepo. simpl. apply lookup_insert_eq.
    + unfold repoAt at 1. rewrite repos_setRepo_ne by done.
      fold (repoAt r1 fromRepo). by rewrite (repoAt_makeRepo _ _ _ _ fromRepo Hmk).
Qed.

(** X11: a call of [MountBlob] or [PushManifest] that fails stores nothing:
    the registry is as it was, except that the repository named for the
    store exists afterwards, empty, when it did not exist before and its
    name is valid. *)
Theorem failed_calls_store_nothing :
  (forall r fromRepo toRepo dig r' e,
     MountBlob r fromRepo toRepo dig = (r', Err e) ->
     r' = r \/ (repos r !! toRepo = None /\ r' = setRepo r toRepo emptyRepository)) /\
  (forall r repoName bytes mt params r' e,
     PushManifest r repoName bytes mt params = (r', Err e) ->
     r' = r \/ (repos r !! repoName = None /\ r' = setRepo r repoName emptyRepository)).
Proof.
  split.
  - intros r fromRepo toRepo dig r' e. unfold MountBlob.
    destruct (makeRepo r toRepo) as [[r1 rto]|] eqn:Hmk; [|intros [= <- _]; by left].
    destruct (blobForDigest r1 fromRepo dig); [discriminate|].
    intros [= <- _]. by apply makeRepo_Ok in Hmk as (_ & _ & _ & _ & [->|[Hnone ->]]); auto.
  - intros r repoName bytes mt params r' e. unfold PushManifest.
    destruct (makeRepo r repoName) as [[r1 rp]|] eqn:Hmk; [|intros [= <- _]; by left].
    assert (r1 = r \/ (repos r !! repoName = None /\ r1 = setRepo r repoName emptyRepository))
      as Hr1 by (apply makeRepo_Ok in Hmk as (_ & _ & _ & _ & [->|[Hnone ->]]); auto).
    destruct (manifestDigest bytes params) as [dig|]; [|by intros [= <- _]].
    destruct (checkTags _ rp dig mt (requestedTags params)); [by intros [= <- _]|].
    match goal with |- context [match ?x with Some _ => _ | None => _ end] =>
      destruct x; [by intros [= <- _]|] end.
    destruct (checkManifestReferences _ _ _ _); [discriminate|]. by intros [= <- _].
Qed.

(** X12: [MountBlob] looks the destination up first: when the source does not
    hold the digest and the destination name is valid, the call fails and
    the destination repository exists afterwards, as it was or empty,
    while every other repository is as it was. *)
Theorem failed_MountBlob_makes_destination r fromRepo toRepo dig :
  ociref.IsValidRepository toRepo = true ->
  blobs (repoAt r fromRepo) !! dig = None ->
  exists r' e,
    MountBlob r fromRepo toRepo dig = (r', Err e) /\
    repos r' !! toRepo = Some (repoAt r toRepo) /\
    (forall m, m <> toRepo -> repos r' !! m = repos r !! m).
Proof.
  intros Hv Hnone. unfold MountBlob.
  destruct (makeRepo_valid r toRepo Hv) as (r1 & Hmk & Hl). rewrite Hmk.
  assert (exists e, blobForDigest r1 fromRepo dig = Err e) as [e ->].
  { rewrite <- (repoAt_makeRepo _ _ _ _ fromRepo Hmk) in Hnone.
    unfold blobForDigest, repo. unfold repoAt in Hnone.
    destruct (repos r1 !! fromRepo) as [rp|]; [|eauto]. simpl in Hnone.
    rewrite Hnone. eauto. }
  exists r1, e. split; [done|]. split; [done|].
  intros m Hne. by eapply repos_makeRepo_ne.
Qed.

(** X13: a digest given in the parameters that is malformed or does not
    verify against the bytes makes [PushManifest] fail with an error that
    carries the DIGEST_INVALID code, whatever the tags and the
    configuration; no manifest is stored and no tag is set. *)
Theorem PushManifest_bad_digest_is_DIGEST_INVALID r repoName bytes mt p :
  ociref.IsValidRepository repoName = true ->
  PushManifestParameters.Digest p <> "" ->
  Validate (PushManifestParameters.Digest p) <> None \/
  Verified (PushManifestParameters.Digest p) bytes = false ->
  exists r' e,
    PushManifest r repoName bytes mt (Some p) = (r', Err e) /\
    hasCode e "DIGEST_INVALID" = true /\
    manifests (repoAt r' repoName) = manifests (repoAt r repoName) /\
    tags (repoAt r' repoName) = tags (repoAt r repoName).
Proof.
  intros Hv Hne Hbad. unfold PushManifest.
  destruct (makeRepo_valid r repoName Hv) as (r1 & Hmk & Hl). rewrite Hmk.
  assert (exists e, manifestDigest bytes (Some p) = Err e /\ hasCode e "DIGEST_INVALID" = true)
    as (e & -> & He).
  { unfold manifestDigest.
    destruct (String.eqb_spec (PushManifestParameters.Digest p) "") as [Heq|_];
      [contradiction|]. simpl.
    destruct (Validate _) as [msg|]; [eauto|].
    destruct Hbad as [Hbad| ->]; [contradiction|]. simpl. eauto. }
  exists r1, e. by rewrite (repoAt_makeRepo _ _ _ _ repoName Hmk).
Qed.

(** The first tag loop reports an invalid tag when no earlier tag ends
    it: that is the case without immutable tags, and with them when no
    requested tag is in the repository yet. *)
Lemma checkTags_invalid imm rp dig mt tagList tag :
  In tag tagList ->
  ociref.IsValidTag tag = false ->
  imm = false \/ (forall t, In t tagList -> tags rp !! t = None) ->
  checkTags imm rp dig mt tagList = Some (Err (errorString "invalid tag")).
Proof.
  intros Hin Hbad Hfree.
  induction tagList as [|t rest IH]; [destruct Hin|]. cbn [checkTags].
  destruct (ociref.IsValidTag t) eqn:Ht; simpl; [|reflexivity].
  assert (In tag rest) as Hin' by (destruct Hin as [->|]; [congruence|done]).
  assert (checkTags imm rp dig mt rest = Some (Err (errorString "invalid tag"))) as Hrest.
  { apply IH; [done|]. destruct Hfree as [->|Hfree]; [by left|right].
    intros t' Ht'. apply Hfree. by right. }
  destruct imm; [|done].
  destruct Hfree as [Hf|Hfree]; [discriminate|].
  rewrite (Hfree t) by (by left). done.
Qed.

(** X14: a requested tag that is not a valid tag makes [PushManifest] fail,
    once the digest is settled, with the plain error invalid tag, which
    carries no error code; nothing is stored.  This holds without
    immutable tags, and with them when no requested tag exists yet. *)
Theorem PushManifest_invalid_tag r repoName bytes mt params dig tag :
  ociref.IsValidRepository repoName = true ->
  manifestDigest bytes params = Ok dig ->
  In tag (requestedTags params) ->
  ociref.IsValidTag tag = false ->
  ImmutableTags (cfg r) = false \/
  (forall t, In t (requestedTags params) -> tags (repoAt r repoName) !! t = None) ->
  exists r',
    PushManifest r repoName bytes mt params = (r', Err (errorString "invalid tag")) /\
    (forall code, hasCode (errorString "invalid tag") code = false) /\
    manifests (repoAt r' repoName) = manifests (repoAt r repoName) /\
    tags (repoAt r' repoName) = tags (repoAt r repoName).
Proof.
  intros Hv Hdig Hin Hbad Hfree. unfold PushManifest.
  destruct (makeRepo r repoName) as [[r1 rp]|] eqn:Hmk.
  2: { unfold makeRepo in Hmk. rewrite Hv in Hmk. by destruct (repos r !! repoName). }
  pose proof (makeRepo_Ok _ _ _ _ Hmk) as (_ & Hrp & _ & Hcfg & _).
  rewrite Hdig, Hcfg, Hrp.
  rewrite (checkTags_invalid _ _ _ _ _ tag Hin Hbad Hfree).
  exists r1. by rewrite (repoAt_makeRepo _ _ _ _ repoName Hmk).
Qed.

(** X15: without immutable tags, or with them when no requested tag
    exists yet, a successful [PushManifest] stores what was
    pushed: the descriptor returned has the given media type, the digest
    the call settled on and the length of the bytes as its size; the
    repository holds the bytes with that media type and what
    [getManifestInfo] read from them under the digest; every requested
    tag is valid and maps to the descriptor, and every other tag is what
    it was. *)
Theorem PushManifest_stores_what_was_pushed r repoName bytes mt params r' d :
  ImmutableTags (cfg r) = false \/
  (forall t, In t (requestedTags params) -> tags (repoAt r repoName) !! t = None) ->
  PushManifest r repoName bytes mt params = (r', Ok d) ->
  exists dig minfo,
    manifestDigest bytes params = Ok dig /\
    getManifestInfo mt bytes = Ok minfo /\
    d = mkDescriptor mt dig (Z.of_nat (String.length bytes)) None "" /\
    manifests (repoAt r' repoName) !! dig = Some (mkBlob mt bytes minfo) /\
    (forall tag, In tag (requestedTags params) ->
       ociref.IsValidTag tag = true /\ tags (repoAt r' repoName) !! tag = Some d) /\
    (forall tag, ~ In tag (requestedTags params) ->
       tags (repoAt r' repoName) !! tag = tags (repoAt r repoName) !! tag).
Proof.
  intros Hmut. unfold PushManifest.
  destruct (makeRepo r repoName) as [[r1 rp]|] eqn:Hmk; [|discriminate].
  pose proof (makeRepo_Ok _ _ _ _ Hmk) as (_ & Hrp & _ & Hcfg & _).
  destruct (manifestDigest bytes params) as [dig|]; [|discriminate].
  rewrite Hcfg.
  destruct (checkTags (ImmutableTags (cfg r)) rp dig mt (requestedTags params))
    as [x|] eqn:Hct.
  { intros [= <- ->]. apply checkTags_Ok in Hct as (Himm & tag & Hin & Hl & _).
    destruct Hmut as [Hmut|Hfree]; [congruence|].
    rewrite Hrp, (Hfree tag Hin) in Hl. discriminate. }
  match goal with |- context [match ?x with Some _ => _ | None => _ end] =>
    destruct x; [discriminate|] end.
  simpl.
  destruct (checkManifestReferences r1 repoName mt bytes) as [minfo|] eqn:Hc; [|discriminate].
  intros [= <- <-]. exists dig, minfo. rewrite repoAt_setRepo. simpl.
  split; [done|]. split.
  { revert Hc. unfold checkManifestReferences.
    destruct (getManifestInfo mt bytes) as [mi|]; [|discriminate].
    destruct (LaxChildReferences (cfg r1)); [by intros [= <-]|].
    destruct (repo r1 repoName); [|discriminate].
    destruct (checkDescriptors _ _); [discriminate|]. by intros [= <-]. }
  split; [done|]. split; [apply lookup_insert_eq|]. split.
  - intros tag Hin. split; [|by apply applyTags_requested].
    destruct (ociref.IsValidTag tag) eqn:Hvt; [done|].
    rewrite (checkTags_invalid _ rp dig mt _ tag Hin Hvt) in Hct; [discriminate|].
    destruct Hmut as [Hmut|Hfree]; [by left|right]. by rewrite Hrp.
  - intros tag Hnin. rewrite Hrp. clear -Hnin. unfold applyTags.
    generalize (tags (repoAt r repoName)).
    induction (requestedTags params) as [|t rest IH]; intros tg; simpl; [done|].
    rewrite IH.
    + rewrite lookup_insert_ne; [done|]. intros ->. apply Hnin. by left.
    + intros Hin. apply Hnin. by right.
Qed.

(** X16: the reference check reports the first descriptor that fails it, by
    the path the descriptor was found at: when the descriptors before it
    have a media type and resolve, a blob reference that is not in the
    repository gives the error blob for (path) not found, and a manifest
    reference that is not there gives manifest for (path) not found. *)
Theorem checkDescriptors_reports_first_failure rp pre i post :
  Forall (fun j => CheckDescriptor (desc j) None = None /\ resolves rp j) pre ->
  CheckDescriptor (desc i) None = None ->
  (kind i = kindBlob -> blobs rp !! Digest (desc i) = None ->
   checkDescriptors rp (pre ++ i :: post)
   = Some (errorString ("blob for " +:+ name i +:+ " not found"))) /\
  (kind i = kindManifest -> manifests rp !! Digest (desc i) = None ->
   checkDescriptors rp (pre ++ i :: post)
   = Some (errorString ("manifest for " +:+ name i +:+ " not found"))).
Proof.
  intros Hpre Hi.
  assert (checkDescriptors rp (pre ++ i :: post) = checkDescriptors rp (i :: post)) as ->.
  { induction Hpre as [|j pre' [Hj Hres] _ IH]; [done|].
    cbn [app checkDescriptors]. rewrite Hj. unfold resolves in Hres.
    destruct (kind j); [destruct Hres as [x ->]|destruct Hres as [x ->]|]; exact IH. }
  cbn [checkDescriptors]. rewrite Hi. split; intros -> ->; reflexivity.
Qed.

(** X17: every state-changing call of the engine works on the repository it
    names (the destination, for a mount): all other repositories are
    what they were, whether the call succeeds or fails. *)
Theorem calls_touch_one_repository r o m :
  m <> opRepo o -> repos (exec r o) !! m = repos r !! m.
Proof.
  intros Hne.
  assert (forall n r1 rp rp', makeRepo r n = Ok (r1, rp) -> m <> n ->
            repos (setRepo r1 n rp') !! m = repos r !! m) as Hstore.
  { intros n r1 rp rp' Hmk Hn. rewrite repos_setRepo_ne by done.
    by eapply repos_makeRepo_ne. }
  destruct o as [n d content|n cs fresh|n id offset cs fresh|[n id] bytes|[n id] dig
                 |fromRepo toRepo dig|n bytes mt params|n dig|n dig|n tag];
    cbn [exec opRepo fst] in *.
  - unfold PushBlob. destruct content as [bytes|e]; [|done].
    destruct (CheckDescriptor d (Some bytes)); [done|].
    destruct (makeRepo r n) as [[r1 rp]|] eqn:Hmk; [|done]. cbn [fst]. eauto.
  - unfold PushBlobChunked, PushBlobChunkedResume.
    destruct (makeRepo r n) as [[r1 rp]|] eqn:Hmk; [|done].
    destruct (uploads rp !! ""); cbn [fst]; eauto.
  - unfold PushBlobChunkedResume.
    destruct (makeRepo r n) as [[r1 rp]|] eqn:Hmk; [|done].
    destruct (uploads rp !! id); cbn [fst]; eauto.
  - unfold Write. destruct (repos r !! n) as [rp|]; [|done].
    destruct (uploads rp !! id) as [b|]; [|done].
    destruct (negb _); [done|]. cbn [fst]. by rewrite repos_setRepo_ne.
  - unfold Commit. destruct (repos r !! n) as [rp|]; [|done].
    destruct (uploads rp !! id) as [b|]; [|done].
    destruct (negb _); [done|]. cbn [fst]. by rewrite repos_setRepo_ne.
  - unfold MountBlob.
    destruct (makeRepo r toRepo) as [[r1 rto]|] eqn:Hmk; [|done].
    destruct (blobForDigest r1 fromRepo dig); cbn [fst]; [eauto|].
    by eapply repos_makeRepo_ne.
  - unfold PushManifest.
    destruct (makeRepo r n) as [[r1 rp]|] eqn:Hmk; [|done].
    pose proof (repos_makeRepo_ne _ _ _ _ m Hmk Hne) as Hr1.
    destruct (manifestDigest bytes params) as [dg|]; [|done].
    destruct (checkTags _ rp dg mt (requestedTags params)); [done|].
    match goal with |- context [match ?x with Some _ => _ | None => _ end] =>
      destruct x; [done|] end.
    destruct (checkManifestReferences _ _ _ _); cbn [fst]; [eauto|done].
  - unfold DeleteBlob. destruct (repo r n) as [rp|]; [|done].
    cbn [fst]. by rewrite repos_setRepo_ne.
  - unfold DeleteManifest. destruct (repo r n) as [rp|]; [|done].
    cbn [fst]. by rewrite repos_setRepo_ne.
  - unfold DeleteTag. destruct (repo r n) as [rp|]; [|done].
    cbn [fst]. by rewrite repos_setRepo_ne.
Qed.

End writer.
End ocimem_store_props.

(** ** The in-memory engine: refersTo *)
Module ocimem_refers_props.
Import ociregistry ocimem.

Section reachability.
Context `{!Externals}.

(** A call that returned returns the same within a larger bound. *)
Lemma refersToItems_mono (rec rec' : list descInfo -> option (res bool)) rp dig items x :
  (forall ds y, rec ds = Some y -> rec' ds = Some y) ->
  refersToItems rec rp items dig = Some x ->
  refersToItems rec' rp items dig = Some x.
Proof.
  intros Hrec. induction items as [|i rest IH]; cbn [refersToItems]; [done|].
  destruct (String.eqb (Digest (desc i)) dig); [done|].
  destruct (kind i); [done| |];
    (destruct (manifests rp !! Digest (desc i)) as [b|]; [|done];
     destruct (getManifestInfo (MediaType (desc i)) (data b)) as [minfo|e]; [|done];
     destruct (rec (descriptors minfo)) as [[[|]|e]|] eqn:Hr; [| | |discriminate];
     rewrite (Hrec _ _ Hr); done).
Qed.

Lemma refersTo_step depth : forall rp iter dig x,
  refersTo depth rp iter dig = Some x -> refersTo (S depth) rp iter dig = Some x.
Proof.
  induction depth as [|n IH]; intros rp iter dig x; [discriminate|].
  cbn [refersTo]. apply refersToItems_mono. intros ds y. apply IH.
Qed.

Lemma refersTo_mono depth depth' rp iter dig x :
  (depth <= depth')%nat ->
  refersTo depth rp iter dig = Some x -> refersTo depth' rp iter dig = Some x.
Proof. induction 1 as [|m Hle IH]; [done|]. intros Hx. by apply refersTo_step, IH. Qed.

(** An answer of true is backed by a reference. *)
Lemma refersToItems_true (rec : list descInfo -> option (res bool)) rp dig items :
  (forall ds, rec ds = Some (Ok true) -> refers rp dig ds) ->
  refersToItems rec rp items dig = Some (Ok true) ->
  refers rp dig items.
Proof.
  intros Hrec. induction items as [|i rest IH]; cbn [refersToItems]; [discriminate|].
  assert (forall j, refers rp dig rest -> refers rp dig (j :: rest)) as Hweaken.
  { intros j Hr. destruct Hr as [i' items Hin Hd|i' items b minfo Hin Hk Hl Hg Hr].
    - apply (refers_direct _ _ i'); [by right|done].
    - apply (refers_through _ _ i' _ b minfo); [by right|done..]. }
  destruct (String.eqb_spec (Digest (desc i)) dig) as [Hd|Hd].
  { intros _. apply (refers_direct _ _ i); [by left|done]. }
  destruct (kind i) eqn:Hk; [by auto| |];
    (destruct (manifests rp !! Digest (desc i)) as [b|] eqn:Hl; [|by auto];
     destruct (getManifestInfo (MediaType (desc i)) (data b)) as [minfo|e] eqn:Hg;
       [|discriminate];
     destruct (rec (descriptors minfo)) as [[[|]|e]|] eqn:Hr;
       [|by auto|discriminate|discriminate];
     intros _; apply (refers_through _ _ i _ b minfo);
       [by left|by rewrite Hk|done|done|by apply Hrec]).
Qed.

Lemma refersTo_true depth : forall rp iter dig,
  refersTo depth rp iter dig = Some (Ok true) -> refers rp dig iter.
Proof.
  induction depth as [|n IH]; intros rp iter dig; [discriminate|].
  cbn [refersTo]. apply refersToItems_true. intros ds. apply IH.
Qed.

(** An item that has the digest, or names a stored manifest on which the
    recursive call does not answer false, keeps the loop from answering
    false. *)
Lemma refersToItems_not_false (rec : list descInfo -> option (res bool)) rp dig items i :
  In i items ->
  Digest (desc i) = dig \/
  (kind i <> kindBlob /\
   exists b minfo,
     manifests rp !! Digest (desc i) = Some b /\
     getManifestInfo (MediaType (desc i)) (data b) = Ok minfo /\
     rec (descriptors minfo) <> Some (Ok false)) ->
  refersToItems rec rp items dig <> Some (Ok false).
Proof.
  intros Hin Hi. induction items as [|j rest IH]; [destruct Hin|].
  cbn [refersToItems].
  destruct (String.eqb_spec (Digest (desc j)) dig) as [Hd|Hd]; [discriminate|].
  destruct Hin as [->|Hin].
  - destruct Hi as [Hi|(Hk & b & minfo & Hl & Hg & Hr)]; [contradiction|].
    rewrite Hl, Hg.
    destruct (kind i); [contradiction| |];
      (destruct (rec (descriptors minfo)) as [[[|]|e]|];
         [discriminate|contradiction|discriminate|discriminate]).
  - specialize (IH Hin).
    destruct (kind j); [done| |];
      (destruct (manifests rp !! Digest (desc j)) as [b|]; [|done];
       destruct (getManifestInfo (MediaType (desc j)) (data b)) as [minfo|e];
         [|discriminate];
       destruct (rec (descriptors minfo)) as [[[|]|e]|];
         [discriminate|done|discriminate|discriminate]).
Qed.

Lemma refers_not_false rp dig iter :
  refers rp dig iter -> forall depth, refersTo depth rp iter dig <> Some (Ok false).
Proof.
  induction 1 as [i items Hin Hd|i items b minfo Hin Hk Hl Hg Hr IH];
    intros [|n]; cbn [refersTo]; try discriminate.
  - apply (refersToItems_not_false _ _ _ _ i Hin). by left.
  - apply (refersToItems_not_false _ _ _ _ i Hin). right. split; [done|].
    exists b, minfo. auto.
Qed.

(** X18: whenever [refersTo] returns an answer without an error, the answer is
    right: it is true exactly when the digest is referred to from the
    items of the iterator, directly or through manifests stored in the
    repository. *)
Theorem refersTo_answers_reachability depth rp iter dig answer :
  refersTo depth rp iter dig = Some (Ok answer) ->
  (answer = true <-> refers rp dig iter).
Proof.
  intros Hr. split.
  - intros ->. by eapply refersTo_true.
  - intros Href. destruct answer; [done|]. by destruct (refers_not_false _ _ _ Href depth).
Qed.

(** X19: when no item names a manifest that the repository holds, [refersTo]
    returns without a recursive call and without reading any manifest,
    and its answer is whether one of the items has the digest. *)
Theorem refersTo_without_stored_manifests depth rp iter dig :
  Forall (fun i => kind i = kindBlob \/ manifests rp !! Digest (desc i) = None) iter ->
  refersTo (S depth) rp iter dig
  = Some (Ok (existsb (fun i => String.eqb (Digest (desc i)) dig) iter)).
Proof.
  cbn [refersTo]. induction 1 as [|i rest Hi _ IH]; cbn [refersToItems existsb]; [done|].
  destruct (String.eqb (Digest (desc i)) dig); [done|]. simpl.
  destruct Hi as [-> | Hnone]; [done|].
  rewrite Hnone. by destruct (kind i).
Qed.

(** The loop returns when the recursive calls it makes return. *)
Lemma refersToItems_returns (rec : list descInfo -> option (res bool)) rp dig items :
  Forall (fun i =>
    forall b minfo,
      kind i <> kindBlob ->
      manifests rp !! Digest (desc i) = Some b ->
      getManifestInfo (MediaType (desc i)) (data b) = Ok minfo ->
      exists x, rec (descriptors minfo) = Some x) items ->
  exists x, refersToItems rec rp items dig = Some x.
Proof.
  induction 1 as [|i rest Hi _ IH]; cbn [refersToItems]; [eauto|].
  destruct (String.eqb (Digest (desc i)) dig); [eauto|].
  destruct (manifests rp !! Digest (desc i)) as [b|] eqn:Hl.
  2: { by destruct (kind i). }
  destruct (getManifestInfo (MediaType (desc i)) (data b)) as [minfo|e] eqn:Hg.
  2: { destruct (kind i); eauto. }
  destruct (kind i) eqn:Hk; [done| |];
    (destruct (Hi b minfo ltac:(done) eq_refl Hg) as [[[|]|e] ->]; eauto).
Qed.

(** X20: [refersTo] returns whenever the manifests it has to read nest
    boundedly: when the manifests that the items lead to nest at most [n]
    deep, the call returns, with an answer or with the error of a
    manifest that cannot be read, within [n + 1] nested calls. *)
Theorem refersTo_returns_when_nesting_is_bounded n : forall rp iter dig,
  nests n rp iter ->
  exists x, refersTo (S n) rp iter dig = Some x.
Proof.
  induction n as [|m IH]; intros rp iter dig Hn;
    change (refersTo (S ?k) rp iter dig)
      with (refersToItems (fun ds => refersTo k rp ds dig) rp iter dig);
    apply refersToItems_returns; cbn [nests] in Hn;
    (eapply Forall_impl; [exact Hn|]); intros i Hi b minfo Hk Hl Hg.
  - destruct (Hi b minfo Hk Hl Hg).
  - apply IH. by apply (Hi b minfo).
Qed.

End reachability.
End ocimem_refers_props.

(** ** The image builder: what a builder can hold *)
Module ocibuilder_invariants.
Import ociregistry ocibuilder.

Lemma append_nil_r s : s +:+ "" = s.
Proof.
  induction s as [|c s IH]; [reflexivity|].
  change (String c (s +:+ "") = String c s). by rewrite IH.
Qed.

Lemma append_assoc s t u : (s +:+ t) +:+ u = s +:+ (t +:+ u).
Proof.
  induction s as [|c s IH]; [reflexivity|].
  change (String c ((s +:+ t) +:+ u) = String c (s +:+ (t +:+ u))). by rewrite IH.
Qed.

Lemma concat_cons c rest : String.concat "" (c :: rest) = c +:+ String.concat "" rest.
Proof.
  destruct rest as [|r rest]; [|reflexivity].
  change (c = c +:+ ""). by rewrite append_nil_r.
Qed.

Section builder.
Context `{Client}.

(** The bytes hashed by the read loop are the chunks, in order. *)
Lemma pushChunks_hashed chunks : forall bw hashed bw' hashed',
  pushChunks bw hashed chunks = Ok (bw', hashed') ->
  hashed' = hashed +:+ String.concat "" chunks.
Proof.
  induction chunks as [|chunk rest IH]; intros bw hashed bw' hashed'.
  - simpl. intros [= _ <-]. by rewrite append_nil_r.
  - cbn [pushChunks]. destruct (writeChunk 3 bw chunk) as [bw1 [e|]]; [discriminate|].
    intros Hrest. apply IH in Hrest. by rewrite Hrest, concat_cons, append_assoc.
Qed.

(** Assignments into a map that is not nil do not panic. *)
Lemma assignAll_Some entries : forall m, exists m', assignAll (Some m) entries = Returns (Some m').
Proof.
  induction entries as [|[k v] rest IH]; intros m; simpl; [eauto|]. apply IH.
Qed.

Lemma AddLayer_error ib layer ib' e :
  AddLayer ib layer = (ib', Some e) -> ib' = ib.
Proof. unfold AddLayer. destruct (0 <? _)%nat; [by intros [= <- _]|discriminate]. Qed.

Lemma AddLayer_Ok ib layer ib' :
  AddLayer ib layer = (ib', None) ->
  Manifests (manifest ib) = [] /\
  ib' = setManifest ib
          (mkManifestOrIndex (SchemaVersion (manifest ib)) (mMediaType (manifest ib))
             (mArtifactType (manifest ib)) (Manifests (manifest ib)) (Config (manifest ib))
             (Layers (manifest ib) ++ [layer])%list (Subject (manifest ib))
             (mAnnotations (manifest ib))).
Proof.
  unfold AddLayer. destruct (Manifests (manifest ib)) as [|d ds]; simpl; [|discriminate].
  by intros [= <-].
Qed.

(** X21: [PushLayer], when it returns: without an error the chunks were
    written, the commit was made with the canonical digest of all the
    chunks in order, the builder holds no manifests, and the committed
    descriptor with the given media type is the new last layer; with an
    error the builder is as it was. *)
Theorem PushLayer_returns ib mt chunks ann ib' e :
  PushLayer ib mt chunks ann = Returns (ib', e) ->
  match e with
  | None =>
      exists bw bw' d a,
        fst (clientPushBlobChunked (repository ib) CHUNK_SIZE) = Some bw /\
        pushChunks bw "" chunks = Ok (bw', String.concat "" chunks) /\
        writerCommit bw' (canonicalDigest (String.concat "" chunks)) = (d, None) /\
        assignAll (Annotations d) (map_to_list ann) = Returns a /\
        Manifests (manifest ib) = [] /\
        repository ib' = repository ib /\
        Layers (manifest ib')
        = (Layers (manifest ib)
           ++ [mkDescriptor mt (Digest d) (Size d) a (ArtifactType d)])%list
  | Some _ => ib' = ib
  end.
Proof.
  unfold PushLayer.
  destruct (fst (clientPushBlobChunked _ _)) as [bw|]; [|discriminate].
  destruct (pushChunks bw "" chunks) as [[bw' hashed]|e'] eqn:Hchunks;
    [|by intros [= <- <-]].
  pose proof (pushChunks_hashed _ _ _ _ _ Hchunks) as Hh. simpl in Hh. subst hashed.
  destruct (writerCommit bw' _) as [d [e'|]] eqn:Hcommit; [by intros [= <- <-]|].
  simpl. destruct (assignAll _ _) as [a|] eqn:Ha; [|discriminate].
  intros Hr. injection Hr as Hr. destruct e as [e|].
  - by apply AddLayer_error in Hr.
  - apply AddLayer_Ok in Hr as [Hm ->]. exists bw, bw', d, a. simpl. auto 10.
Qed.

(** On a builder with a client and a reader that is not nil, [PushLayer]
    panics when the client gave no writer, or when the chunks were
    written, the commit returned a descriptor without an annotations map,
    and annotations were passed; and in no other case. *)
Lemma PushLayer_panics_cases ib mt chunks (ann : gmap string string) :
  isPanic (PushLayer ib mt chunks ann) = true <->
  fst (clientPushBlobChunked (repository ib) CHUNK_SIZE) = None \/
  exists bw bw' hashed d,
    fst (clientPushBlobChunked (repository ib) CHUNK_SIZE) = Some bw /\
    pushChunks bw "" chunks = Ok (bw', hashed) /\
    writerCommit bw' (canonicalDigest hashed) = (d, None) /\
    Annotations d = None /\
    ann <> ∅.
Proof.
  unfold PushLayer. split.
  - destruct (fst (clientPushBlobChunked _ _)) as [bw|]; [|by left].
    destruct (pushChunks bw "" chunks) as [[bw' hashed]|e'] eqn:Hchunks; [|discriminate].
    destruct (writerCommit bw' _) as [d [e'|]] eqn:Hcommit; [discriminate|]. simpl.
    destruct (Annotations d) as [m|] eqn:Hann.
    + destruct (assignAll_Some (map_to_list ann) m) as [m' ->]. discriminate.
    + intros Hp. right. exists bw, bw', hashed, d. repeat split; auto.
      intros ->. rewrite map_to_list_empty in Hp. discriminate.
  - intros [->|(bw & bw' & hashed & d & -> & -> & -> & Hann & Hne)]; [reflexivity|].
    simpl. rewrite Hann.
    destruct (map_to_list ann) as [|[k v] rest] eqn:Hl; [|reflexivity].
    by apply map_to_list_empty_iff in Hl.
Qed.

(** X22: a call of [PushLayer] whose reader reaches its end and whose
    client and reader methods return panics in exactly these cases: the
    reader is nil; the builder is nil or has no client; the client gave
    no writer (its error is discarded); or the chunks were written, the
    commit returned a descriptor without an annotations map, and
    annotations were passed. *)
Theorem PushLayerCall_panics_iff receiver mt reader (ann : gmap string string) :
  isPanic (PushLayerCall receiver mt reader ann) = true <->
  reader = None \/
  receiver = None \/
  (exists ib, receiver = Some (false, ib)) \/
  exists ib chunks,
    receiver = Some (true, ib) /\ reader = Some chunks /\
    (fst (clientPushBlobChunked (repository ib) CHUNK_SIZE) = None \/
     exists bw bw' hashed d,
       fst (clientPushBlobChunked (repository ib) CHUNK_SIZE) = Some bw /\
       pushChunks bw "" chunks = Ok (bw', hashed) /\
       writerCommit bw' (canonicalDigest hashed) = (d, None) /\
       Annotations d = None /\
       ann <> ∅).
Proof.
  unfold PushLayerCall. split.
  - destruct reader as [chunks|]; [|by left].
    destruct receiver as [[[|] ib]|]; [|by right; right; left; exists ib|by right; left].
    intros Hp. right. right. right. exists ib, chunks.
    split; [done|]. split; [done|].
    exact (proj1 (PushLayer_panics_cases ib mt chunks ann) Hp).
  - intros [->|[->|[[ib ->]|(ib & chunks & -> & -> & Hcases)]]].
    + reflexivity.
    + by destruct reader.
    + by destruct reader.
    + exact (proj2 (PushLayer_panics_cases ib mt chunks ann) Hcases).
Qed.

(** X23: the three attempts at one chunk fail together or not at all: the
    chunk is reported as failed exactly when three writes in a row
    failed, each on the writer the attempt before left, and the error is
    the one of the third. *)
Theorem writeChunk_fails_iff bw chunk bw3 e :
  writeChunk 3 bw chunk = (bw3, Some e) <->
  exists bw1 e1 bw2 e2,
    writerWrite bw chunk = (bw1, Some e1) /\
    writerWrite bw1 chunk = (bw2, Some e2) /\
    writerWrite bw2 chunk = (bw3, Some e).
Proof.
  cbn [writeChunk]. split.
  - destruct (writerWrite bw chunk) as [bw1 [e1|]] eqn:H1; [|discriminate].
    destruct (writerWrite bw1 chunk) as [bw2 [e2|]] eqn:H2; [|discriminate].
    destruct (writerWrite bw2 chunk) as [bw3' [e3|]] eqn:H3; [|discriminate].
    intros [= <- <-]. exists bw1, e1, bw2, e2. auto.
  - intros (bw1 & e1 & bw2 & e2 & -> & -> & ->). reflexivity.
Qed.

(** *** What the builder holds after any calls *)

(** What [PushLayer] leaves is the builder as it was or what [AddLayer]
    leaves. *)
Lemma PushLayer_builder ib mt chunks ann ib' e :
  PushLayer ib mt chunks ann = Returns (ib', e) ->
  ib' = ib \/ exists layer, ib' = fst (AddLayer ib layer).
Proof.
  unfold PushLayer.
  destruct (fst (clientPushBlobChunked _ _)) as [bw|]; [|discriminate].
  destruct (pushChunks bw "" chunks) as [[bw' hashed]|e']; [|intros [= <- _]; by left].
  destruct (writerCommit bw' _) as [d [e'|]]; [intros [= <- _]; by left|].
  destruct (assignAll _ _) as [a|]; [|discriminate].
  intros Hr. injection Hr as Hr. right. eexists. by rewrite Hr.
Qed.

Lemma AddLayer_exclusive ib layer :
  Layers (manifest ib) = [] \/ Manifests (manifest ib) = [] ->
  Layers (manifest (fst (AddLayer ib layer))) = [] \/
  Manifests (manifest (fst (AddLayer ib layer))) = [].
Proof.
  unfold AddLayer. destruct (Manifests (manifest ib)) as [|d ds] eqn:Hm; simpl.
  - intros _. by right.
  - rewrite Hm. auto.
Qed.

Lemma after_exclusive ib c ib' :
  after ib c = Some ib' ->
  Layers (manifest ib) = [] \/ Manifests (manifest ib) = [] ->
  Layers (manifest ib') = [] \/ Manifests (manifest ib') = [].
Proof.
  destruct c as [a|s|d|d|d|key value|mt chunks ann]; simpl.
  - by intros [= <-].
  - by intros [= <-].
  - intros [= <-]. unfold SetConfig. by destruct (0 <? _)%nat.
  - intros [= <-]. apply AddLayer_exclusive.
  - intros [= <-]. unfold AddManifest.
    destruct (Layers (manifest ib)) as [|l ls] eqn:Hl; simpl.
    + intros _. by left.
    + rewrite Hl. auto.
  - unfold AddAnnotation. destruct (mapAssign _ _ _); [|discriminate]. by intros [= <-].
  - destruct (PushLayer ib mt chunks ann) as [[ib1 e]|] eqn:Hp; [|discriminate].
    intros [= <-] Hinv.
    apply PushLayer_builder in Hp as [->|[layer ->]]; [done|by apply AddLayer_exclusive].
Qed.

(** X24: a builder never holds layers and manifests together: whatever
    sequence of calls is made on a builder that [New] returned, and
    whether the calls succeed or return errors, its layers or its
    manifests are empty. *)
Theorem builder_layers_or_manifests repo cs ib :
  afterAll (New repo) cs = Some ib ->
  Layers (manifest ib) = [] \/ Manifests (manifest ib) = [].
Proof.
  assert (forall cs ib0 ib1,
            afterAll ib0 cs = Some ib1 ->
            Layers (manifest ib0) = [] \/ Manifests (manifest ib0) = [] ->
            Layers (manifest ib1) = [] \/ Manifests (manifest ib1) = []) as Hall.
  { clear. intros cs. induction cs as [|c rest IH]; intros ib0 ib1; simpl.
    - by intros [= <-].
    - destruct (after ib0 c) as [ib'|] eqn:Ha; [|discriminate].
      intros Hrest Hinv. eapply IH; [exact Hrest|]. by eapply after_exclusive. }
  intros Hcs. eapply Hall; [exact Hcs|]. by left.
Qed.

Lemma AddLayer_header ib layer :
  repository (fst (AddLayer ib layer)) = repository ib /\
  SchemaVersion (manifest (fst (AddLayer ib layer))) = SchemaVersion (manifest ib) /\
  mMediaType (manifest (fst (AddLayer ib layer))) = mMediaType (manifest ib) /\
  Manifests (manifest (fst (AddLayer ib layer))) = Manifests (manifest ib).
Proof. unfold AddLayer. by destruct (0 <? _)%nat. Qed.

Lemma after_header ib c ib' repo :
  after ib c = Some ib' ->
  repository ib = repo /\
  SchemaVersion (manifest ib) = 2%Z /\
  mMediaType (manifest ib)
  = match Manifests (manifest ib) with
    | [] => "application/vnd.oci.image.manifest.v1+json"
    | _ :: _ => "application/vnd.oci.image.index.v1+json"
    end ->
  repository ib' = repo /\
  SchemaVersion (manifest ib') = 2%Z /\
  mMediaType (manifest ib')
  = match Manifests (manifest ib') with
    | [] => "application/vnd.oci.image.manifest.v1+json"
    | _ :: _ => "application/vnd.oci.image.index.v1+json"
    end.
Proof.
  destruct c as [a|s|d|d|d|key value|mt chunks ann]; simpl.
  - by intros [= <-].
  - by intros [= <-].
  - intros [= <-]. unfold SetConfig. by destruct (0 <? _)%nat.
  - intros [= <-]. destruct (AddLayer_header ib d) as (-> & -> & -> & ->). done.
  - intros [= <-]. unfold AddManifest. destruct (0 <? _)%nat; simpl; [done|].
    intros (Hr & Hs & _). repeat split; [done|done|].
    by destruct (Manifests (manifest ib)).
  - unfold AddAnnotation. destruct (mapAssign _ _ _); [|discriminate]. by intros [= <-].
  - destruct (PushLayer ib mt chunks ann) as [[ib1 e]|] eqn:Hp; [|discriminate].
    intros [= <-] Hinv.
    apply PushLayer_builder in Hp as [->|[layer ->]]; [done|].
    destruct (AddLayer_header ib layer) as (-> & -> & -> & ->). done.
Qed.

(** X25: the media type of the manifest follows its manifests: whatever
    sequence of calls is made on a builder that [New] returned, the
    builder keeps its repository and schema version 2, and its media type
    is the image manifest type while it holds no manifests and the image
    index type once it holds one. *)
Theorem builder_media_type_follows_manifests repo cs ib :
  afterAll (New repo) cs = Some ib ->
  repository ib = repo /\
  SchemaVersion (manifest ib) = 2%Z /\
  mMediaType (manifest ib)
  = match Manifests (manifest ib) with
    | [] => "application/vnd.oci.image.manifest.v1+json"
    | _ :: _ => "application/vnd.oci.image.index.v1+json"
    end.
Proof.
  assert (forall cs ib0 ib1,
            afterAll ib0 cs = Some ib1 ->
            repository ib0 = repo /\
            SchemaVersion (manifest ib0) = 2%Z /\
            mMediaType (manifest ib0)
            = match Manifests (manifest ib0) with
              | [] => "application/vnd.oci.image.manifest.v1+json"
              | _ :: _ => "application/vnd.oci.image.index.v1+json"
              end ->
            repository ib1 = repo /\
            SchemaVersion (manifest ib1) = 2%Z /\
            mMediaType (manifest ib1)
            = match Manifests (manifest ib1) with
              | [] => "application/vnd.oci.image.manifest.v1+json"
              | _ :: _ => "application/vnd.oci.image.index.v1+json"
              end) as Hall.
  { intros cs0. induction cs0 as [|c rest IH]; intros ib0 ib1; simpl.
    - by intros [= <-].
    - destruct (after ib0 c) as [ib'|] eqn:Ha; [|discriminate].
      intros Hrest Hinv. eapply IH; [exact Hrest|]. by eapply after_header. }
  intros Hcs. eapply Hall; [exact Hcs|]. repeat split.
Qed.

(** X26: the guards of [SetConfig] and [AddManifest] look at different fields,
    so the two calls do not commute: on a builder without layers and
    manifests, [SetConfig] and then [AddManifest] both succeed and leave
    an index that carries a config, while [AddManifest] and then
    [SetConfig] leaves the index without a config and the second call
    returns an error. *)
Theorem SetConfig_AddManifest_order ib config d :
  Layers (manifest ib) = [] ->
  Manifests (manifest ib) = [] ->
  (exists ib2,
     AddManifest (fst (SetConfig ib config)) d = (ib2, None) /\
     Config (manifest ib2) = Some config /\
     Manifests (manifest ib2) = [d] /\
     mMediaType (manifest ib2) = "application/vnd.oci.image.index.v1+json") /\
  snd (AddManifest ib d) = None /\
  SetConfig (fst (AddManifest ib d)) config
  = (fst (AddManifest ib d), Some (errorString "cannot set config on index manifest")) /\
  Config (manifest (fst (AddManifest ib d))) = Config (manifest ib).
Proof.
  intros Hl Hm. unfold SetConfig, AddManifest. rewrite Hm, Hl. simpl.
  rewrite ?Hl, ?Hm. simpl. split; [|done].
  eexists. split; [reflexivity|]. done.
Qed.

End builder.
End ocibuilder_invariants.

(** ** The immutable filter on concrete pushes *)
Module ocifilter_examples.
Import ociregistry ocimem demo.

Lemma immutable_PushManifest_denies_witness :
  immutable_engine.PushManifest mutableV1Old "foo/bar" manifestA imageManifest
    (tagged ["v1"; "old"])
  = (mutableV1Old, Err ocifilter.errImmutable) /\
  hasCode ocifilter.errImmutable "DENIED" = true.
Proof.
  apply (ocifilter_props.immutable_PushManifest_denies_changed_tag
           fromBytes ResolveTag PushManifest mutableV1Old "foo/bar" manifestA imageManifest
           (PushManifestParameters.mk ["v1"; "old"] "") "old" descB).
  - right. left. reflexivity.
  - vm_compute. reflexivity.
  - vm_compute. discriminate.
Defined.

Lemma immutable_PushManifest_keeps_witness :
  PushManifest mutableV1 "foo/bar" manifestA imageManifest (tagged ["v1"; "v2"])
  = (fst (PushManifest mutableV1 "foo/bar" manifestA imageManifest (tagged ["v1"; "v2"])),
     Ok descA) /\
  (exists new,
     ResolveTag
       (fst (PushManifest mutableV1 "foo/bar" manifestA imageManifest (tagged ["v1"; "v2"])))
       "foo/bar" "v2" = Ok new /\
     Digest new = ocifilter.requestDigest fromBytes manifestA (tagged ["v1"; "v2"])) /\
  (forall old,
     ResolveTag mutableV1 "foo/bar" "v2" = Ok old ->
     Digest old = ocifilter.requestDigest fromBytes manifestA (tagged ["v1"; "v2"])).
Proof.
  apply (ocifilter_props.immutable_PushManifest_keeps_tag_digests
           fromBytes ResolveTag PushManifest mutableV1 "foo/bar" manifestA imageManifest
           (PushManifestParameters.mk ["v1"; "v2"] "")).
  - vm_compute. reflexivity.
  - right. left. reflexivity.
Defined.

Lemma immutable_engine_keeps_witness :
  exists rp',
    repos (immutable_engine.run mutableV1
             [opDeleteTag "foo/bar" "v1";
              opPushManifest "foo/bar" manifestB imageManifest (tagged ["v1"; "v2"]);
              opDeleteManifest "foo/bar" (Digest descA)]) !! "foo/bar" = Some rp' /\
    immutable_engine.repoKept (repoAt mutableV1 "foo/bar") rp'.
Proof.
  apply (immutable_engine_props.immutable_engine_keeps_what_it_holds mutableV1
           [opDeleteTag "foo/bar" "v1";
            opPushManifest "foo/bar" manifestB imageManifest (tagged ["v1"; "v2"]);
            opDeleteManifest "foo/bar" (Digest descA)]
           "foo/bar" (repoAt mutableV1 "foo/bar")).
  vm_compute. reflexivity.
Defined.

(** Without the filter the engine lets go of a tag. *)
Example engine_alone_drops_a_tag :
  tags (repoAt mutableV1 "foo/bar") !! "v1" = Some descA /\
  tags (repoAt (run mutableV1 [opDeleteTag "foo/bar" "v1"]) "foo/bar") !! "v1" = None /\
  tags (repoAt (immutable_engine.run mutableV1 [opDeleteTag "foo/bar" "v1"]) "foo/bar") !! "v1"
  = Some descA.
Proof. repeat split; vm_compute; reflexivity. Qed.

(** And it lets a tag move to another manifest, which the filter denies. *)
Example engine_alone_moves_a_tag :
  Digest <$> tags (repoAt (run mutableV1
                     [opPushManifest "foo/bar" manifestB imageManifest (tagged ["v1"])])
                   "foo/bar") !! "v1" = Some (Digest descB) /\
  Digest <$> tags (repoAt (immutable_engine.run mutableV1
                     [opPushManifest "foo/bar" manifestB imageManifest (tagged ["v1"])])
                   "foo/bar") !! "v1" = Some (Digest descA).
Proof. split; vm_compute; reflexivity. Qed.

End ocifilter_examples.

(** ** The engine on concrete calls, continued *)
Module ocimem_store_examples.
Import ociregistry ocimem demo.

Lemma PushBlob_all_or_nothing_witness :
  (configDesc = configDesc /\
   exists bytes,
     (Ok configBytes : res string) = Ok bytes /\
     CheckDescriptor configDesc (Some bytes) = None /\
     blobs (repoAt configPushed "foo/bar") !! Digest configDesc
     = Some (mkBlob (MediaType configDesc) bytes zeroManifestInfo)) /\
  NewWithConfig defaultCfg = NewWithConfig defaultCfg.
Proof.
  split.
  - apply (ocimem_store_props.PushBlob_all_or_nothing
             (NewWithConfig defaultCfg) "foo/bar" configDesc (Ok configBytes)
             configPushed (Ok configDesc)).
    vm_compute. reflexivity.
  - apply (ocimem_store_props.PushBlob_all_or_nothing
             (NewWithConfig defaultCfg) "foo/bar" mismatchedDesc (Ok "foo")
             (NewWithConfig defaultCfg)
             (Err (errorString "invalid descriptor: digest mismatch"))).
    vm_compute. reflexivity.
Defined.

Lemma MountBlob_shares_witness :
  exists b,
    blobs (repoAt configPushed "foo/bar") !! configDigest = Some b /\
    blobs (repoAt (fst (MountBlob configPushed "foo/bar" "foo/dst" configDigest)) "foo/dst")
      !! configDigest = Some b /\
    blobs (repoAt (fst (MountBlob configPushed "foo/bar" "foo/dst" configDigest)) "foo/bar")
      !! configDigest = Some b /\
    mkDescriptor imageConfig configDigest 2 None "" = descriptor b.
Proof.
  apply (ocimem_store_props.MountBlob_shares_the_blob configPushed "foo/bar" "foo/dst").
  vm_compute. reflexivity.
Defined.

Lemma failed_calls_witness :
  (setRepo (NewWithConfig defaultCfg) "foo/dst" emptyRepository = NewWithConfig defaultCfg \/
   (repos (NewWithConfig defaultCfg) !! "foo/dst" = None /\
    setRepo (NewWithConfig defaultCfg) "foo/dst" emptyRepository
    = setRepo (NewWithConfig defaultCfg) "foo/dst" emptyRepository)) /\
  (configPushed = configPushed \/
   (repos configPushed !! "foo/bar" = None /\
    configPushed = setRepo configPushed "foo/bar" emptyRepository)).
Proof.
  destruct ocimem_store_props.failed_calls_store_nothing as (Hmount & Hpush).
  split.
  - apply (Hmount (NewWithConfig defaultCfg) "foo/src" "foo/dst" configDigest _ ErrNameUnknown).
    vm_compute. reflexivity.
  - apply (Hpush configPushed "foo/bar" manifestA imageManifest (tagged ["bad-Tag!"]) _
             (errorString "invalid tag")).
    vm_compute. reflexivity.
Defined.

Lemma failed_MountBlob_witness :
  exists r' e,
    MountBlob (NewWithConfig defaultCfg) "foo/src" "foo/dst" configDigest = (r', Err e) /\
    repos r' !! "foo/dst" = Some (repoAt (NewWithConfig defaultCfg) "foo/dst") /\
    (forall m, m <> "foo/dst" -> repos r' !! m = repos (NewWithConfig defaultCfg) !! m).
Proof.
  apply ocimem_store_props.failed_MountBlob_makes_destination; reflexivity.
Defined.

Lemma PushManifest_bad_digest_witness :
  exists r' e,
    PushManifest configPushed "foo/bar" manifestA imageManifest
      (Some (PushManifestParameters.mk ["v1"] absentDigest)) = (r', Err e) /\
    hasCode e "DIGEST_INVALID" = true /\
    manifests (repoAt r' "foo/bar") = manifests (repoAt configPushed "foo/bar") /\
    tags (repoAt r' "foo/bar") = tags (repoAt configPushed "foo/bar").
Proof.
  apply ocimem_store_props.PushManifest_bad_digest_is_DIGEST_INVALID.
  - reflexivity.
  - discriminate.
  - right. vm_compute. reflexivity.
Defined.

Lemma PushManifest_invalid_tag_witness :
  exists r',
    PushManifest configPushed "foo/bar" manifestA imageManifest (tagged ["v1"; "bad-Tag!"])
    = (r', Err (errorString "invalid tag")) /\
    (forall code, hasCode (errorString "invalid tag") code = false) /\
    manifests (repoAt r' "foo/bar") = manifests (repoAt configPushed "foo/bar") /\
    tags (repoAt r' "foo/bar") = tags (repoAt configPushed "foo/bar").
Proof.
  apply (ocimem_store_props.PushManifest_invalid_tag configPushed "foo/bar" manifestA
           imageManifest (tagged ["v1"; "bad-Tag!"]) (Digest descA) "bad-Tag!").
  - reflexivity.
  - vm_compute. reflexivity.
  - right. left. reflexivity.
  - reflexivity.
  - left. reflexivity.
Defined.

Lemma PushManifest_stores_witness :
  exists dig minfo,
    manifestDigest manifestA (tagged ["v1"; "v2"]) = Ok dig /\
    getManifestInfo imageManifest manifestA = Ok minfo /\
    descA = mkDescriptor imageManifest dig (Z.of_nat (String.length manifestA)) None "" /\
    manifests (repoAt (fst (PushManifest configPushed "foo/bar" manifestA imageManifest
                              (tagged ["v1"; "v2"]))) "foo/bar") !! dig
    = Some (mkBlob imageManifest manifestA minfo) /\
    (forall tag, In tag (requestedTags (tagged ["v1"; "v2"])) ->
       ociref.IsValidTag tag = true /\
       tags (repoAt (fst (PushManifest configPushed "foo/bar" manifestA imageManifest
                            (tagged ["v1"; "v2"]))) "foo/bar") !! tag = Some descA) /\
    (forall tag, ~ In tag (requestedTags (tagged ["v1"; "v2"])) ->
       tags (repoAt (fst (PushManifest configPushed "foo/bar" manifestA imageManifest
                            (tagged ["v1"; "v2"]))) "foo/bar") !! tag
       = tags (repoAt configPushed "foo/bar") !! tag).
Proof.
  apply (ocimem_store_props.PushManifest_stores_what_was_pushed configPushed "foo/bar").
  - left. reflexivity.
  - vm_compute. reflexivity.
Defined.

Lemma checkDescriptors_first_failure_witness :
  (kind configRef = kindBlob ->
   blobs emptyRepository !! Digest (desc configRef) = None ->
   checkDescriptors emptyRepository ([subjectRef] ++ configRef :: [])
   = Some (errorString ("blob for " +:+ name configRef +:+ " not found"))) /\
  (kind configRef = kindManifest ->
   manifests emptyRepository !! Digest (desc configRef) = None ->
   checkDescriptors emptyRepository ([subjectRef] ++ configRef :: [])
   = Some (errorString ("manifest for " +:+ name configRef +:+ " not found"))).
Proof.
  apply ocimem_store_props.checkDescriptors_reports_first_failure.
  - apply Forall_cons_2; [|apply Forall_nil_2]. split; [reflexivity|exact I].
  - reflexivity.
Defined.

Lemma calls_touch_one_repository_witness :
  repos (exec configPushed (opMountBlob "foo/bar" "foo/dst" configDigest)) !! "foo/bar"
  = repos configPushed !! "foo/bar".
Proof.
  apply ocimem_store_props.calls_touch_one_repository. simpl. discriminate.
Defined.

(** The blob for the config of manifest A is missing: the error names the
    path. *)
Example missing_config_is_named :
  snd (PushManifest (NewWithConfig defaultCfg) "foo/bar" manifestA imageManifest (tagged ["v1"]))
  = Err (errorString "invalid manifest: blob for config not found").
Proof. vm_compute. reflexivity. Qed.

Lemma refersTo_answers_witness :
  true = true <-> refers (repoAt pushedV1 "foo/bar") configDigest [manifestRef].
Proof.
  apply (ocimem_refers_props.refersTo_answers_reachability 2).
  vm_compute. reflexivity.
Defined.

Lemma refersTo_without_stored_manifests_witness :
  refersTo 1 emptyRepository [manifestRef; configRef] configDigest
  = Some (Ok (existsb (fun i => String.eqb (Digest (desc i)) configDigest)
                [manifestRef; configRef])).
Proof.
  apply ocimem_refers_props.refersTo_without_stored_manifests.
  apply Forall_cons_2; [by right|]. apply Forall_cons_2; [by left|]. apply Forall_nil_2.
Defined.

Lemma refersTo_returns_witness :
  exists x, refersTo 2 (repoAt pushedV1 "foo/bar") [manifestRef] absentDigest = Some x.
Proof.
  apply ocimem_refers_props.refersTo_returns_when_nesting_is_bounded.
  cbn [nests]. apply Forall_cons_2; [|apply Forall_nil_2].
  intros b minfo _ Hl Hg. vm_compute in Hl. injection Hl as <-.
  vm_compute in Hg. injection Hg as <-.
  apply Forall_cons_2; [|apply Forall_nil_2].
  intros b minfo Hk _ _. by destruct Hk.
Defined.

(** A digest that nothing refers to: the call looks into manifest A and
    answers false. *)
Example refersTo_unreferenced :
  refersTo 2 (repoAt pushedV1 "foo/bar") [manifestRef] absentDigest = Some (Ok false) /\
  refersTo 1 (repoAt pushedV1 "foo/bar") [manifestRef] absentDigest = None.
Proof. split; vm_compute; reflexivity. Qed.

End ocimem_store_examples.

(** ** The image builder on a concrete client, continued *)
Module ocibuilder_more_examples.
Import ociregistry ocibuilder demo.

Lemma PushLayer_returns_witness :
  exists bw bw' d a,
    fst (clientPushBlobChunked (repository (New "jcarter3/index_test")) CHUNK_SIZE) = Some bw /\
    pushChunks bw "" ["foo"; "bar"] = Ok (bw', String.concat "" ["foo"; "bar"]) /\
    writerCommit bw' (canonicalDigest (String.concat "" ["foo"; "bar"])) = (d, None) /\
    assignAll (Annotations d) (map_to_list (∅ : gmap string string)) = Returns a /\
    Manifests (manifest (New "jcarter3/index_test")) = [] /\
    repository (fst (AddLayer (New "jcarter3/index_test")
                       (mkDescriptor "llm_thing" (fromBytes "foobar") 6 None "")))
    = repository (New "jcarter3/index_test") /\
    Layers (manifest (fst (AddLayer (New "jcarter3/index_test")
                             (mkDescriptor "llm_thing" (fromBytes "foobar") 6 None ""))))
    = (Layers (manifest (New "jcarter3/index_test"))
       ++ [mkDescriptor "llm_thing" (Digest d) (Size d) a (ArtifactType d)])%list.
Proof.
  apply (ocibuilder_invariants.PushLayer_returns
           (New "jcarter3/index_test") "llm_thing" ["foo"; "bar"] ∅ _ None).
  vm_compute. reflexivity.
Defined.

(** The nil reader, the builder without a client, and the call of
    Test_Boop with a reader that yields two chunks. *)
Example PushLayerCall_nil_reader :
  isPanic (PushLayerCall (Some (true, New "jcarter3/index_test")) "llm_thing" None ∅) = true /\
  isPanic (PushLayerCall (Some (false, New "jcarter3/index_test")) "llm_thing"
             (Some ["foo"; "bar"]) ∅) = true /\
  PushLayerCall (Some (true, New "jcarter3/index_test")) "llm_thing" (Some ["foo"; "bar"]) ∅
  = Returns (AddLayer (New "jcarter3/index_test")
               (mkDescriptor "llm_thing" (fromBytes "foobar") 6 None "")).
Proof. repeat split; vm_compute; reflexivity. Qed.

Lemma builder_layers_or_manifests_witness :
  Layers (manifest (fst (AddManifest (fst (AddLayer (New "jcarter3/index_test") configDesc))
                          descA))) = [] \/
  Manifests (manifest (fst (AddManifest (fst (AddLayer (New "jcarter3/index_test") configDesc))
                             descA))) = [].
Proof.
  apply (ocibuilder_invariants.builder_layers_or_manifests "jcarter3/index_test"
           [callAddLayer configDesc; callAddManifest descA]).
  reflexivity.
Defined.

Lemma builder_media_type_witness :
  repository (fst (AddManifest (New "jcarter3/index_test") descA)) = "jcarter3/index_test" /\
  SchemaVersion (manifest (fst (AddManifest (New "jcarter3/index_test") descA))) = 2%Z /\
  mMediaType (manifest (fst (AddManifest (New "jcarter3/index_test") descA)))
  = match Manifests (manifest (fst (AddManifest (New "jcarter3/index_test") descA))) with
    | [] => "application/vnd.oci.image.manifest.v1+json"
    | _ :: _ => "application/vnd.oci.image.index.v1+json"
    end.
Proof.
  apply (ocibuilder_invariants.builder_media_type_follows_manifests "jcarter3/index_test"
           [callAddManifest descA]).
  reflexivity.
Defined.

Lemma SetConfig_AddManifest_order_witness :
  (exists ib2,
     AddManifest (fst (SetConfig (New "jcarter3/index_test") configDesc)) descA = (ib2, None) /\
     Config (manifest ib2) = Some configDesc /\
     Manifests (manifest ib2) = [descA] /\
     mMediaType (manifest ib2) = "application/vnd.oci.image.index.v1+json") /\
  snd (AddManifest (New "jcarter3/index_test") descA) = None /\
  SetConfig (fst (AddManifest (New "jcarter3/index_test") descA)) configDesc
  = (fst (AddManifest (New "jcarter3/index_test") descA),
     Some (errorString "cannot set config on index manifest")) /\
  Config (manifest (fst (AddManifest (New "jcarter3/index_test") descA)))
  = Config (manifest (New "jcarter3/index_test")).
Proof.
  apply ocibuilder_invariants.SetConfig_AddManifest_order; reflexivity.
Defined.

End ocibuilder_more_examples.
